(** * Outback streaming server: session lifecycle and transcode orchestration

    A shallow embedding of [server.js]: the session registry, the ingest
    sink, the supervision of the external encoder, the timelapse job gate
    and the manifest URL rewriter, with the properties of the specification
    stated and settled against it; besides, the search for the encoder
    binary at start-up and the upload loop of the test client
    ([test-stream.js]), run against the server.

    JavaScript strings are sequences of UTF-16 code units; they are modelled
    as [list N].  The three [Map]s of the server are [gmap]s keyed by the
    stream key.  Handlers run to completion on one thread, so each handler
    is a function from state to state; everything that happens later (a
    timer firing, an encoder process reporting [end] or [error]) is a
    separate event of the event loop. *)

From Stdlib Require Import ZArith NArith QArith Lia Ascii String List Bool.
From stdpp Require Import base option list gmap fin_maps.

Local Open Scope N_scope.

(** ** JavaScript strings *)

Abbreviation jsstring := (list N).

(** An ASCII literal as a sequence of code units. *)
Definition js (s : string) : list N :=
  List.map N_of_ascii (list_ascii_of_string s).

Arguments js : simpl never.

Definition CH_NL : N := 10.       (* \n *)
Definition CH_CR : N := 13.       (* \r *)
Definition CH_LS : N := 8232.     (* U+2028 *)
Definition CH_PS : N := 8233.     (* U+2029 *)
Definition CH_DOLLAR : N := 36.   (* $ *)
Definition CH_SLASH : N := 47.    (* / *)
Definition CH_UNDERSCORE : N := 95.
Definition CH_COMMA : N := 44.
Definition CH_DOT : N := 46.

(** ** Session key

    [function getStreamKey(userId, challengeNum) { return `${userId}_${challengeNum}`; }]

    The two arguments are taken after the template literal's conversion to
    string. *)
Definition getStreamKey (userId challengeNum : jsstring) : jsstring :=
  userId ++ CH_UNDERSCORE :: challengeNum.


(** ** Regular expressions of the manifest rewriter

    The rewriter uses two patterns per route, both with the flags [gm]:
      [/^(segment_\d+\.ts)$/gm]            and  [/^([^\/\n]+segment_\d+\.ts)$/gm]
      [/^(timelapse_segment_\d+\.ts)$/gm]  and  [/^([^\/\n]+timelapse_segment_\d+\.ts)$/gm]
    They differ only in the literal file-name stem, which is a parameter
    below.  With the [m] flag [^] holds at the start of the input and after
    a line terminator, [$] at the end of the input and before one; the line
    terminators of the language are LF, CR, U+2028 and U+2029. *)

Definition isLineTerminator (c : N) : bool :=
  (c =? CH_NL) || (c =? CH_CR) || (c =? CH_LS) || (c =? CH_PS).

(** [\d] *)
Definition isDigit (c : N) : bool := (48 <=? c) && (c <=? 57).

(** [[^\/\n]] *)
Definition isPrefixChar (c : N) : bool :=
  negb (c =? CH_SLASH) && negb (c =? CH_NL).

(** [^]: the code unit before the position, if any, is a line terminator. *)
Definition at_line_start (prev : option N) : bool :=
  match prev with
  | None => true
  | Some c => isLineTerminator c
  end.

(** [$]: the code unit at the position, if any, is a line terminator. *)
Definition at_line_end (s : jsstring) : bool :=
  match s with
  | [] => true
  | c :: _ => isLineTerminator c
  end.

Fixpoint strip_prefix (p s : jsstring) : option jsstring :=
  match p with
  | [] => Some s
  | a :: p' =>
      match s with
      | [] => None
      | b :: s' => if a =? b then strip_prefix p' s' else None
      end
  end.

(** The greedy [\d*]: how many digits were consumed, and what is left. *)
Fixpoint span_digits (s : jsstring) : nat * jsstring :=
  match s with
  | [] => (O, [])
  | c :: s' =>
      if isDigit c
      then let '(n, r) := span_digits s' in (S n, r)
      else (O, s)
  end.

(** [stem\d+\.ts$] tried at the head of [s]; the length of the match.
    [\d+] is greedy and what follows it is a dot, so giving digits back
    never yields another match: the greedy attempt is the only one. *)
Definition match_bare (stem s : jsstring) : option nat :=
  match strip_prefix stem s with
  | None => None
  | Some s1 =>
      let '(n, s2) := span_digits s1 in
      match n with
      | O => None
      | S _ =>
          match strip_prefix (js ".ts") s2 with
          | None => None
          | Some s3 =>
              if at_line_end s3 then Some (length stem + n + 3)%nat else None
          end
      end
  end.

(** [[^\/\n]+stem\d+\.ts$] tried at the head of [s], in the order of a
    backtracking matcher: the class first takes one code unit, then tries
    to take more (greedy), and only when that fails lets the rest of the
    pattern start here. *)
Fixpoint match_prefixed (stem s : jsstring) : option nat :=
  match s with
  | [] => None
  | c :: s' =>
      if isPrefixChar c then
        match match_prefixed stem s' with
        | Some m => Some (S m)
        | None =>
            match match_bare stem s' with
            | Some m => Some (S m)
            | None => None
            end
        end
      else None
  end.

Inductive SegmentPattern :=
  | PatBare (stem : jsstring)        (* /^(stem\d+\.ts)$/gm *)
  | PatPrefixed (stem : jsstring).   (* /^([^\/\n]+stem\d+\.ts)$/gm *)

(** One attempt of the pattern at a position: [prev] is the code unit before
    it, [s] the text from it on.  The single capture group spans the whole
    match, so the length of the match is all there is to return. *)
Definition exec_at (pat : SegmentPattern) (prev : option N) (s : jsstring)
  : option nat :=
  if at_line_start prev then
    match pat with
    | PatBare stem => match_bare stem s
    | PatPrefixed stem => match_prefixed stem s
    end
  else None.

(** [GetSubstitution] of the language for a pattern with one capture group
    that spans the whole match and no named groups: [$$] is a dollar, [$&]
    the match, [$`] and [$'] the text before and after it, [$1] and [$01]
    the capture; a two-digit reference beyond the one group is read as a
    one-digit reference followed by a digit; anything else is literal. *)
Fixpoint getSubstitution (matched before after tmpl : jsstring) : jsstring :=
  match tmpl with
  | [] => []
  | c :: t =>
      if c =? CH_DOLLAR then
        match t with
        | [] => [c]
        | d :: t1 =>
            if d =? 36 then 36 :: getSubstitution matched before after t1
            else if d =? 38 then matched ++ getSubstitution matched before after t1
            else if d =? 96 then before ++ getSubstitution matched before after t1
            else if d =? 39 then after ++ getSubstitution matched before after t1
            else if isDigit d then
              match t1 with
              | e :: t2 =>
                  if isDigit e && (d =? 48) && (e =? 49)
                  then matched ++ getSubstitution matched before after t2
                  else if d =? 49
                  then matched ++ getSubstitution matched before after t1
                  else c :: getSubstitution matched before after t
              | [] =>
                  if d =? 49
                  then matched ++ getSubstitution matched before after t1
                  else c :: getSubstitution matched before after t
              end
            else c :: getSubstitution matched before after t
        end
      else c :: getSubstitution matched before after t
  end.

(** [String.prototype.replace] with a global pattern.  The text is scanned
    from left to right; [before_rev] is the text already passed, reversed
    (its head is the code unit before the position), [skip] the number of
    code units still inside the last match.  After a match the search
    resumes at its end. *)
Fixpoint replace_scan (pat : SegmentPattern) (tmpl before_rev : jsstring)
    (skip : nat) (s : jsstring) : jsstring :=
  match s with
  | [] => []
  | c :: s' =>
      match skip with
      | S k => replace_scan pat tmpl (c :: before_rev) k s'
      | O =>
          match exec_at pat (head before_rev) s with
          | Some (S m) =>
              getSubstitution (take (S m) s) (rev before_rev) (drop (S m) s) tmpl
                ++ replace_scan pat tmpl (c :: before_rev) m s'
          | _ => c :: replace_scan pat tmpl (c :: before_rev) O s'
          end
      end
  end.

Definition replace_global (pat : SegmentPattern) (tmpl text : jsstring)
  : jsstring :=
  replace_scan pat tmpl [] O text.

(** The two replacements of the routes, on the manifest text:
      [playlistContent.replace(/^(stem\d+\.ts)$/gm, baseUrl + '$1')] and then
      [playlistContent.replace(/^([^\/\n]+stem\d+\.ts)$/gm, baseUrl + '$1')]. *)
Definition rewriteManifest (stem baseUrl text : jsstring) : jsstring :=
  let tmpl := baseUrl ++ js "$1" in
  replace_global (PatPrefixed stem) tmpl
    (replace_global (PatBare stem) tmpl text).

Definition LIVE_STEM : jsstring := js "segment_".
Definition TIMELAPSE_STEM : jsstring := js "timelapse_segment_".

(** [`${protocol}://${req.get('host')}/recordings/${userId}_${challengeNum}/`] *)
Definition baseUrlOf (protocol host userId challengeNum : jsstring) : jsstring :=
  protocol ++ js "://" ++ host ++ js "/recordings/" ++
  userId ++ js "_" ++ challengeNum ++ js "/".

(** ** Request metadata and scheme resolution *)

Record Request := {
  req_id : nat;                          (* which pending response this is *)
  req_userId : jsstring;                 (* req.params.userId *)
  req_challengeNum : jsstring;           (* req.params.challengeNum *)
  req_host : jsstring;                   (* req.get('host') *)
  req_forwardedProto : option jsstring;  (* req.get('x-forwarded-proto') *)
  req_secure : bool;                     (* req.secure *)
  req_protocol : jsstring                (* req.protocol *)
}.

(** The code units [String.prototype.trim] removes: white space and line
    terminators. *)
Definition isTrimmed (c : N) : bool :=
  ((9 <=? c) && (c <=? 13)) || (c =? 32) || (c =? 160) || (c =? 5760) ||
  ((8192 <=? c) && (c <=? 8202)) || (c =? 8232) || (c =? 8233) ||
  (c =? 8239) || (c =? 8287) || (c =? 12288) || (c =? 65279).

Fixpoint trimStart (s : jsstring) : jsstring :=
  match s with
  | [] => []
  | c :: s' => if isTrimmed c then trimStart s' else s
  end.

Definition trim (s : jsstring) : jsstring :=
  rev (trimStart (rev (trimStart s))).

(** [s.split(sep)] for a one-unit separator: always at least one piece. *)
Fixpoint split_on (sep : N) (s : jsstring) : list jsstring :=
  match s with
  | [] => [[]]
  | c :: s' =>
      if c =? sep then [] :: split_on sep s'
      else match split_on sep s' with
           | l :: ls => (c :: l) :: ls
           | [] => [[c]]
           end
  end.

(** [function getProtocol(req)]: the first value of the forwarded-protocol
    header when the header is present and not empty, else the connection's
    own state. *)
Definition getProtocol (req : Request) : jsstring :=
  match req_forwardedProto req with
  | Some (c :: h) => trim (hd [] (split_on CH_COMMA (c :: h)))
  | _ => if req_secure req then js "https" else req_protocol req
  end.

Definition requestBaseUrl (req : Request) : jsstring :=
  baseUrlOf (getProtocol req) (req_host req) (req_userId req)
    (req_challengeNum req).

(** ** The rewriter, line by line

    What the specification says of the rewriter, as a function on the lines
    of the manifest: a line is a segment line when it has no slash and ends
    in the stem, one or more digits and [.ts]; a segment line gets the base
    URL in front, every other line is kept. *)

Definition no_line_terminator (s : jsstring) : bool :=
  forallb (fun c => negb (isLineTerminator c)) s.

(** Line breaks are LF only: no CR, U+2028 or U+2029 in the text. *)
Definition lf_only (s : jsstring) : bool :=
  forallb (fun c => negb (isLineTerminator c) || (c =? CH_NL)) s.

Definition no_slash (s : jsstring) : bool :=
  forallb (fun c => negb (c =? CH_SLASH)) s.

Definition has_slash (s : jsstring) : bool :=
  existsb (fun c => c =? CH_SLASH) s.

Definition no_dollar (s : jsstring) : bool :=
  forallb (fun c => negb (c =? CH_DOLLAR)) s.

(** The line is exactly the stem, digits and [.ts]. *)
Definition is_bare_segment (stem l : jsstring) : bool :=
  match strip_prefix stem l with
  | None => false
  | Some r =>
      let '(n, r') := span_digits r in
      match n with
      | O => false
      | S _ => bool_decide (r' = js ".ts")
      end
  end.

(** Some suffix of the line is the stem, digits and [.ts]. *)
Fixpoint has_segment_suffix (stem l : jsstring) : bool :=
  is_bare_segment stem l ||
  match l with
  | [] => false
  | _ :: l' => has_segment_suffix stem l'
  end.

Definition is_segment_line (stem l : jsstring) : bool :=
  no_slash l && has_segment_suffix stem l.

Definition rewrite_line (stem baseUrl l : jsstring) : jsstring :=
  if is_segment_line stem l then baseUrl ++ l else l.

Fixpoint join_lines (ls : list jsstring) : jsstring :=
  match ls with
  | [] => []
  | l :: ls' =>
      match ls' with
      | [] => l
      | _ :: _ => l ++ CH_NL :: join_lines ls'
      end
  end.

Definition rewrite_lines (stem baseUrl text : jsstring) : jsstring :=
  join_lines (List.map (rewrite_line stem baseUrl) (split_on CH_NL text)).

(** A slash-free line with a non-empty prefix before the segment name: what
    the second pattern matches on a line. *)
Fixpoint is_prefixed_segment (stem l : jsstring) : bool :=
  match l with
  | [] => false
  | c :: l' =>
      negb (c =? CH_SLASH) &&
      (is_prefixed_segment stem l' || is_bare_segment stem l')
  end.

(** What one replacement does to a line. *)
Definition line_matches (pat : SegmentPattern) (l : jsstring) : bool :=
  match pat with
  | PatBare stem => is_bare_segment stem l
  | PatPrefixed stem => is_prefixed_segment stem l
  end.

Definition line_image (pat : SegmentPattern) (baseUrl l : jsstring) : jsstring :=
  if line_matches pat l then baseUrl ++ l else l.

Definition pattern_stem (pat : SegmentPattern) : jsstring :=
  match pat with
  | PatBare stem => stem
  | PatPrefixed stem => stem
  end.

(** What follows a line: nothing, or a line feed and more text. *)
Definition line_rest (rest : jsstring) : Prop :=
  rest = [] \/ exists rest', rest = CH_NL :: rest'.

(** Neither a dollar sign nor a line terminator. *)
Definition url_plain (s : jsstring) : bool :=
  no_dollar s && no_line_terminator s.

(** ** The encoder options of the accelerated rendition

    The filter strings are the ones [generateTimelapse] hands to the
    encoder; the factors are read off them as exact decimal fractions. *)

Definition TIMELAPSE_VIDEO_FILTERS : list jsstring :=
  [ js "setpts=0.01667*PTS" ].

Definition TIMELAPSE_AUDIO_FILTERS : list jsstring :=
  [ js "atempo=2.0,atempo=2.0,atempo=2.0,atempo=2.0,atempo=1.875" ].

Definition TARGET_SPEEDUP : Q := 60 # 1.

Fixpoint digits_value (acc : N) (s : jsstring) : option N :=
  match s with
  | [] => Some acc
  | c :: s' =>
      if isDigit c then digits_value (10 * acc + (c - 48)) s' else None
  end.

(** A decimal literal [ddd] or [ddd.ddd] as a fraction. *)
Definition parse_decimal (s : jsstring) : option Q :=
  match split_on CH_DOT s with
  | [i] =>
      match i with
      | [] => None
      | _ => n ← digits_value 0 i; Some (Z.of_N n # 1)
      end
  | [i; f] =>
      n ← digits_value 0 (i ++ f);
      Some (Z.of_N n # Z.to_pos (10 ^ Z.of_nat (length f)))
  | _ => None
  end.

(** [setpts=<factor>*PTS]: the factor the presentation timestamps are
    multiplied by. *)
Definition setpts_factor (filter : jsstring) : option Q :=
  r ← strip_prefix (js "setpts=") filter;
  match split_on 42 r with
  | [num; v] => if decide (v = js "PTS") then parse_decimal num else None
  | _ => None
  end.

(** [atempo=<factor>] *)
Definition atempo_factor (stage : jsstring) : option Q :=
  r ← strip_prefix (js "atempo=") stage;
  parse_decimal r.

(** A comma-separated chain of [atempo] stages: the factor of each stage. *)
Definition atempo_chain (filter : jsstring) : option (list Q) :=
  mapM atempo_factor (split_on CH_COMMA filter).

Definition Qproduct (l : list Q) : Q := fold_right Qmult (1 # 1) l.

(** The factor the video timestamps are multiplied by, and the factor the
    audio tempo is multiplied by, for the filters above. *)
Definition video_pts_factor : option Q :=
  f ← head TIMELAPSE_VIDEO_FILTERS; setpts_factor f.

Definition audio_tempo_factors : option (list Q) :=
  f ← head TIMELAPSE_AUDIO_FILTERS; atempo_chain f.

Definition audio_tempo_product : option Q :=
  Qproduct <$> audio_tempo_factors.

(** ** Locating the encoder binary

    At start-up the server looks for the encoder at three usual places, in
    order, and asks [which] only when it is at none of them. *)

Definition commonPaths : list jsstring :=
  [js "/usr/bin/ffmpeg"; js "/usr/local/bin/ffmpeg"; js "/bin/ffmpeg"].

(** [onDisk] is [fs.existsSync] at start-up; [which] is what
    [execSync('which ffmpeg')] prints, [None] when it throws.  The result
    is [ffmpegPath] after the search, [None] for [null]. *)
Definition ffmpegPath (onDisk : jsstring -> bool) (which : option jsstring)
  : option jsstring :=
  match List.find onDisk commonPaths with
  | Some p => Some p
  | None => trim <$> which
  end.

(** The path given to [ffmpeg.setFfmpegPath]: the call is made when
    [ffmpegPath] is neither [null] nor empty. *)
Definition configuredPath (onDisk : jsstring -> bool) (which : option jsstring)
  : option jsstring :=
  match ffmpegPath onDisk which with
  | Some p => if bool_decide (p = []) then None else Some p
  | None => None
  end.

(** ** Platform functions, concrete instances

    [path.join] and [Buffer.from(_, 'base64')] belong to the platform; the
    server model below takes them as parameters.  The two instances here
    are used to run the model on concrete inputs. *)

(** Joining two path pieces that need no normalisation. *)
Definition plain_join (a b : jsstring) : jsstring := a ++ CH_SLASH :: b.

Definition unbase64 (c : N) : option N :=
  if (65 <=? c) && (c <=? 90) then Some (c - 65)
  else if (97 <=? c) && (c <=? 122) then Some (c - 71)
  else if isDigit c then Some (c + 4)
  else if (c =? 43) || (c =? 45) then Some 62
  else if (c =? 47) || (c =? 95) then Some 63
  else None.

(** The six-bit values of the text up to the first padding sign.  The
    decoder looks at the low byte of each code unit; what is outside the
    alphabet is skipped. *)
Fixpoint sextets (s : jsstring) : list N :=
  match s with
  | [] => []
  | c :: s' =>
      let b := c mod 256 in
      if b =? 61 then []
      else match unbase64 b with
           | Some v => v :: sextets s'
           | None => sextets s'
           end
  end.

Fixpoint bytes_of_sextets (l : list N) : list N :=
  match l with
  | a :: b :: c :: d :: r =>
      (a * 4 + b / 16) :: ((b mod 16) * 16 + c / 4) :: ((c mod 4) * 64 + d)
        :: bytes_of_sextets r
  | [a; b; c] => [a * 4 + b / 16; (b mod 16) * 16 + c / 4]
  | [a; b] => [a * 4 + b / 16]
  | _ => []
  end.

Definition base64_bytes (s : jsstring) : list N := bytes_of_sextets (sextets s).

(** [Buffer.prototype.toString('base64')]: the standard alphabet, padded. *)
Definition base64_char (v : N) : N :=
  if v <? 26 then v + 65
  else if v <? 52 then v + 71
  else if v <? 62 then v - 4
  else if v =? 62 then 43
  else 47.

Fixpoint base64_text (b : list N) : jsstring :=
  match b with
  | x :: y :: z :: r =>
      base64_char (x / 4) :: base64_char ((x mod 4) * 16 + y / 16)
        :: base64_char ((y mod 16) * 4 + z / 64) :: base64_char (z mod 64)
        :: base64_text r
  | [x; y] =>
      [base64_char (x / 4); base64_char ((x mod 4) * 16 + y / 16);
       base64_char ((y mod 16) * 4); 61]
  | [x] => [base64_char (x / 4); base64_char ((x mod 4) * 16); 61; 61]
  | [] => []
  end.

Local Close Scope N_scope.

(** ** Server state *)

(** An entry of [activeStreams]. *)
Record StreamInfo := {
  si_socketId : jsstring;
  si_userId : jsstring;
  si_challengeNum : jsstring;
  si_startTime : Z;
  si_recordingPath : jsstring;
  si_writeStream : nat          (* the write stream object *)
}.

(** A regular file: its bytes (for a manifest, its text) and its
    last-modified time in milliseconds.  Directories are not modelled. *)
Record File := {
  f_content : list N;
  f_mtime : Z
}.

(** A write stream made by [fs.createWriteStream(path)]: it writes at its
    own position, which starts at 0. *)
Record WriteStream := {
  ws_path : jsstring;
  ws_pos : nat;
  ws_ended : bool
}.

(** The listeners attached to an encoder command, as data.  Each
    constructor carries what the closure captured. *)
Inductive ErrorHandler :=
  | OnErrorLive (streamKey inputFile recordingPath outputPlaylist : jsstring)
  | OnErrorTimelapse (streamKey : jsstring) (req : Request).

Inductive EndHandler :=
  | OnEndLive (streamKey : jsstring)
  | OnEndTimelapse (streamKey timelapsePlaylist : jsstring) (req : Request).

(** An encoder command: how it was configured, which listeners it has,
    whether the process is running and which signals it was sent. *)
Record Proc := {
  p_input : jsstring;
  p_inputOptions : list jsstring;
  p_videoFilters : list jsstring;
  p_audioFilters : list jsstring;
  p_outputOptions : list jsstring;
  p_output : jsstring;
  p_on_error : option ErrorHandler;
  p_on_end : option EndHandler;
  p_running : bool;
  p_signals : list jsstring
}.

(** What a [setTimeout] callback of the server does when it fires. *)
Inductive TimerAction :=
  | TimerSpawnLive (streamKey inputFile recordingPath outputPlaylist : jsstring)
  | TimerRetryLive (streamKey inputFile recordingPath outputPlaylist : jsstring).

Record Timer := {
  t_delay : Z;
  t_action : TimerAction;
  t_pending : bool
}.

Inductive Response :=
  | RespNotFound (userId challengeNum : jsstring)          (* 404 *)
  | RespGenerating (userId challengeNum : jsstring)        (* 202 *)
  | RespFailed (message userId challengeNum : jsstring)    (* 500 *)
  | RespManifest (text : jsstring)                         (* 200 *)
  | RespHealth (activeStreamCount : nat).                  (* 200 *)

Definition status_of (r : Response) : nat :=
  match r with
  | RespNotFound _ _ => 404
  | RespGenerating _ _ => 202
  | RespFailed _ _ _ => 500
  | RespManifest _ => 200
  | RespHealth _ => 200
  end.

(** Everything the server makes visible. *)
Inductive Output :=
  | ConsoleLog (msg : jsstring)
  | ConsoleError (msg : jsstring)
  | SocketEmit (socketId event : jsstring) (payload : option jsstring)
  | HttpSend (reqId : nat) (r : Response).

Record State := {
  activeStreams : gmap (list N) StreamInfo;
  ffmpegProcesses : gmap (list N) nat;
  timelapseProcesses : gmap (list N) nat;
  files : gmap (list N) File;
  wstreams : list WriteStream;
  procs : list Proc;
  timers : list Timer;
  rooms : gset (list N * list N);      (* (socket, room) *)
  now : Z;
  out : list Output;
  crashed : bool                       (* an error reached the top level *)
}.

Definition with_activeStreams (f : gmap (list N) StreamInfo -> gmap (list N) StreamInfo)
    (s : State) : State :=
  {| activeStreams := f (activeStreams s); ffmpegProcesses := ffmpegProcesses s;
     timelapseProcesses := timelapseProcesses s; files := files s;
     wstreams := wstreams s; procs := procs s; timers := timers s;
     rooms := rooms s; now := now s; out := out s; crashed := crashed s |}.

Definition with_ffmpegProcesses (f : gmap (list N) nat -> gmap (list N) nat)
    (s : State) : State :=
  {| activeStreams := activeStreams s; ffmpegProcesses := f (ffmpegProcesses s);
     timelapseProcesses := timelapseProcesses s; files := files s;
     wstreams := wstreams s; procs := procs s; timers := timers s;
     rooms := rooms s; now := now s; out := out s; crashed := crashed s |}.

Definition with_timelapseProcesses (f : gmap (list N) nat -> gmap (list N) nat)
    (s : State) : State :=
  {| activeStreams := activeStreams s; ffmpegProcesses := ffmpegProcesses s;
     timelapseProcesses := f (timelapseProcesses s); files := files s;
     wstreams := wstreams s; procs := procs s; timers := timers s;
     rooms := rooms s; now := now s; out := out s; crashed := crashed s |}.

Definition with_files (f : gmap (list N) File -> gmap (list N) File)
    (s : State) : State :=
  {| activeStreams := activeStreams s; ffmpegProcesses := ffmpegProcesses s;
     timelapseProcesses := timelapseProcesses s; files := f (files s);
     wstreams := wstreams s; procs := procs s; timers := timers s;
     rooms := rooms s; now := now s; out := out s; crashed := crashed s |}.

Definition with_wstreams (f : list WriteStream -> list WriteStream)
    (s : State) : State :=
  {| activeStreams := activeStreams s; ffmpegProcesses := ffmpegProcesses s;
     timelapseProcesses := timelapseProcesses s; files := files s;
     wstreams := f (wstreams s); procs := procs s; timers := timers s;
     rooms := rooms s; now := now s; out := out s; crashed := crashed s |}.

Definition with_procs (f : list Proc -> list Proc) (s : State) : State :=
  {| activeStreams := activeStreams s; ffmpegProcesses := ffmpegProcesses s;
     timelapseProcesses := timelapseProcesses s; files := files s;
     wstreams := wstreams s; procs := f (procs s); timers := timers s;
     rooms := rooms s; now := now s; out := out s; crashed := crashed s |}.

Definition with_timers (f : list Timer -> list Timer) (s : State) : State :=
  {| activeStreams := activeStreams s; ffmpegProcesses := ffmpegProcesses s;
     timelapseProcesses := timelapseProcesses s; files := files s;
     wstreams := wstreams s; procs := procs s; timers := f (timers s);
     rooms := rooms s; now := now s; out := out s; crashed := crashed s |}.

Definition with_rooms (f : gset (list N * list N) -> gset (list N * list N))
    (s : State) : State :=
  {| activeStreams := activeStreams s; ffmpegProcesses := ffmpegProcesses s;
     timelapseProcesses := timelapseProcesses s; files := files s;
     wstreams := wstreams s; procs := procs s; timers := timers s;
     rooms := f (rooms s); now := now s; out := out s; crashed := crashed s |}.

Definition with_now (f : Z -> Z) (s : State) : State :=
  {| activeStreams := activeStreams s; ffmpegProcesses := ffmpegProcesses s;
     timelapseProcesses := timelapseProcesses s; files := files s;
     wstreams := wstreams s; procs := procs s; timers := timers s;
     rooms := rooms s; now := f (now s); out := out s; crashed := crashed s |}.

Definition emit (o : Output) (s : State) : State :=
  {| activeStreams := activeStreams s; ffmpegProcesses := ffmpegProcesses s;
     timelapseProcesses := timelapseProcesses s; files := files s;
     wstreams := wstreams s; procs := procs s; timers := timers s;
     rooms := rooms s; now := now s; out := out s ++ [o]; crashed := crashed s |}.

(** An error nobody handles ends the host process. *)
Definition crash (s : State) : State :=
  {| activeStreams := activeStreams s; ffmpegProcesses := ffmpegProcesses s;
     timelapseProcesses := timelapseProcesses s; files := files s;
     wstreams := wstreams s; procs := procs s; timers := timers s;
     rooms := rooms s; now := now s; out := out s; crashed := true |}.

(** The state at start-up: the three maps are empty; the recordings on disk
    are whatever earlier runs left. *)
Definition init_state (disk : gmap (list N) File) (t0 : Z) : State :=
  {| activeStreams := ∅; ffmpegProcesses := ∅; timelapseProcesses := ∅;
     files := disk; wstreams := []; procs := []; timers := [];
     rooms := ∅; now := t0; out := []; crashed := false |}.

(** *** File system and write streams *)

Definition existsSync (p : jsstring) (s : State) : bool :=
  bool_decide (is_Some (files s !! p)).

Definition mtime_of (p : jsstring) (s : State) : Z :=
  match files s !! p with
  | Some f => f_mtime f
  | None => 0%Z
  end.

Definition content_of (p : jsstring) (s : State) : list N :=
  match files s !! p with
  | Some f => f_content f
  | None => []
  end.

(** Writing [buf] at offset [pos] of a file: a hole past the end reads as
    zeros, and bytes after the written range stay. *)
Definition write_at (content : list N) (pos : nat) (buf : list N) : list N :=
  take pos (content ++ replicate (pos - length content) 0%N) ++ buf
    ++ drop (pos + length buf) content.

(** [fs.createWriteStream(path)], default flags: the file is created or
    truncated and the stream starts at offset 0.  The stream object is the
    index of the new entry. *)
Definition createWriteStream (path : jsstring) (s : State) : nat * State :=
  (length (wstreams s),
   with_wstreams (fun l => l ++ [{| ws_path := path; ws_pos := 0; ws_ended := false |}])
     (with_files (insert path {| f_content := []; f_mtime := now s |}) s)).

(** [stream.write(buffer)]: the bytes go to the file at the stream's
    position, in the order of the calls.  A write after [end()] raises an
    error event on the stream, which has no listener. *)
Definition ws_write (ws : nat) (buf : list N) (s : State) : State :=
  match wstreams s !! ws with
  | None => s
  | Some w =>
      if ws_ended w then crash s
      else
        with_wstreams
          (insert ws {| ws_path := ws_path w; ws_pos := ws_pos w + length buf;
                        ws_ended := false |})
          (with_files
             (insert (ws_path w)
                {| f_content := write_at (content_of (ws_path w) s) (ws_pos w) buf;
                   f_mtime := now s |}) s)
  end.

(** [stream.end()] *)
Definition ws_end (ws : nat) (s : State) : State :=
  with_wstreams
    (alter (fun w => {| ws_path := ws_path w; ws_pos := ws_pos w; ws_ended := true |}) ws)
    s.

(** *** Encoder commands and timers *)

(** [command.run()]: the command joins the process table.  The commands
    below are made with [p_running := true]: the model takes the process
    to be there from [run()] on, whereas fluent-ffmpeg starts it a moment
    later; what is proved of a signal is proved of a command whose process
    is there. *)
Definition spawn (p : Proc) (s : State) : nat * State :=
  (length (procs s), with_procs (fun l => l ++ [p]) s).

(** A signal reaches a command only while its process is there. *)
Definition add_signal (signal : jsstring) (p : Proc) : Proc :=
  if p_running p then
    {| p_input := p_input p; p_inputOptions := p_inputOptions p;
       p_videoFilters := p_videoFilters p; p_audioFilters := p_audioFilters p;
       p_outputOptions := p_outputOptions p; p_output := p_output p;
       p_on_error := p_on_error p; p_on_end := p_on_end p;
       p_running := true; p_signals := p_signals p ++ [signal] |}
  else p.

Definition set_exited (p : Proc) : Proc :=
  {| p_input := p_input p; p_inputOptions := p_inputOptions p;
     p_videoFilters := p_videoFilters p; p_audioFilters := p_audioFilters p;
     p_outputOptions := p_outputOptions p; p_output := p_output p;
     p_on_error := p_on_error p; p_on_end := p_on_end p;
     p_running := false; p_signals := p_signals p |}.

(** [command.kill(signal)]: the signal is sent to the process, if there is
    one. *)
Definition kill (pid : nat) (signal : jsstring) (s : State) : State :=
  with_procs (alter (add_signal signal) pid) s.

(** The process is gone: it reported [end] or [error]. *)
Definition mark_exited (pid : nat) (s : State) : State :=
  with_procs (alter set_exited pid) s.

Definition setTimeout (a : TimerAction) (delay : Z) (s : State) : State :=
  with_timers
    (fun l => l ++ [{| t_delay := delay; t_action := a; t_pending := true |}]) s.

Definition WARMUP_DELAY : Z := 2000.
Definition RESTART_DELAY : Z := 2000.

Definition has_underscore (s : jsstring) : bool :=
  existsb (N.eqb CH_UNDERSCORE) s.

(** The speed-up a command asks for: the inverse of the factor on the video
    timestamps is the video speed-up, the product of the tempo stages the
    audio speed-up. *)
Definition command_pts_factor (p : Proc) : option Q :=
  f ← head (p_videoFilters p); setpts_factor f.

Definition command_tempo_product (p : Proc) : option Q :=
  f ← head (p_audioFilters p); Qproduct <$> atempo_chain f.

(** The three messages a client sends. *)
Inductive SocketMessage := StartStream | StreamChunk | StopStream.

(** Events of the event loop: messages on a socket, requests, and what the
    environment reports (timers, encoder processes, the clock, failures of
    the file system).  The identifiers of a message are given as the text
    the key is made of.  A [stream-chunk] comes in three kinds, by what
    [Buffer.from(chunk, 'base64')] does with the chunk: a string is decoded
    ([EvStreamChunk]), a buffer or an array gives its bytes
    ([EvStreamChunkBytes]), anything else is refused
    ([EvStreamChunkInvalid]).  [EvStartStream] is a [start-stream] whose
    recording directory is there or can be made, [EvStartStreamNoDirectory]
    one for which [fs.mkdirSync] throws.  [EvNoPayload] is a message sent
    without payload. *)
Inductive Event :=
  | EvConnection (socketId : jsstring)
  | EvStartStream (socketId userId challengeNum : jsstring)
  | EvStreamChunk (socketId userId challengeNum chunk : jsstring)
  | EvStopStream (socketId userId challengeNum : jsstring)
  | EvDisconnect (socketId : jsstring)
  | EvGetWatch (req : Request)
  | EvGetTimelapse (req : Request)
  | EvGetHealth (reqId : nat)
  | EvTimer (timer : nat)
  | EvProcError (pid : nat) (message : jsstring)
  | EvProcEnd (pid : nat)
  | EvEncoderOutput (pid : nat) (text : jsstring)
  | EvClock (t : Z)
  | EvNoPayload (socketId : jsstring) (message : SocketMessage)
  | EvStartStreamNoDirectory (socketId userId challengeNum : jsstring)
  | EvStreamChunkBytes (socketId userId challengeNum : jsstring) (bytes : list N)
  | EvStreamChunkInvalid (socketId userId challengeNum : jsstring)
  | EvWriteStreamError (ws : nat).

(** ** The test client ([test-stream.js])

    The client opens a socket, asks for a session when it is connected and,
    when the server answers [stream-ready], reads the test video and sends
    it in slices, one per call of [sendChunks], each call scheduling the
    next one; the call that finds nothing left sends [stop-stream].  A
    timer set at start-up ends the process after 60 seconds, whatever has
    been sent by then; it is never cleared.  What the client prints is
    left out. *)

Module TestStream.

Definition userId : jsstring := js "TEST_USER".
Definition challengeNum : jsstring := js "999".
Definition chunkSize : nat := 64 * 1024.

(** A message the client emits on its socket. *)
Inductive Message :=
  | MsgStartStream (userId challengeNum : jsstring)
  | MsgStreamChunk (userId challengeNum chunk : jsstring)
  | MsgStopStream (userId challengeNum : jsstring).


(** [buf.slice(start, end)] for indices that are not negative: both are
    clamped to the length. *)
Definition slice (buf : list N) (start stop : nat) : list N :=
  take (stop - start) (drop start buf).

(** The client: the offset of the upload, the messages emitted so far,
    whether a call of [sendChunks] is scheduled, and whether the process
    has exited. *)
Record Client := {
  offset : nat;
  emitted : list Message;
  scheduled : bool;
  exited : bool
}.

Definition init : Client :=
  {| offset := 0; emitted := []; scheduled := false; exited := false |}.

Definition emit_message (m : Message) (c : Client) : Client :=
  {| offset := offset c; emitted := emitted c ++ [m];
     scheduled := scheduled c; exited := exited c |}.

Section Encoding.

(** [Buffer.prototype.toString('base64')] *)
Variable toBase64 : list N -> jsstring.

(** [socket.on('connect', ...)] *)
Definition on_connect (c : Client) : Client :=
  emit_message (MsgStartStream userId challengeNum) c.

(** One call of [sendChunks] on the buffer read from the test video. *)
Definition sendChunks (videoBuffer : list N) (c : Client) : Client :=
  if length videoBuffer <=? offset c then
    {| offset := offset c;
       emitted := emitted c ++ [MsgStopStream userId challengeNum];
       scheduled := false; exited := exited c |}
  else
    let chunk := slice videoBuffer (offset c) (offset c + chunkSize) in
    let base64Chunk := toBase64 chunk in
    {| offset := offset c + chunkSize;
       emitted := emitted c ++ [MsgStreamChunk userId challengeNum base64Chunk];
       scheduled := true; exited := exited c |}.

(** [socket.on('stream-ready', ...)]: [video] is the content of the test
    video, if the file is there. *)
Definition on_stream_ready (video : option (list N)) (c : Client) : Client :=
  match video with
  | None =>
      {| offset := offset c; emitted := emitted c; scheduled := false; exited := true |}
  | Some videoBuffer =>
      sendChunks videoBuffer
        {| offset := 0; emitted := emitted c; scheduled := scheduled c;
           exited := exited c |}
  end.

(** The timer set by [sendChunks] fires; after the process has exited
    nothing runs any more. *)
Definition tick (videoBuffer : list N) (c : Client) : Client :=
  if scheduled c && negb (exited c) then sendChunks videoBuffer c else c.





(** The client from the connection on, through [n] firings of the timer. *)
Definition upload (n : nat) (video : list N) : Client :=
  Nat.iter n (tick video) (on_stream_ready (Some video) (on_connect init)).

End Encoding.

End TestStream.

Arguments TestStream.chunkSize : simpl never.

(** ** Sample data

    One user, one challenge, a recordings directory, and two disks: one
    with a recording, one with a recording and an accelerated manifest that
    is older than the recording. *)

Definition SAMPLE_DIR : jsstring := js "/app/recordings".
Definition SAMPLE_SOCKET : jsstring := js "sock-1".
Definition SAMPLE_USER : jsstring := js "u1".
Definition SAMPLE_CHALLENGE : jsstring := js "5".
Definition SAMPLE_KEY : jsstring := js "u1_5".
Definition SAMPLE_INPUT : jsstring := js "/app/recordings/u1_5/input.webm".
Definition SAMPLE_TIMELAPSE : jsstring := js "/app/recordings/u1_5/timelapse.m3u8".

Definition sample_request (id : nat) : Request :=
  {| req_id := id; req_userId := SAMPLE_USER; req_challengeNum := SAMPLE_CHALLENGE;
     req_host := js "h.example"; req_forwardedProto := None;
     req_secure := false; req_protocol := js "http" |}.

Definition sample_manifest : jsstring := js "#EXTM3U
#EXTINF:2.000000,
timelapse_segment_000.ts
#EXT-X-ENDLIST
".

Definition sample_manifest_rewritten : jsstring := js "#EXTM3U
#EXTINF:2.000000,
http://h.example/recordings/u1_5/timelapse_segment_000.ts
#EXT-X-ENDLIST
".

Definition sample_recording : gmap (list N) File :=
  {[ SAMPLE_INPUT := {| f_content := [26; 69; 223; 163]%N; f_mtime := 2000 |} ]}.

Definition sample_stale_cache : gmap (list N) File :=
  <[ SAMPLE_TIMELAPSE := {| f_content := sample_manifest; f_mtime := 1000 |} ]>
    sample_recording.

(** An earlier run left a recording and its accelerated manifest, made
    after it. *)
Definition sample_earlier_run : gmap (list N) File :=
  <[ SAMPLE_TIMELAPSE := {| f_content := sample_manifest; f_mtime := 1000 |} ]>
    {[ SAMPLE_INPUT := {| f_content := [26; 69; 223; 163]%N; f_mtime := 500 |} ]}.

(** The same capture is recorded anew, later. *)
Definition sample_rerecord : list Event :=
  [ EvClock 3000;
    EvStartStream SAMPLE_SOCKET SAMPLE_USER SAMPLE_CHALLENGE;
    EvStreamChunk SAMPLE_SOCKET SAMPLE_USER SAMPLE_CHALLENGE (js "TWFu") ].

(** A session is opened and stopped at once. *)
Definition sample_open_close : list Event :=
  [ EvStartStream SAMPLE_SOCKET SAMPLE_USER SAMPLE_CHALLENGE;
    EvStopStream SAMPLE_SOCKET SAMPLE_USER SAMPLE_CHALLENGE ].

(** A session is opened and the warm-up timer starts the live encoder. *)
Definition sample_live : list Event :=
  [ EvStartStream SAMPLE_SOCKET SAMPLE_USER SAMPLE_CHALLENGE; EvTimer 0 ].

(** The live encoder then fails and the restart timer starts the second
    one. *)
Definition sample_restarted : list Event :=
  sample_live ++ [ EvProcError 0 (js "ffmpeg exited with code 1"); EvTimer 1 ].

(** Another capture is under way when the session of the sample user is
    opened. *)
Definition sample_other_session : list Event :=
  [ EvConnection (js "sock-0");
    EvStartStream (js "sock-0") (js "u2") (js "7");
    EvStreamChunk (js "sock-0") (js "u2") (js "7") (js "TWFu");
    EvGetHealth 1 ].

(** What follows the opening: chunks of both captures, one of them sent
    from the other socket, the other capture's encoder starting and
    writing its manifest, the other socket going away, the stop and a late
    chunk. *)
Definition sample_busy_session : list Event :=
  [ EvStreamChunk SAMPLE_SOCKET SAMPLE_USER SAMPLE_CHALLENGE (js "TWFu");
    EvTimer 0;
    EvEncoderOutput 0 sample_manifest;
    EvStreamChunkBytes (js "sock-0") SAMPLE_USER SAMPLE_CHALLENGE [1; 2]%N;
    EvStreamChunk (js "sock-0") (js "u2") (js "7") (js "TWE=");
    EvDisconnect (js "sock-0");
    EvStreamChunk SAMPLE_SOCKET SAMPLE_USER SAMPLE_CHALLENGE (js "TWE=");
    EvStopStream SAMPLE_SOCKET SAMPLE_USER SAMPLE_CHALLENGE;
    EvStreamChunk SAMPLE_SOCKET SAMPLE_USER SAMPLE_CHALLENGE (js "TWFu") ].

(** A second socket asks for a session under the key of a session that is
    receiving chunks. *)
Definition sample_second_start : list Event :=
  [ EvStartStream SAMPLE_SOCKET SAMPLE_USER SAMPLE_CHALLENGE;
    EvStreamChunk SAMPLE_SOCKET SAMPLE_USER SAMPLE_CHALLENGE (js "TWFu");
    EvStartStream (js "sock-2") SAMPLE_USER SAMPLE_CHALLENGE;
    EvStreamChunk SAMPLE_SOCKET SAMPLE_USER SAMPLE_CHALLENGE (js "TWE=");
    EvStopStream SAMPLE_SOCKET SAMPLE_USER SAMPLE_CHALLENGE ].

Section Server.

(** [path.join], the recordings directory ([path.join(__dirname,
    'recordings')]) and [Buffer.from(_, 'base64')]. *)
Variable path_join : jsstring -> jsstring -> jsstring.
Variable RECORDINGS_DIR : jsstring.
Variable base64_decode : jsstring -> list N.

(** [function getRecordingPath(userId, challengeNum)] *)
Definition getRecordingPath (userId challengeNum : jsstring) : jsstring :=
  path_join RECORDINGS_DIR (getStreamKey userId challengeNum).

Definition inputFileOf (userId challengeNum : jsstring) : jsstring :=
  path_join (getRecordingPath userId challengeNum) (js "input.webm").

Definition timelapsePlaylistOf (userId challengeNum : jsstring) : jsstring :=
  path_join (getRecordingPath userId challengeNum) (js "timelapse.m3u8").

(** *** The three encoder commands

    The [start] and [progress] listeners only write to the console and are
    left out. *)

(** The command of the warm-up timer of [start-stream]. *)
Definition liveCommand (streamKey inputFile recordingPath outputPlaylist : jsstring)
  : Proc :=
  {| p_input := inputFile;
     p_inputOptions :=
       [js "-fflags"; js "+genpts+discardcorrupt"; js "-flags"; js "low_delay";
        js "-strict"; js "experimental"; js "-analyzeduration"; js "1000000";
        js "-probesize"; js "1000000"];
     p_videoFilters := [];
     p_audioFilters := [];
     p_outputOptions :=
       [js "-c:v"; js "libx264"; js "-preset"; js "ultrafast";
        js "-tune"; js "zerolatency"; js "-c:a"; js "aac"; js "-f"; js "hls";
        js "-hls_time"; js "2"; js "-hls_list_size"; js "5";
        js "-hls_flags"; js "delete_segments+append_list";
        js "-hls_segment_filename"; path_join recordingPath (js "segment_%03d.ts");
        js "-hls_playlist_type"; js "event"; js "-start_number"; js "0"];
     p_output := outputPlaylist;
     p_on_error := Some (OnErrorLive streamKey inputFile recordingPath outputPlaylist);
     p_on_end := Some (OnEndLive streamKey);
     p_running := true;
     p_signals := [] |}.

(** The command of the restart timer: no listener is attached to it. *)
Definition retryCommand (inputFile recordingPath outputPlaylist : jsstring) : Proc :=
  {| p_input := inputFile;
     p_inputOptions :=
       [js "-fflags"; js "+genpts+discardcorrupt"; js "-flags"; js "low_delay";
        js "-strict"; js "experimental"];
     p_videoFilters := [];
     p_audioFilters := [];
     p_outputOptions :=
       [js "-c:v"; js "libx264"; js "-preset"; js "ultrafast";
        js "-tune"; js "zerolatency"; js "-c:a"; js "aac"; js "-f"; js "hls";
        js "-hls_time"; js "2"; js "-hls_list_size"; js "5";
        js "-hls_flags"; js "delete_segments+append_list";
        js "-hls_segment_filename"; path_join recordingPath (js "segment_%03d.ts");
        js "-hls_playlist_type"; js "event"];
     p_output := outputPlaylist;
     p_on_error := None;
     p_on_end := None;
     p_running := true;
     p_signals := [] |}.

(** The command of [generateTimelapse]. *)
Definition timelapseCommand (streamKey inputFile recordingPath timelapsePlaylist : jsstring)
    (req : Request) : Proc :=
  {| p_input := inputFile;
     p_inputOptions := [js "-fflags"; js "+genpts"];
     p_videoFilters := TIMELAPSE_VIDEO_FILTERS;
     p_audioFilters := TIMELAPSE_AUDIO_FILTERS;
     p_outputOptions :=
       [js "-c:v"; js "libx264"; js "-preset"; js "ultrafast"; js "-c:a"; js "aac";
        js "-f"; js "hls"; js "-hls_time"; js "2"; js "-hls_list_size"; js "0";
        js "-hls_flags"; js "delete_segments";
        js "-hls_segment_filename";
        path_join recordingPath (js "timelapse_segment_%03d.ts");
        js "-hls_playlist_type"; js "vod"];
     p_output := timelapsePlaylist;
     p_on_error := Some (OnErrorTimelapse streamKey req);
     p_on_end := Some (OnEndTimelapse streamKey timelapsePlaylist req);
     p_running := true;
     p_signals := [] |}.

(** *** Socket handlers *)

(** [io.on('connection', ...)] *)
Definition on_connection (sid : jsstring) (s : State) : State :=
  emit (ConsoleLog (js "Client connected: " ++ sid)) s.

(** [socket.on('start-stream', ...)], when the recording directory is there
    or [fs.mkdirSync] makes it: directories are not modelled, so this
    leaves no trace (the other case is [on_start_stream_no_directory]
    below).  The new entry replaces whatever entry the key had.  What the
    write stream reports later is an event of its own ([ws_error]). *)
Definition on_start_stream (sid userId challengeNum : jsstring) (s : State) : State :=
  let streamKey := getStreamKey userId challengeNum in
  let s := emit (ConsoleLog (js "Starting stream: " ++ streamKey)) s in
  let recordingPath := getRecordingPath userId challengeNum in
  let outputPlaylist := path_join recordingPath (js "playlist.m3u8") in
  let inputFile := path_join recordingPath (js "input.webm") in
  let '(writeStream, s) := createWriteStream inputFile s in
  let s :=
    with_activeStreams
      (insert streamKey
         {| si_socketId := sid; si_userId := userId;
            si_challengeNum := challengeNum; si_startTime := now s;
            si_recordingPath := recordingPath; si_writeStream := writeStream |}) s in
  let s :=
    setTimeout (TimerSpawnLive streamKey inputFile recordingPath outputPlaylist)
      WARMUP_DELAY s in
  let s := with_rooms (fun r => r ∪ {[ (sid, streamKey) ]}) s in
  emit (SocketEmit sid (js "stream-ready") (Some streamKey)) s.

(** [socket.on('stream-chunk', ...)] *)
Definition on_stream_chunk (sid userId challengeNum chunk : jsstring) (s : State)
  : State :=
  let streamKey := getStreamKey userId challengeNum in
  match activeStreams s !! streamKey with
  | Some streamInfo =>
      ws_write (si_writeStream streamInfo) (base64_decode chunk) s
  | None => s
  end.

(** [socket.on('start-stream', ...)] when [fs.mkdirSync] throws (a name
    that is too long, a missing permission, a full disk): the key has been
    logged and nothing after the call runs.  The handler is [async], so
    the error is a rejected promise that nobody handles, which ends the
    host. *)
Definition on_start_stream_no_directory (sid userId challengeNum : jsstring) (s : State)
  : State :=
  crash (emit (ConsoleLog (js "Starting stream: " ++ getStreamKey userId challengeNum)) s).

(** [socket.on('stream-chunk', ...)] for a chunk that is a buffer or an
    array: [Buffer.from] takes its bytes as they are. *)
Definition on_stream_chunk_bytes (sid userId challengeNum : jsstring) (bytes : list N)
    (s : State) : State :=
  let streamKey := getStreamKey userId challengeNum in
  match activeStreams s !! streamKey with
  | Some streamInfo => ws_write (si_writeStream streamInfo) bytes s
  | None => s
  end.

(** [socket.on('stream-chunk', ...)] for a chunk that [Buffer.from] refuses
    (none at all, [null], a number, a boolean, a plain object): with a
    session under the key the call is reached and throws. *)
Definition on_stream_chunk_invalid (sid userId challengeNum : jsstring) (s : State)
  : State :=
  let streamKey := getStreamKey userId challengeNum in
  match activeStreams s !! streamKey with
  | Some streamInfo => crash s
  | None => s
  end.

(** A message without payload: the parameter pattern [{ userId,
    challengeNum }] of each of the three handlers cannot be read from
    [undefined] or [null], which throws. *)
Definition on_no_payload (sid : jsstring) (message : SocketMessage) (s : State) : State :=
  crash s.

(** The [error] event of a write stream (the file cannot be opened, the
    disk is full): no write stream has a listener for it. *)
Definition ws_error (ws : nat) (s : State) : State :=
  match wstreams s !! ws with
  | Some w => crash s
  | None => s
  end.

(** [socket.on('stop-stream', ...)] *)
Definition on_stop_stream (sid userId challengeNum : jsstring) (s : State) : State :=
  let streamKey := getStreamKey userId challengeNum in
  let s := emit (ConsoleLog (js "Stopping stream: " ++ streamKey)) s in
  let s :=
    match activeStreams s !! streamKey with
    | Some streamInfo => ws_end (si_writeStream streamInfo) s
    | None => s
    end in
  let s :=
    match ffmpegProcesses s !! streamKey with
    | Some pid =>
        with_ffmpegProcesses (delete streamKey) (kill pid (js "SIGTERM") s)
    | None => s
    end in
  let s := with_activeStreams (delete streamKey) s in
  let s := with_rooms (fun r => r ∖ {[ (sid, streamKey) ]}) s in
  emit (SocketEmit sid (js "stream-stopped") None) s.

(** One turn of the loop of the disconnect handler. *)
Definition teardown (sid : jsstring) (entry : list N * StreamInfo) (s : State) : State :=
  let '(streamKey, streamInfo) := entry in
  if decide (si_socketId streamInfo = sid) then
    let s := ws_end (si_writeStream streamInfo) s in
    let s :=
      match ffmpegProcesses s !! streamKey with
      | Some pid =>
          with_ffmpegProcesses (delete streamKey) (kill pid (js "SIGTERM") s)
      | None => s
      end in
    with_activeStreams (delete streamKey) s
  else s.

(** [socket.on('disconnect', ...)]; the socket also leaves its rooms. *)
Definition on_disconnect (sid : jsstring) (s : State) : State :=
  let s := emit (ConsoleLog (js "Client disconnected: " ++ sid)) s in
  let s := fold_left (fun st e => teardown sid e st) (map_to_list (activeStreams s)) s in
  with_rooms (filter (fun r => r.1 ≠ sid)) s.

(** *** Timers *)

Definition run_timer (a : TimerAction) (s : State) : State :=
  match a with
  | TimerSpawnLive streamKey inputFile recordingPath outputPlaylist =>
      let '(pid, s) :=
        spawn (liveCommand streamKey inputFile recordingPath outputPlaylist) s in
      with_ffmpegProcesses (insert streamKey pid) s
  | TimerRetryLive streamKey inputFile recordingPath outputPlaylist =>
      if bool_decide (is_Some (activeStreams s !! streamKey)) then
        let s := emit (ConsoleLog (js "Retrying FFmpeg for " ++ streamKey)) s in
        let '(pid, s) := spawn (retryCommand inputFile recordingPath outputPlaylist) s in
        with_ffmpegProcesses (insert streamKey pid) s
      else s
  end.

Definition fire_timer (tid : nat) (s : State) : State :=
  match timers s !! tid with
  | Some t =>
      if t_pending t then
        run_timer (t_action t)
          (with_timers
             (insert tid {| t_delay := t_delay t; t_action := t_action t;
                            t_pending := false |}) s)
      else s
  | None => s
  end.

(** *** Timelapse job gate and routes *)

Definition send (req : Request) (r : Response) (s : State) : State :=
  emit (HttpSend (req_id req) r) s.

Definition IN_PROGRESS : jsstring := js "Timelapse generation already in progress".

(** The callback the timelapse route passes to [generateTimelapse]:
    [err] is the message of the error, if any.  Reading a playlist that is
    not there throws. *)
Definition timelapse_callback (req : Request) (err : option jsstring)
    (playlistPath : jsstring) (s : State) : State :=
  match err with
  | Some message =>
      if decide (message = IN_PROGRESS)
      then send req (RespGenerating (req_userId req) (req_challengeNum req)) s
      else send req (RespFailed message (req_userId req) (req_challengeNum req)) s
  | None =>
      match files s !! playlistPath with
      | Some f =>
          send req
            (RespManifest (rewriteManifest TIMELAPSE_STEM (requestBaseUrl req) (f_content f)))
            s
      | None => crash s
      end
  end.

(** [function generateTimelapse(userId, challengeNum, callback)], the
    callback being the one of the request [req]. *)
Definition generateTimelapse (userId challengeNum : jsstring) (req : Request)
    (s : State) : State :=
  let streamKey := getStreamKey userId challengeNum in
  let recordingPath := getRecordingPath userId challengeNum in
  let inputFile := path_join recordingPath (js "input.webm") in
  let timelapsePlaylist := path_join recordingPath (js "timelapse.m3u8") in
  if negb (existsSync inputFile s) then
    timelapse_callback req (Some (js "Input file not found")) [] s
  else if existsSync timelapsePlaylist s
          && (mtime_of inputFile s <=? mtime_of timelapsePlaylist s)%Z then
    timelapse_callback req None timelapsePlaylist s
  else if bool_decide (is_Some (timelapseProcesses s !! streamKey)) then
    timelapse_callback req (Some IN_PROGRESS) [] s
  else
    let s := emit (ConsoleLog (js "Generating timelapse for " ++ streamKey ++ js "...")) s in
    let '(pid, s) :=
      spawn (timelapseCommand streamKey inputFile recordingPath timelapsePlaylist req) s in
    with_timelapseProcesses (insert streamKey pid) s.

(** [app.get('/timelapse/:userId/:challengeNum', ...)] *)
Definition route_timelapse (req : Request) (s : State) : State :=
  let userId := req_userId req in
  let challengeNum := req_challengeNum req in
  let recordingPath := getRecordingPath userId challengeNum in
  let inputFile := path_join recordingPath (js "input.webm") in
  let timelapsePlaylist := path_join recordingPath (js "timelapse.m3u8") in
  if negb (existsSync inputFile s) then
    send req (RespNotFound userId challengeNum) s
  else if existsSync timelapsePlaylist s then
    send req
      (RespManifest
         (rewriteManifest TIMELAPSE_STEM (requestBaseUrl req)
            (content_of timelapsePlaylist s)))
      s
  else generateTimelapse userId challengeNum req s.

(** [app.get('/watch/:userId/:challengeNum', ...)] *)
Definition route_watch (req : Request) (s : State) : State :=
  let userId := req_userId req in
  let challengeNum := req_challengeNum req in
  let playlistPath := path_join (getRecordingPath userId challengeNum) (js "playlist.m3u8") in
  if negb (existsSync playlistPath s) then
    send req (RespNotFound userId challengeNum) s
  else
    send req
      (RespManifest
         (rewriteManifest LIVE_STEM (requestBaseUrl req) (content_of playlistPath s)))
      s.

(** [app.get('/', ...)] *)
Definition route_health (reqId : nat) (s : State) : State :=
  emit (HttpSend reqId (RespHealth (size (activeStreams s)))) s.

(** *** Encoder events *)

(** The [error] listener of a command, if it has one; an [error] event
    without a listener is thrown. *)
Definition run_error_handler (h : option ErrorHandler) (message : jsstring)
    (s : State) : State :=
  match h with
  | None => crash s
  | Some (OnErrorLive streamKey inputFile recordingPath outputPlaylist) =>
      let s :=
        emit (ConsoleError (js "FFmpeg error for " ++ streamKey ++ js ": " ++ message)) s in
      if bool_decide (is_Some (activeStreams s !! streamKey)) then
        setTimeout (TimerRetryLive streamKey inputFile recordingPath outputPlaylist)
          RESTART_DELAY s
      else s
  | Some (OnErrorTimelapse streamKey req) =>
      let s :=
        emit (ConsoleError
                (js "Timelapse FFmpeg error for " ++ streamKey ++ js ": " ++ message)) s in
      let s := with_timelapseProcesses (delete streamKey) s in
      timelapse_callback req (Some message) [] s
  end.

Definition run_end_handler (h : option EndHandler) (s : State) : State :=
  match h with
  | None => s
  | Some (OnEndLive streamKey) =>
      emit (ConsoleLog (js "FFmpeg finished for " ++ streamKey)) s
  | Some (OnEndTimelapse streamKey timelapsePlaylist req) =>
      let s :=
        emit (ConsoleLog (js "Timelapse generation completed for " ++ streamKey)) s in
      let s := with_timelapseProcesses (delete streamKey) s in
      timelapse_callback req None timelapsePlaylist s
  end.

(** A running encoder process reports an error (failure to start, a
    non-zero exit, death by a signal): at most once per process. *)
Definition proc_error (pid : nat) (message : jsstring) (s : State) : State :=
  match procs s !! pid with
  | Some p =>
      if p_running p
      then run_error_handler (p_on_error p) message (mark_exited pid s)
      else s
  | None => s
  end.

(** A running encoder process finishes. *)
Definition proc_end (pid : nat) (s : State) : State :=
  match procs s !! pid with
  | Some p =>
      if p_running p
      then run_end_handler (p_on_end p) (mark_exited pid s)
      else s
  | None => s
  end.

(** A running encoder process writes its output manifest. *)
Definition encoder_output (pid : nat) (text : jsstring) (s : State) : State :=
  match procs s !! pid with
  | Some p =>
      if p_running p
      then with_files (insert (p_output p) {| f_content := text; f_mtime := now s |}) s
      else s
  | None => s
  end.

(** *** The event loop *)

Definition dispatch (e : Event) (s : State) : State :=
  match e with
  | EvConnection sid => on_connection sid s
  | EvStartStream sid u c => on_start_stream sid u c s
  | EvStreamChunk sid u c chunk => on_stream_chunk sid u c chunk s
  | EvStopStream sid u c => on_stop_stream sid u c s
  | EvDisconnect sid => on_disconnect sid s
  | EvGetWatch req => route_watch req s
  | EvGetTimelapse req => route_timelapse req s
  | EvGetHealth reqId => route_health reqId s
  | EvTimer tid => fire_timer tid s
  | EvProcError pid message => proc_error pid message s
  | EvProcEnd pid => proc_end pid s
  | EvEncoderOutput pid text => encoder_output pid text s
  | EvClock t => with_now (Z.max t) s
  | EvNoPayload sid message => on_no_payload sid message s
  | EvStartStreamNoDirectory sid u c => on_start_stream_no_directory sid u c s
  | EvStreamChunkBytes sid u c bytes => on_stream_chunk_bytes sid u c bytes s
  | EvStreamChunkInvalid sid u c => on_stream_chunk_invalid sid u c s
  | EvWriteStreamError ws => ws_error ws s
  end.

(** After a crash nothing runs any more. *)
Definition handle (e : Event) (s : State) : State :=
  if crashed s then s else dispatch e s.

Definition run (evs : list Event) (s : State) : State :=
  fold_left (fun st e => handle e st) evs s.

(** Which timelapse computation a command is, if any, and whether the
    command [pid] is a running computation for [key]. *)
Definition timelapse_key (p : Proc) : option jsstring :=
  match p_on_end p with
  | Some (OnEndTimelapse streamKey _ _) => Some streamKey
  | _ => None
  end.






(** The chunk messages of one session, in arrival order. *)
Definition deliver_chunks (userId challengeNum : jsstring)
    (msgs : list (jsstring * jsstring)) (s : State) : State :=
  fold_left (fun st m => on_stream_chunk m.1 userId challengeNum m.2 st) msgs s.

(** The ingest sink of the session of a key is in order: the registered
    write stream is open, writes to the session's input file and stands
    at the end of it. *)
Definition sink_ok (userId challengeNum : jsstring) (s : State) : Prop :=
  exists info w,
    activeStreams s !! getStreamKey userId challengeNum = Some info
    /\ wstreams s !! si_writeStream info = Some w
    /\ ws_ended w = false
    /\ ws_path w = inputFileOf userId challengeNum
    /\ ws_pos w = length (content_of (inputFileOf userId challengeNum) s).

(** A timer after it fired. *)
Definition fired (t : Timer) : Timer :=
  {| t_delay := t_delay t; t_action := t_action t; t_pending := false |}.

(** The sinks of the registered sessions: each session has its write
    stream, the stream is open, and no two sessions share one. *)
Definition sink_inv_of (sessions : gmap (list N) StreamInfo) (ws : list WriteStream)
  : Prop :=
  forall key info,
    sessions !! key = Some info ->
    (exists w, ws !! si_writeStream info = Some w /\ ws_ended w = false)
    /\ forall key' info',
         sessions !! key' = Some info' ->
         si_writeStream info' = si_writeStream info -> key' = key.

Definition sink_inv (s : State) : Prop :=
  sink_inv_of (activeStreams s) (wstreams s).

(** The encoders of [ffmpegProcesses] are commands of the live path, and a
    timelapse command has been sent no signal. *)
Definition encoder_inv_of (registered : gmap (list N) nat) (ps : list Proc) : Prop :=
  (forall key pid, registered !! key = Some pid ->
     exists p, ps !! pid = Some p /\ timelapse_key p = None)
  /\ (forall pid p key, ps !! pid = Some p -> timelapse_key p = Some key ->
        p_signals p = []).

Definition encoder_inv (s : State) : Prop :=
  encoder_inv_of (ffmpegProcesses s) (procs s).

Definition end_stream (w : WriteStream) : WriteStream :=
  {| ws_path := ws_path w; ws_pos := ws_pos w; ws_ended := true |}.

(** The entry, the write stream and the timer that [start-stream] makes. *)
Definition new_session (sid userId challengeNum : jsstring) (s : State) : StreamInfo :=
  {| si_socketId := sid; si_userId := userId; si_challengeNum := challengeNum;
     si_startTime := now s; si_recordingPath := getRecordingPath userId challengeNum;
     si_writeStream := length (wstreams s) |}.

Definition new_sink (userId challengeNum : jsstring) : WriteStream :=
  {| ws_path := inputFileOf userId challengeNum; ws_pos := 0; ws_ended := false |}.

Definition warmup_timer (userId challengeNum : jsstring) : Timer :=
  {| t_delay := WARMUP_DELAY;
     t_action := TimerSpawnLive (getStreamKey userId challengeNum)
                   (inputFileOf userId challengeNum)
                   (getRecordingPath userId challengeNum)
                   (path_join (getRecordingPath userId challengeNum) (js "playlist.m3u8"));
     t_pending := true |}.

(** The live command of a session. *)
Definition session_encoder (userId challengeNum : jsstring) : Proc :=
  liveCommand (getStreamKey userId challengeNum)
    (inputFileOf userId challengeNum)
    (getRecordingPath userId challengeNum)
    (path_join (getRecordingPath userId challengeNum) (js "playlist.m3u8")).

(** *** The chunks of a session, and who writes a file

    What the specification calls the chunks delivered for an open session
    before its stop signal: the session of a key is opened by a
    [start-stream] on a socket and is taken out of the registry by the
    first [stop-stream] for the key or by the disconnect of that socket. *)

(** The bytes a [stream-chunk] for [key] carries. *)
Definition chunk_bytes (key : jsstring) (e : Event) : option (list N) :=
  match e with
  | EvStreamChunk _ u c chunk =>
      if decide (getStreamKey u c = key) then Some (base64_decode chunk) else None
  | EvStreamChunkBytes _ u c bytes =>
      if decide (getStreamKey u c = key) then Some bytes else None
  | _ => None
  end.

Definition closes_session (key owner : jsstring) (e : Event) : bool :=
  match e with
  | EvStopStream _ u c => bool_decide (getStreamKey u c = key)
  | EvDisconnect sid => bool_decide (sid = owner)
  | _ => false
  end.

Fixpoint session_chunks (key owner : jsstring) (evs : list Event) : list (list N) :=
  match evs with
  | [] => []
  | e :: evs' =>
      if closes_session key owner e then []
      else match chunk_bytes key e with
           | Some b => b :: session_chunks key owner evs'
           | None => session_chunks key owner evs'
           end
  end.

(** The [start-stream] opens [file] as its input file. *)
Definition opens_file (file : jsstring) (e : Event) : bool :=
  match e with
  | EvStartStream _ u c => bool_decide (inputFileOf u c = file)
  | _ => false
  end.

(** The [start-stream] opens [file] as its input file under a key other
    than [key]. *)
Definition opens_file_under_other_key (key file : jsstring) (e : Event) : bool :=
  match e with
  | EvStartStream _ u c =>
      bool_decide (inputFileOf u c = file) && negb (bool_decide (getStreamKey u c = key))
  | _ => false
  end.

(** The events that touch neither the registry, nor a write stream, nor a
    file. *)
Definition quiet (e : Event) : bool :=
  match e with
  | EvStartStream _ _ _ | EvStreamChunk _ _ _ _ | EvStreamChunkBytes _ _ _ _
  | EvStopStream _ _ _ | EvDisconnect _ | EvEncoderOutput _ _ => false
  | _ => true
  end.

(** Only the session of [key] has a write stream on [file]. *)
Definition file_of_key_of (key file : jsstring)
    (sessions : gmap (list N) StreamInfo) (ws : list WriteStream) : Prop :=
  forall k info w,
    sessions !! k = Some info -> ws !! si_writeStream info = Some w ->
    ws_path w = file -> k = key.

Definition file_of_key (key file : jsstring) (s : State) : Prop :=
  file_of_key_of key file (activeStreams s) (wstreams s).

(** The outputs of the encoder commands are manifests: those of the
    commands in the table, those the error listeners hand to the restart
    timer, and those the timers hold. *)
Definition manifest_path (o : jsstring) : Prop :=
  exists a, o = path_join a (js "playlist.m3u8") \/ o = path_join a (js "timelapse.m3u8").

Definition timer_output (t : Timer) : jsstring :=
  match t_action t with
  | TimerSpawnLive _ _ _ o => o
  | TimerRetryLive _ _ _ o => o
  end.

Definition outputs_inv_of (ps : list Proc) (ts : list Timer) : Prop :=
  (forall pid p, ps !! pid = Some p ->
     manifest_path (p_output p)
     /\ forall k i r o, p_on_error p = Some (OnErrorLive k i r o) -> manifest_path o)
  /\ (forall tid t, ts !! tid = Some t -> manifest_path (timer_output t)).

Definition outputs_inv (s : State) : Prop := outputs_inv_of (procs s) (timers s).

(** The session of the key is the one opened on [sid], and its sink is in
    order. *)
Definition session_open (sid userId challengeNum : jsstring) (s : State) : Prop :=
  exists info w,
    activeStreams s !! getStreamKey userId challengeNum = Some info
    /\ si_socketId info = sid
    /\ wstreams s !! si_writeStream info = Some w
    /\ ws_ended w = false
    /\ ws_path w = inputFileOf userId challengeNum
    /\ ws_pos w = length (content_of (inputFileOf userId challengeNum) s).

(** What the run keeps, for the session of one key. *)
Definition ingest_inv (userId challengeNum : jsstring) (s : State) : Prop :=
  sink_inv s
  /\ file_of_key (getStreamKey userId challengeNum) (inputFileOf userId challengeNum) s
  /\ outputs_inv s.

(** * Properties *)

(** ** Frame properties of the socket handlers *)


(** The ways a key comes to have no session: it was stopped, or its
    socket went away. *)
Lemma stopped_key_not_registered (sid userId challengeNum : jsstring) (s : State) :
  activeStreams (on_stop_stream sid userId challengeNum s)
    !! getStreamKey userId challengeNum = None.
Proof.
  unfold on_stop_stream. cbn [emit activeStreams with_rooms with_activeStreams].
  apply lookup_delete_eq.
Qed.

Lemma teardown_keeps_unregistered (sid key : jsstring) (e : list N * StreamInfo) (s : State) :
  activeStreams s !! key = None -> activeStreams (teardown sid e s) !! key = None.
Proof.
  intros H. destruct e as [k info]. unfold teardown.
  destruct (decide (si_socketId info = sid)); [|exact H].
  cbn [with_activeStreams activeStreams].
  assert (Hsame : activeStreams
            match ffmpegProcesses (ws_end (si_writeStream info) s) !! k with
            | Some pid => with_ffmpegProcesses (delete k)
                            (kill pid (js "SIGTERM") (ws_end (si_writeStream info) s))
            | None => ws_end (si_writeStream info) s
            end = activeStreams s).
  { destruct (ffmpegProcesses (ws_end (si_writeStream info) s) !! k); reflexivity. }
  rewrite Hsame. rewrite lookup_delete_None. now right.
Qed.

Lemma teardown_unregisters (sid key : jsstring) (info : StreamInfo) (s : State) :
  si_socketId info = sid ->
  activeStreams (teardown sid (key, info) s) !! key = None.
Proof.
  intros Hsid. unfold teardown. rewrite decide_True by exact Hsid.
  cbn [with_activeStreams activeStreams]. apply lookup_delete_eq.
Qed.

Lemma disconnected_key_not_registered (sid key : jsstring) (info : StreamInfo) (s : State) :
  activeStreams s !! key = Some info -> si_socketId info = sid ->
  activeStreams (on_disconnect sid s) !! key = None.
Proof.
  intros Hreg Hsid. unfold on_disconnect. cbn [with_rooms activeStreams].
  set (s1 := emit (ConsoleLog (js "Client disconnected: " ++ sid)) s).
  assert (Hin : (key, info) ∈ map_to_list (activeStreams s1)).
  { apply elem_of_map_to_list. exact Hreg. }
  revert Hin. generalize (map_to_list (activeStreams s1)) as l.
  generalize s1 as st. clear s1 Hreg.
  assert (Hgen : forall l st,
            (key, info) ∈ l \/ activeStreams st !! key = None ->
            activeStreams (fold_left (fun st e => teardown sid e st) l st) !! key = None).
  { induction l as [|e l IH]; intros st [Hin|Hnone]; cbn.
    - inversion Hin.
    - exact Hnone.
    - apply IH. apply elem_of_cons in Hin as [<-|Hin]; [right|left; exact Hin].
      now apply teardown_unregisters.
    - apply IH. right. now apply teardown_keeps_unregistered. }
  intros st l Hin. apply Hgen. now left.
Qed.

(** What a stop for a key without a session leaves alone and what it does. *)
Lemma on_stop_stream_without_session
    (sid userId challengeNum : jsstring) (s : State) :
  activeStreams s !! getStreamKey userId challengeNum = None ->
  let key := getStreamKey userId challengeNum in
  let s' := on_stop_stream sid userId challengeNum s in
  activeStreams s' = activeStreams s
  /\ files s' = files s
  /\ wstreams s' = wstreams s
  /\ timers s' = timers s
  /\ timelapseProcesses s' = timelapseProcesses s
  /\ crashed s' = crashed s
  /\ rooms s' = rooms s ∖ {[ (sid, key) ]}
  /\ out s' = out s ++ [ConsoleLog (js "Stopping stream: " ++ key);
                        SocketEmit sid (js "stream-stopped") None]
  /\ ffmpegProcesses s' = delete key (ffmpegProcesses s)
  /\ (ffmpegProcesses s !! key = None ->
      ffmpegProcesses s' = ffmpegProcesses s /\ procs s' = procs s)
  /\ (forall pid, ffmpegProcesses s !! key = Some pid ->
      procs s' = procs (kill pid (js "SIGTERM") s)).
Proof.
  intros Hnone key s'. subst s'. unfold on_stop_stream. fold key.
  cbn [emit activeStreams]. fold key in Hnone. rewrite Hnone.
  cbn [ffmpegProcesses emit].
  destruct (ffmpegProcesses s !! key) as [pid|] eqn:Hp; cbn.
  all: repeat match goal with |- _ /\ _ => split end.
  all: try reflexivity.
  all: try (now apply delete_id).
  all: try (now rewrite <- app_assoc).
  all: try (intros; discriminate).
  - intros pid' [= <-]. reflexivity.
  - now rewrite delete_id.
  - intros _. split; reflexivity.
Qed.

(** A signal sent to one command of the table: it is recorded when the
    command's process is there, and otherwise nothing changes; the other
    commands are as before. *)
Lemma kill_lookup (signal : jsstring) (pid : nat) (p : Proc) (ps : list Proc) :
  ps !! pid = Some p ->
  exists p',
    alter (add_signal signal) pid ps !! pid = Some p'
    /\ p_signals p' = (if p_running p then p_signals p ++ [signal] else p_signals p)
    /\ p_running p' = p_running p
    /\ p_on_error p' = p_on_error p
    /\ p_on_end p' = p_on_end p
    /\ (p_running p = false -> p' = p).
Proof.
  intros Hp. exists (add_signal signal p). rewrite list_lookup_alter_eq, Hp.
  split; [reflexivity|]. unfold add_signal.
  destruct (p_running p) eqn:Hr; cbn; rewrite ?Hr; repeat split; try reflexivity.
  intros H. discriminate.
Qed.

(** C8, as the code has it: a stop for a key without a session raises no
    error and leaves the registry, the files, the write streams, the
    timers and the timelapse jobs alone; it logs, leaves the room and
    answers [stream-stopped]; without an encoder registered under the key
    the process table is untouched; with one, [kill('SIGTERM')] is called
    on that command and its entry is removed: the signal is recorded when
    the command's process is there, a command that has exited is left as
    it is, and no other command is touched. *)
Theorem stop_stream_without_session
    (sid userId challengeNum : jsstring) (s : State) :
  activeStreams s !! getStreamKey userId challengeNum = None ->
  let key := getStreamKey userId challengeNum in
  let s' := on_stop_stream sid userId challengeNum s in
  activeStreams s' = activeStreams s
  /\ files s' = files s
  /\ wstreams s' = wstreams s
  /\ timers s' = timers s
  /\ timelapseProcesses s' = timelapseProcesses s
  /\ crashed s' = crashed s
  /\ rooms s' = rooms s ∖ {[ (sid, key) ]}
  /\ out s' = out s ++ [ConsoleLog (js "Stopping stream: " ++ key);
                        SocketEmit sid (js "stream-stopped") None]
  /\ ffmpegProcesses s' = delete key (ffmpegProcesses s)
  /\ (ffmpegProcesses s !! key = None ->
      ffmpegProcesses s' = ffmpegProcesses s /\ procs s' = procs s)
  /\ (forall pid, ffmpegProcesses s !! key = Some pid ->
      procs s' = procs (kill pid (js "SIGTERM") s)
      /\ (forall other, other <> pid -> procs s' !! other = procs s !! other)
      /\ (forall p, procs s !! pid = Some p ->
          exists p',
            procs s' !! pid = Some p'
            /\ p_signals p'
               = (if p_running p then p_signals p ++ [js "SIGTERM"] else p_signals p)
            /\ p_running p' = p_running p
            /\ (p_running p = false -> p' = p))).
Proof.
  intros Hnone key s'.
  destruct (on_stop_stream_without_session sid userId challengeNum s Hnone)
    as (H1 & H2 & H3 & H4 & H5 & H6 & H7 & H8 & H9 & H10 & H11).
  fold key s' in H1, H2, H3, H4, H5, H6, H7, H8, H9, H10, H11.
  split; [exact H1|]. split; [exact H2|]. split; [exact H3|]. split; [exact H4|].
  split; [exact H5|]. split; [exact H6|]. split; [exact H7|]. split; [exact H8|].
  split; [exact H9|]. split; [exact H10|].
  intros pid Hpid. specialize (H11 pid Hpid). split; [exact H11|].
  rewrite H11. cbn [kill procs with_procs]. split.
  - intros other Hne. now apply list_lookup_alter_ne.
  - intros p Hp. destruct (kill_lookup (js "SIGTERM") pid p (procs s) Hp)
      as (p' & Hp' & Hsig & Hrun & _ & _ & Hsame).
    exists p'. auto.
Qed.

(** ** Ingest sink *)

Lemma write_at_end (content buf : list N) :
  write_at content (length content) buf = content ++ buf.
Proof.
  unfold write_at.
  rewrite Nat.sub_diag. cbn [replicate]. rewrite app_nil_r.
  rewrite firstn_all. rewrite drop_ge by lia. now rewrite app_nil_r.
Qed.

Lemma content_of_insert (p : jsstring) (f : File) (s : State) :
  content_of p (with_files (insert p f) s) = f_content f.
Proof. unfold content_of. cbn. now rewrite lookup_insert_eq. Qed.

(** Opening a session leaves an empty input file and a sink in order. *)
Lemma start_stream_sink_ok (sid userId challengeNum : jsstring) (s : State) :
  sink_ok userId challengeNum (on_start_stream sid userId challengeNum s)
  /\ content_of (inputFileOf userId challengeNum)
       (on_start_stream sid userId challengeNum s) = [].
Proof.
  unfold sink_ok, on_start_stream, inputFileOf, content_of. cbn.
  rewrite !lookup_insert_eq. cbn. split; [|reflexivity].
  eexists _, _. split; [reflexivity|]. cbn.
  split; [apply list_lookup_middle; reflexivity|]. cbn. auto.
Qed.

(** A chunk for a session whose sink is in order is appended, and the
    sink stays in order. *)
Lemma stream_chunk_appends (sid userId challengeNum chunk : jsstring) (s : State) :
  sink_ok userId challengeNum s ->
  sink_ok userId challengeNum (on_stream_chunk sid userId challengeNum chunk s)
  /\ content_of (inputFileOf userId challengeNum)
       (on_stream_chunk sid userId challengeNum chunk s)
     = content_of (inputFileOf userId challengeNum) s ++ base64_decode chunk.
Proof.
  intros (info & w & Hinfo & Hw & Hopen & Hpath & Hpos).
  unfold on_stream_chunk. rewrite Hinfo. unfold ws_write. rewrite Hw, Hopen, Hpath, Hpos.
  rewrite write_at_end.
  split.
  - exists info. eexists. cbn. split; [exact Hinfo|].
    split; [apply list_lookup_insert_eq; now apply lookup_lt_Some in Hw|].
    cbn. repeat split.
    unfold content_of. cbn. rewrite lookup_insert_eq. cbn.
    now rewrite length_app.
  - apply content_of_insert.
Qed.

Lemma deliver_chunks_appends (userId challengeNum : jsstring)
    (msgs : list (jsstring * jsstring)) (s : State) :
  sink_ok userId challengeNum s ->
  sink_ok userId challengeNum (deliver_chunks userId challengeNum msgs s)
  /\ content_of (inputFileOf userId challengeNum)
       (deliver_chunks userId challengeNum msgs s)
     = content_of (inputFileOf userId challengeNum) s
         ++ concat (List.map (fun m => base64_decode m.2) msgs).
Proof.
  revert s. induction msgs as [|m msgs IH]; intros s Hok; cbn.
  - split; [exact Hok|now rewrite app_nil_r].
  - destruct (stream_chunk_appends m.1 userId challengeNum m.2 s Hok) as [Hok' Hc].
    destruct (IH _ Hok') as [Hok'' Hc'].
    split; [exact Hok''|].
    unfold deliver_chunks in Hc'. rewrite Hc', Hc. now rewrite <- app_assoc.
Qed.

Lemma deliver_chunks_app (userId challengeNum : jsstring)
    (l1 l2 : list (jsstring * jsstring)) (s : State) :
  deliver_chunks userId challengeNum (l1 ++ l2) s
  = deliver_chunks userId challengeNum l2 (deliver_chunks userId challengeNum l1 s).
Proof. unfold deliver_chunks. apply fold_left_app. Qed.


(** Stopping a session writes to no file. *)
Lemma on_stop_stream_files (sid userId challengeNum : jsstring) (s : State) :
  files (on_stop_stream sid userId challengeNum s) = files s.
Proof.
  unfold on_stop_stream. cbn [emit activeStreams].
  destruct (activeStreams s !! getStreamKey userId challengeNum); cbn;
    destruct (ffmpegProcesses s !! getStreamKey userId challengeNum); reflexivity.
Qed.

(** The handlers applied in a row, with no other event in between: after
    [on_start_stream], whatever chunks [on_stream_chunk] is given, the input
    file holds the decoded chunks one after the other, and [on_stop_stream]
    leaves the file as it is. *)
Lemma start_chunks_stop_in_a_row
    (sid userId challengeNum : jsstring) (msgs : list (jsstring * jsstring))
    (s : State) :
  let s0 := on_start_stream sid userId challengeNum s in
  let artifact st := content_of (inputFileOf userId challengeNum) st in
  artifact (deliver_chunks userId challengeNum msgs s0)
    = concat (List.map (fun m => base64_decode m.2) msgs)
  /\ length (artifact (deliver_chunks userId challengeNum msgs s0))
    = list_sum (List.map (fun m => length (base64_decode m.2)) msgs)
  /\ (forall k,
       artifact (deliver_chunks userId challengeNum (take k msgs) s0)
         `prefix_of` artifact (deliver_chunks userId challengeNum msgs s0))
  /\ artifact (on_stop_stream sid userId challengeNum
                 (deliver_chunks userId challengeNum msgs s0))
     = artifact (deliver_chunks userId challengeNum msgs s0).
Proof.
  intros s0 artifact. subst artifact. cbn beta.
  destruct (start_stream_sink_ok sid userId challengeNum s) as [Hok Hempty].
  fold s0 in Hok, Hempty.
  assert (Hall : forall l,
    content_of (inputFileOf userId challengeNum) (deliver_chunks userId challengeNum l s0)
    = concat (List.map (fun m => base64_decode m.2) l)).
  { intros l. destruct (deliver_chunks_appends userId challengeNum l s0 Hok) as [_ H].
    now rewrite H, Hempty. }
  split; [apply Hall|]. split; [|split].
  - rewrite Hall. clear. induction msgs as [|m msgs IH]; cbn; [reflexivity|].
    now rewrite length_app, IH.
  - intros k. rewrite !Hall.
    rewrite <- (take_drop k msgs) at 2.
    rewrite List.map_app, concat_app. now apply prefix_app_r.
  - unfold content_of. now rewrite on_stop_stream_files.
Qed.

(** ** Timelapse job gate *)




















Lemma timelapse_callback_frame (req : Request) (err : option jsstring)
    (playlistPath : jsstring) (s : State) :
  procs (timelapse_callback req err playlistPath s) = procs s
  /\ timelapseProcesses (timelapse_callback req err playlistPath s)
     = timelapseProcesses s.
Proof.
  unfold timelapse_callback. destruct err as [message|].
  - destruct (decide (message = IN_PROGRESS)); split; reflexivity.
  - destruct (files s !! playlistPath); split; reflexivity.
Qed.

(** The route answers from the playlist on disk whenever there is one,
    whatever the two modification times are. *)
Lemma route_timelapse_existing_playlist (req : Request) (s : State) :
  existsSync (inputFileOf (req_userId req) (req_challengeNum req)) s = true ->
  existsSync (timelapsePlaylistOf (req_userId req) (req_challengeNum req)) s = true ->
  route_timelapse req s
  = send req
      (RespManifest
         (rewriteManifest TIMELAPSE_STEM (requestBaseUrl req)
            (content_of (timelapsePlaylistOf (req_userId req) (req_challengeNum req)) s)))
      s.
Proof.
  unfold route_timelapse, inputFileOf, timelapsePlaylistOf. intros -> ->. reflexivity.
Qed.

(** [generateTimelapse] itself compares the modification times: a cached
    playlist that is not older than the source is handed to the callback
    and nothing is started ... *)
Lemma generateTimelapse_fresh_cache (userId challengeNum : jsstring) (req : Request)
    (s : State) :
  existsSync (inputFileOf userId challengeNum) s = true ->
  existsSync (timelapsePlaylistOf userId challengeNum) s = true ->
  (mtime_of (inputFileOf userId challengeNum) s
     <= mtime_of (timelapsePlaylistOf userId challengeNum) s)%Z ->
  generateTimelapse userId challengeNum req s
  = timelapse_callback req None (timelapsePlaylistOf userId challengeNum) s.
Proof.
  unfold generateTimelapse, inputFileOf, timelapsePlaylistOf. intros -> -> Hle.
  apply Z.leb_le in Hle. rewrite Hle. reflexivity.
Qed.

(** ... and one that is older, with no job running, starts the encoder. *)
Lemma generateTimelapse_stale_cache (userId challengeNum : jsstring) (req : Request)
    (s : State) :
  existsSync (inputFileOf userId challengeNum) s = true ->
  (mtime_of (timelapsePlaylistOf userId challengeNum) s
     < mtime_of (inputFileOf userId challengeNum) s)%Z ->
  timelapseProcesses s !! getStreamKey userId challengeNum = None ->
  let s' := generateTimelapse userId challengeNum req s in
  procs s'
  = procs s ++ [timelapseCommand (getStreamKey userId challengeNum)
                  (inputFileOf userId challengeNum)
                  (getRecordingPath userId challengeNum)
                  (timelapsePlaylistOf userId challengeNum) req]
  /\ timelapseProcesses s' !! getStreamKey userId challengeNum = Some (length (procs s)).
Proof.
  unfold generateTimelapse, inputFileOf, timelapsePlaylistOf. intros -> Hlt Hfree.
  apply Z.leb_gt in Hlt. rewrite Hlt, andb_false_r. cbn [negb].
  rewrite Hfree. rewrite bool_decide_eq_false_2 by (intros [? ?]; discriminate).
  cbn. split; [reflexivity|]. apply lookup_insert_eq.
Qed.


(** ** Supervision of the live encoder *)

(** An [error] event of a command without a listener ends the host. *)
Lemma unhandled_encoder_error_crashes (pid : nat) (p : Proc) (message : jsstring)
    (s : State) :
  procs s !! pid = Some p -> p_running p = true -> p_on_error p = None ->
  let s' := proc_error pid message s in
  crashed s' = true /\ timers s' = timers s /\ length (procs s') = length (procs s)
  /\ ffmpegProcesses s' = ffmpegProcesses s.
Proof.
  intros Hp Hr He. cbn. unfold proc_error. rewrite Hp, Hr, He. cbn.
  repeat split. apply length_alter.
Qed.

(** An [error] event of a command with a listener is contained. *)
Lemma handled_encoder_error_is_contained (pid : nat) (p : Proc) (h : ErrorHandler)
    (message : jsstring) (s : State) :
  procs s !! pid = Some p -> p_on_error p = Some h ->
  crashed (proc_error pid message s) = crashed s.
Proof.
  intros Hp He. unfold proc_error. rewrite Hp.
  destruct (p_running p); [|reflexivity]. rewrite He. unfold run_error_handler.
  destruct h as [key i r o|key req].
  - cbn. destruct (bool_decide _); reflexivity.
  - unfold timelapse_callback.
    destruct (decide (message = IN_PROGRESS)); reflexivity.
Qed.


(** ** Invariants of the registries *)

Lemma sink_inv_empty : sink_inv_of ∅ [].
Proof. intros key info H. rewrite lookup_empty in H. discriminate. Qed.

(** A session is opened with a new write stream. *)
Lemma sink_inv_open (sessions : gmap (list N) StreamInfo) (ws : list WriteStream)
    (key : jsstring) (info : StreamInfo) (w : WriteStream) :
  sink_inv_of sessions ws ->
  si_writeStream info = length ws -> ws_ended w = false ->
  sink_inv_of (<[key := info]> sessions) (ws ++ [w]).
Proof.
  intros Hinv Hid Hopen k i Hk.
  assert (Hold : forall k' i', sessions !! k' = Some i' -> si_writeStream i' < length ws).
  { intros k' i' H. destruct (Hinv k' i' H) as [(w' & Hw' & _) _].
    now apply lookup_lt_Some in Hw'. }
  destruct (decide (key = k)) as [<-|Hne].
  - rewrite lookup_insert_eq in Hk. injection Hk as <-. split.
    + exists w. split; [|exact Hopen]. rewrite Hid. now apply list_lookup_middle.
    + intros k' i' Hk' Hsame. destruct (decide (key = k')) as [|Hne']; [congruence|].
      rewrite lookup_insert_ne in Hk' by done. apply Hold in Hk'. lia.
  - rewrite lookup_insert_ne in Hk by done.
    destruct (Hinv k i Hk) as [(w' & Hw' & Hopen') Hinj]. split.
    + exists w'. split; [|exact Hopen'].
      rewrite lookup_app_l; [exact Hw'|]. now apply lookup_lt_Some in Hw'.
    + intros k' i' Hk' Hsame. destruct (decide (key = k')) as [<-|Hne'].
      * rewrite lookup_insert_eq in Hk'. injection Hk' as <-.
        apply Hold in Hk. lia.
      * rewrite lookup_insert_ne in Hk' by done. now apply (Hinj k' i').
Qed.

(** A write to an open stream. *)
Lemma sink_inv_write (sessions : gmap (list N) StreamInfo) (ws : list WriteStream)
    (id : nat) (w : WriteStream) :
  sink_inv_of sessions ws -> ws_ended w = false ->
  sink_inv_of sessions (<[id := w]> ws).
Proof.
  intros Hinv Hopen k i Hk. destruct (Hinv k i Hk) as [(w' & Hw' & Hopen') Hinj].
  split; [|exact Hinj].
  destruct (decide (id = si_writeStream i)) as [->|Hne].
  - exists w. split; [|exact Hopen].
    apply list_lookup_insert_eq. now apply lookup_lt_Some in Hw'.
  - exists w'. split; [|exact Hopen']. now rewrite list_lookup_insert_ne.
Qed.

(** A session is closed: its stream is ended and its entry deleted. *)
Lemma sink_inv_close (sessions : gmap (list N) StreamInfo) (ws : list WriteStream)
    (key : jsstring) (info : StreamInfo) :
  sink_inv_of sessions ws -> sessions !! key = Some info ->
  sink_inv_of (delete key sessions) (alter end_stream (si_writeStream info) ws).
Proof.
  intros Hinv Hreg k i Hk. apply lookup_delete_Some in Hk as [Hne Hk].
  destruct (Hinv k i Hk) as [(w' & Hw' & Hopen') Hinj]. split.
  - exists w'. split; [|exact Hopen'].
    rewrite list_lookup_alter_ne; [exact Hw'|].
    intros Hsame. apply Hne. now apply (Hinj key info).
  - intros k' i' Hk' Hsame. apply lookup_delete_Some in Hk' as [_ Hk'].
    now apply (Hinj k' i').
Qed.

Lemma sink_inv_delete_absent (sessions : gmap (list N) StreamInfo) (ws : list WriteStream)
    (key : jsstring) :
  sink_inv_of sessions ws -> sessions !! key = None ->
  sink_inv_of (delete key sessions) ws.
Proof. intros Hinv Hnone. now rewrite delete_id. Qed.

Lemma sink_inv_ws_write (id : nat) (buf : list N) (s : State) :
  sink_inv s -> sink_inv (ws_write id buf s).
Proof.
  intros H. unfold ws_write. destruct (wstreams s !! id) as [w|]; [|exact H].
  destruct (ws_ended w); [exact H|]. now apply sink_inv_write.
Qed.

Lemma timelapse_callback_state (req : Request) (err : option jsstring)
    (playlistPath : jsstring) (s : State) :
  activeStreams (timelapse_callback req err playlistPath s) = activeStreams s
  /\ wstreams (timelapse_callback req err playlistPath s) = wstreams s
  /\ ffmpegProcesses (timelapse_callback req err playlistPath s) = ffmpegProcesses s
  /\ files (timelapse_callback req err playlistPath s) = files s
  /\ timers (timelapse_callback req err playlistPath s) = timers s.
Proof.
  unfold timelapse_callback. destruct err as [message|].
  - destruct (decide (message = IN_PROGRESS)); repeat split; reflexivity.
  - destruct (files s !! playlistPath); repeat split; reflexivity.
Qed.

Lemma sink_inv_same (s s' : State) :
  activeStreams s' = activeStreams s -> wstreams s' = wstreams s ->
  sink_inv s -> sink_inv s'.
Proof. unfold sink_inv. now intros -> ->. Qed.

(** The registry and the write streams after a stop. *)
Lemma on_stop_stream_sessions (sid userId challengeNum : jsstring) (s : State) :
  activeStreams (on_stop_stream sid userId challengeNum s)
  = delete (getStreamKey userId challengeNum) (activeStreams s)
  /\ wstreams (on_stop_stream sid userId challengeNum s)
     = match activeStreams s !! getStreamKey userId challengeNum with
       | Some info => alter end_stream (si_writeStream info) (wstreams s)
       | None => wstreams s
       end.
Proof.
  unfold on_stop_stream. cbn [emit activeStreams].
  destruct (activeStreams s !! getStreamKey userId challengeNum); cbn;
    destruct (ffmpegProcesses s !! getStreamKey userId challengeNum); split; reflexivity.
Qed.

(** The registry and the write streams after one turn of the disconnect
    loop. *)
Lemma teardown_sessions (sid : jsstring) (key : jsstring) (info : StreamInfo) (s : State) :
  activeStreams (teardown sid (key, info) s)
  = (if decide (si_socketId info = sid) then delete key (activeStreams s)
     else activeStreams s)
  /\ wstreams (teardown sid (key, info) s)
     = (if decide (si_socketId info = sid)
        then alter end_stream (si_writeStream info) (wstreams s)
        else wstreams s).
Proof.
  unfold teardown. destruct (decide (si_socketId info = sid)); [|split; reflexivity].
  cbn. destruct (ffmpegProcesses s !! key); split; reflexivity.
Qed.

(** A property kept by every turn of the disconnect loop, on an entry that
    is still registered, is kept by the whole loop. *)
Lemma fold_teardown_invariant (P : State -> Prop) (sid : jsstring) :
  (forall st key info,
     P st -> activeStreams st !! key = Some info -> P (teardown sid (key, info) st)) ->
  forall (l : list (list N * StreamInfo)) (st : State),
    NoDup (l.*1) ->
    (forall key info, (key, info) ∈ l -> activeStreams st !! key = Some info) ->
    P st ->
    P (fold_left (fun st e => teardown sid e st) l st).
Proof.
  intros Hstep. induction l as [|[k0 i0] l IH]; intros st Hnd Hreg HP; [exact HP|].
  cbn [fold_left]. cbn in Hnd. apply NoDup_cons in Hnd as [Hk0 Hnd].
  apply IH; [exact Hnd| |].
  - intros key info Hin.
    assert (Hne : k0 <> key).
    { intros <-. apply Hk0. apply list_elem_of_fmap. exists (k0, info). auto. }
    rewrite (proj1 (teardown_sessions sid k0 i0 st)).
    destruct (decide (si_socketId i0 = sid)).
    + rewrite lookup_delete_ne by exact Hne. apply Hreg. now right.
    + apply Hreg. now right.
  - apply Hstep; [exact HP|]. apply Hreg. now left.
Qed.

Lemma on_disconnect_invariant (P : State -> Prop) (sid : jsstring) (s : State) :
  (forall st key info,
     P st -> activeStreams st !! key = Some info -> P (teardown sid (key, info) st)) ->
  (forall st o, P st -> P (emit o st)) ->
  (forall st f, P st -> P (with_rooms f st)) ->
  P s -> P (on_disconnect sid s).
Proof.
  intros Hstep Hemit Hrooms HP. unfold on_disconnect. apply Hrooms.
  apply fold_teardown_invariant.
  - exact Hstep.
  - apply NoDup_fst_map_to_list.
  - intros key info Hin. now apply elem_of_map_to_list.
  - now apply Hemit.
Qed.

Lemma sink_inv_teardown (sid key : jsstring) (info : StreamInfo) (s : State) :
  sink_inv s -> activeStreams s !! key = Some info ->
  sink_inv (teardown sid (key, info) s).
Proof.
  intros H Hreg. unfold sink_inv.
  destruct (teardown_sessions sid key info s) as [-> ->].
  destruct (decide (si_socketId info = sid)); [|exact H].
  now apply sink_inv_close.
Qed.

Lemma sink_inv_dispatch (e : Event) (s : State) :
  sink_inv s -> sink_inv (dispatch e s).
Proof.
  intros H. destruct e; cbn [dispatch].
  - exact H.
  - refine (sink_inv_open _ _ _ _ _ H _ _); reflexivity.
  - unfold on_stream_chunk. destruct (activeStreams s !! _); [|exact H].
    now apply sink_inv_ws_write.
  - unfold sink_inv.
    destruct (on_stop_stream_sessions socketId userId challengeNum s) as [-> ->].
    destruct (activeStreams s !! getStreamKey userId challengeNum) as [info|] eqn:E.
    + now apply sink_inv_close.
    + now apply sink_inv_delete_absent.
  - apply on_disconnect_invariant; [|intros; assumption..|exact H].
    intros st key info. apply sink_inv_teardown.
  - unfold route_watch. destruct (negb _); exact H.
  - unfold route_timelapse. destruct (negb _); [exact H|].
    destruct (existsSync _ _); [exact H|].
    unfold generateTimelapse.
    destruct (negb _); [|destruct (_ && _); [|destruct (bool_decide _); [|exact H]]];
      (eapply sink_inv_same; [| |exact H]; apply timelapse_callback_state).
  - exact H.
  - unfold fire_timer. destruct (timers s !! timer) as [t|]; [|exact H].
    destruct (t_pending t); [|exact H].
    unfold run_timer. destruct (t_action t); [exact H|].
    destruct (bool_decide _); exact H.
  - unfold proc_error. destruct (procs s !! pid) as [p|]; [|exact H].
    destruct (p_running p); [|exact H]. unfold run_error_handler.
    destruct (p_on_error p) as [[key i r o|key req]|]; [| |exact H].
    + cbn. destruct (bool_decide _); exact H.
    + eapply sink_inv_same; [| |exact H];
        [rewrite (proj1 (timelapse_callback_state _ _ _ _))
        |rewrite (proj1 (proj2 (timelapse_callback_state _ _ _ _)))]; reflexivity.
  - unfold proc_end. destruct (procs s !! pid) as [p|]; [|exact H].
    destruct (p_running p); [|exact H]. unfold run_end_handler.
    destruct (p_on_end p) as [[key|key pl req]|]; [exact H| |exact H].
    eapply sink_inv_same; [| |exact H];
      [rewrite (proj1 (timelapse_callback_state _ _ _ _))
      |rewrite (proj1 (proj2 (timelapse_callback_state _ _ _ _)))]; reflexivity.
  - unfold encoder_output. destruct (procs s !! pid) as [p|]; [|exact H].
    destruct (p_running p); exact H.
  - exact H.
  - exact H.
  - exact H.
  - unfold on_stream_chunk_bytes. destruct (activeStreams s !! _); [|exact H].
    now apply sink_inv_ws_write.
  - unfold on_stream_chunk_invalid. destruct (activeStreams s !! _); exact H.
  - unfold ws_error. destruct (wstreams s !! _); exact H.
Qed.


Lemma encoder_inv_empty : encoder_inv_of ∅ [].
Proof.
  split.
  - intros key pid H. rewrite lookup_empty in H. discriminate.
  - intros pid p key H. discriminate.
Qed.

Lemma timelapse_key_add_signal (signal : jsstring) (p : Proc) :
  timelapse_key (add_signal signal p) = timelapse_key p.
Proof. unfold add_signal. now destruct (p_running p). Qed.

(** A registered encoder is signalled and unregistered. *)
Lemma encoder_inv_kill (registered : gmap (list N) nat) (ps : list Proc)
    (key : jsstring) (pid : nat) (signal : jsstring) :
  encoder_inv_of registered ps -> registered !! key = Some pid ->
  encoder_inv_of (delete key registered) (alter (add_signal signal) pid ps).
Proof.
  intros [Hreg Hsig] Hk. destruct (Hreg key pid Hk) as (p0 & Hp0 & Hk0). split.
  - intros k i Hi. apply lookup_delete_Some in Hi as [_ Hi].
    destruct (Hreg k i Hi) as (p & Hp & Hkp).
    destruct (decide (pid = i)) as [<-|Hne].
    + exists (add_signal signal p). rewrite list_lookup_alter_eq, Hp.
      split; [reflexivity|]. now rewrite timelapse_key_add_signal.
    + exists p. now rewrite list_lookup_alter_ne.
  - intros i p k Hp Hkp. destruct (decide (pid = i)) as [<-|Hne].
    + rewrite list_lookup_alter_eq, Hp0 in Hp. injection Hp as <-.
      rewrite timelapse_key_add_signal in Hkp. congruence.
    + rewrite list_lookup_alter_ne in Hp by done. exact (Hsig i p k Hp Hkp).
Qed.

(** A command of the live path is started and registered. *)
Lemma encoder_inv_spawn_live (registered : gmap (list N) nat) (ps : list Proc)
    (key : jsstring) (p : Proc) :
  encoder_inv_of registered ps -> timelapse_key p = None ->
  encoder_inv_of (<[key := length ps]> registered) (ps ++ [p]).
Proof.
  intros [Hreg Hsig] Hk. split.
  - intros k i Hi. destruct (decide (key = k)) as [<-|Hne].
    + rewrite lookup_insert_eq in Hi. injection Hi as <-.
      exists p. split; [now apply list_lookup_middle|exact Hk].
    + rewrite lookup_insert_ne in Hi by done.
      destruct (Hreg k i Hi) as (q & Hq & Hkq). exists q. split; [|exact Hkq].
      rewrite lookup_app_l; [exact Hq|]. now apply lookup_lt_Some in Hq.
  - intros i q k Hq Hkq. apply lookup_snoc_Some in Hq as [[_ Hq]|[_ ->]]; [|congruence].
    exact (Hsig i q k Hq Hkq).
Qed.

(** A command that has been sent no signal is started and not registered. *)
Lemma encoder_inv_spawn_unregistered (registered : gmap (list N) nat) (ps : list Proc)
    (p : Proc) :
  encoder_inv_of registered ps -> p_signals p = [] ->
  encoder_inv_of registered (ps ++ [p]).
Proof.
  intros [Hreg Hsig] Hp. split.
  - intros k i Hi. destruct (Hreg k i Hi) as (q & Hq & Hkq). exists q. split; [|exact Hkq].
    rewrite lookup_app_l; [exact Hq|]. now apply lookup_lt_Some in Hq.
  - intros i q k Hq Hkq. apply lookup_snoc_Some in Hq as [[_ Hq]|[_ ->]]; [|exact Hp].
    exact (Hsig i q k Hq Hkq).
Qed.

Lemma encoder_inv_exit (registered : gmap (list N) nat) (ps : list Proc) (pid : nat) :
  encoder_inv_of registered ps -> encoder_inv_of registered (alter set_exited pid ps).
Proof.
  intros [Hreg Hsig]. split.
  - intros k i Hi. destruct (Hreg k i Hi) as (q & Hq & Hkq).
    destruct (decide (pid = i)) as [<-|Hne].
    + exists (set_exited q). now rewrite list_lookup_alter_eq, Hq.
    + exists q. now rewrite list_lookup_alter_ne.
  - intros i q k Hq Hkq. destruct (decide (pid = i)) as [<-|Hne].
    + rewrite list_lookup_alter_eq in Hq.
      destruct (ps !! pid) as [q0|] eqn:Hq0; [|discriminate]. injection Hq as <-.
      exact (Hsig pid q0 k Hq0 Hkq).
    + rewrite list_lookup_alter_ne in Hq by done. exact (Hsig i q k Hq Hkq).
Qed.

Lemma encoder_inv_same (s s' : State) :
  ffmpegProcesses s' = ffmpegProcesses s -> procs s' = procs s ->
  encoder_inv s -> encoder_inv s'.
Proof. unfold encoder_inv. now intros -> ->. Qed.

Lemma encoder_inv_stop_encoder (key : jsstring) (s : State) :
  encoder_inv s ->
  encoder_inv
    match ffmpegProcesses s !! key with
    | Some pid => with_ffmpegProcesses (delete key) (kill pid (js "SIGTERM") s)
    | None => s
    end.
Proof.
  intros H. destruct (ffmpegProcesses s !! key) as [pid|] eqn:E; [|exact H].
  now apply encoder_inv_kill.
Qed.

Lemma encoder_inv_teardown (sid : jsstring) (e : list N * StreamInfo) (s : State) :
  encoder_inv s -> encoder_inv (teardown sid e s).
Proof.
  intros H. destruct e as [key info]. unfold teardown.
  destruct (decide (si_socketId info = sid)); [|exact H].
  apply (encoder_inv_stop_encoder key (ws_end (si_writeStream info) s) H).
Qed.

Lemma encoder_inv_dispatch (e : Event) (s : State) :
  encoder_inv s -> encoder_inv (dispatch e s).
Proof.
  intros H. destruct e; cbn [dispatch].
  - exact H.
  - exact H.
  - unfold on_stream_chunk. destruct (activeStreams s !! _); [|exact H].
    unfold ws_write. destruct (wstreams s !! _) as [w|]; [|exact H].
    destruct (ws_ended w); exact H.
  - unfold on_stop_stream.
    set (s1 := match activeStreams _ !! _ with Some _ => _ | None => _ end).
    assert (H1 : encoder_inv s1).
    { subst s1. cbn. destruct (activeStreams s !! _); exact H. }
    exact (encoder_inv_stop_encoder (getStreamKey userId challengeNum) s1 H1).
  - apply on_disconnect_invariant; [|intros; assumption..|exact H].
    intros st key info Hst _. now apply encoder_inv_teardown.
  - unfold route_watch. destruct (negb _); exact H.
  - unfold route_timelapse. destruct (negb _); [exact H|].
    destruct (existsSync _ _); [exact H|].
    unfold generateTimelapse.
    destruct (negb _); [|destruct (_ && _); [|destruct (bool_decide _)]].
    1-3: (eapply encoder_inv_same; [| |exact H];
          [rewrite (proj1 (proj2 (proj2 (timelapse_callback_state _ _ _ _))))
          |rewrite (proj1 (timelapse_callback_frame _ _ _ _))]; reflexivity).
    now apply (encoder_inv_spawn_unregistered _ _ _ H).
  - exact H.
  - unfold fire_timer. destruct (timers s !! timer) as [t|]; [|exact H].
    destruct (t_pending t); [|exact H].
    unfold run_timer. destruct (t_action t) as [key i r o|key i r o].
    + now apply (encoder_inv_spawn_live _ _ key (liveCommand key i r o) H).
    + destruct (bool_decide _); [|exact H].
      now apply (encoder_inv_spawn_live _ _ key (retryCommand i r o) H).
  - unfold proc_error. destruct (procs s !! pid) as [p|]; [|exact H].
    destruct (p_running p); [|exact H].
    pose proof (encoder_inv_exit _ _ pid H) as H'. unfold run_error_handler.
    destruct (p_on_error p) as [[key i r o|key req]|]; [| |exact H'].
    + cbn. destruct (bool_decide _); exact H'.
    + apply (encoder_inv_same (mark_exited pid s)); [| |exact H'];
        [rewrite (proj1 (proj2 (proj2 (timelapse_callback_state _ _ _ _))))
        |rewrite (proj1 (timelapse_callback_frame _ _ _ _))]; reflexivity.
  - unfold proc_end. destruct (procs s !! pid) as [p|]; [|exact H].
    destruct (p_running p); [|exact H].
    pose proof (encoder_inv_exit _ _ pid H) as H'. unfold run_end_handler.
    destruct (p_on_end p) as [[key|key pl req]|]; [exact H'| |exact H'].
    apply (encoder_inv_same (mark_exited pid s)); [| |exact H'];
      [rewrite (proj1 (proj2 (proj2 (timelapse_callback_state _ _ _ _))))
      |rewrite (proj1 (timelapse_callback_frame _ _ _ _))]; reflexivity.
  - unfold encoder_output. destruct (procs s !! pid) as [p|]; [|exact H].
    destruct (p_running p); exact H.
  - exact H.
  - exact H.
  - exact H.
  - unfold on_stream_chunk_bytes. destruct (activeStreams s !! _); [|exact H].
    unfold ws_write. destruct (wstreams s !! _) as [w|]; [|exact H].
    destruct (ws_ended w); exact H.
  - unfold on_stream_chunk_invalid. destruct (activeStreams s !! _); exact H.
  - unfold ws_error. destruct (wstreams s !! _); exact H.
Qed.

Lemma encoder_inv_reachable (disk : gmap (list N) File) (t0 : Z) (evs : list Event) :
  encoder_inv (run evs (init_state disk t0)).
Proof.
  assert (Hgen : forall evs s, encoder_inv s -> encoder_inv (run evs s)).
  { clear evs. induction evs as [|e evs IH]; intros s H; cbn; [exact H|].
    apply IH. unfold handle. destruct (crashed s); [exact H|].
    now apply encoder_inv_dispatch. }
  apply Hgen. exact encoder_inv_empty.
Qed.

Lemma fire_timer_frame (tid : nat) (s : State) :
  activeStreams (fire_timer tid s) = activeStreams s
  /\ wstreams (fire_timer tid s) = wstreams s
  /\ files (fire_timer tid s) = files s
  /\ timelapseProcesses (fire_timer tid s) = timelapseProcesses s
  /\ rooms (fire_timer tid s) = rooms s
  /\ now (fire_timer tid s) = now s
  /\ crashed (fire_timer tid s) = crashed s.
Proof.
  unfold fire_timer. destruct (timers s !! tid) as [t|]; [|repeat split; reflexivity].
  destruct (t_pending t); [|repeat split; reflexivity].
  unfold run_timer. destruct (t_action t) as [key i r o|key i r o].
  - repeat split; reflexivity.
  - destruct (bool_decide _); repeat split; reflexivity.
Qed.

(** ** What holds in every state the server reaches *)


(** X2: In every state the server reaches, the encoders registered for stopping
    are commands of the live path, and no timelapse command has been sent a
    signal: stopping a session or losing a socket never kills a timelapse
    computation. *)
Theorem timelapse_job_never_signalled
    (disk : gmap (list N) File) (t0 : Z) (evs : list Event)
    (pid : nat) (p : Proc) (key : jsstring) :
  let s := run evs (init_state disk t0) in
  procs s !! pid = Some p ->
  timelapse_key p = Some key ->
  p_signals p = []
  /\ forall k, ffmpegProcesses s !! k <> Some pid.
Proof.
  intros s Hp Hk. pose proof (encoder_inv_reachable disk t0 evs) as [Hreg Hsig].
  fold s in Hreg, Hsig. split; [exact (Hsig pid p key Hp Hk)|].
  intros k Hreg'. destruct (Hreg k pid Hreg') as (q & Hq & Hkq). congruence.
Qed.



Lemma crashed_teardown (sid : jsstring) (e : list N * StreamInfo) (s : State) :
  crashed (teardown sid e s) = crashed s.
Proof.
  destruct e as [key info]. unfold teardown.
  destruct (decide (si_socketId info = sid)); [|reflexivity].
  cbn. destruct (ffmpegProcesses s !! key); reflexivity.
Qed.

Lemma crashed_on_disconnect (sid : jsstring) (s : State) :
  crashed (on_disconnect sid s) = crashed s.
Proof.
  apply (on_disconnect_invariant (fun st => crashed st = crashed s)).
  - intros st key info H _. now rewrite crashed_teardown.
  - intros st o H. exact H.
  - intros st f H. exact H.
  - reflexivity.
Qed.



(** ** Session lifecycle *)

(** Everything [start-stream] does to the state. *)
Lemma on_start_stream_state (sid userId challengeNum : jsstring) (s : State) :
  let s' := on_start_stream sid userId challengeNum s in
  activeStreams s'
    = <[getStreamKey userId challengeNum := new_session sid userId challengeNum s]>
        (activeStreams s)
  /\ wstreams s' = wstreams s ++ [new_sink userId challengeNum]
  /\ files s'
     = <[inputFileOf userId challengeNum := {| f_content := []; f_mtime := now s |}]>
         (files s)
  /\ timers s' = timers s ++ [warmup_timer userId challengeNum]
  /\ ffmpegProcesses s' = ffmpegProcesses s
  /\ timelapseProcesses s' = timelapseProcesses s
  /\ procs s' = procs s
  /\ crashed s' = crashed s
  /\ out s' = out s ++ [ConsoleLog (js "Starting stream: " ++ getStreamKey userId challengeNum);
                        SocketEmit sid (js "stream-ready")
                          (Some (getStreamKey userId challengeNum))].
Proof.
  cbn zeta. repeat split; try reflexivity.
  unfold on_start_stream. cbn. now rewrite <- app_assoc.
Qed.

Lemma on_stop_stream_state (sid userId challengeNum : jsstring) (s : State) :
  let key := getStreamKey userId challengeNum in
  let s' := on_stop_stream sid userId challengeNum s in
  ffmpegProcesses s' = delete key (ffmpegProcesses s)
  /\ procs s' = match ffmpegProcesses s !! key with
                | Some pid => alter (add_signal (js "SIGTERM")) pid (procs s)
                | None => procs s
                end
  /\ timers s' = timers s
  /\ timelapseProcesses s' = timelapseProcesses s
  /\ crashed s' = crashed s
  /\ out s' = out s ++ [ConsoleLog (js "Stopping stream: " ++ key);
                        SocketEmit sid (js "stream-stopped") None].
Proof.
  cbn zeta. unfold on_stop_stream. cbn [emit activeStreams].
  destruct (activeStreams s !! getStreamKey userId challengeNum); cbn;
    destruct (ffmpegProcesses s !! getStreamKey userId challengeNum) eqn:E; cbn;
    rewrite <- ?app_assoc; repeat split; try reflexivity; now rewrite delete_id.
Qed.

(** X4: The health route reports the number of registered keys: a start adds
    one when the key is new and none when it is taken, a stop takes one
    away when the key is registered and none otherwise, a chunk changes
    nothing. *)
Theorem session_count_reported
    (sid userId challengeNum chunk : jsstring) (reqId : nat) (s : State) :
  let registered := bool_decide (is_Some (activeStreams s !! getStreamKey userId challengeNum)) in
  out (route_health reqId s)
    = out s ++ [HttpSend reqId (RespHealth (size (activeStreams s)))]
  /\ size (activeStreams (on_start_stream sid userId challengeNum s))
     = (if registered then size (activeStreams s) else S (size (activeStreams s)))
  /\ size (activeStreams (on_stop_stream sid userId challengeNum s))
     = (if registered then pred (size (activeStreams s)) else size (activeStreams s))
  /\ size (activeStreams (on_stream_chunk sid userId challengeNum chunk s))
     = size (activeStreams s).
Proof.
  cbn zeta. split; [reflexivity|]. split; [|split].
  - rewrite (proj1 (on_start_stream_state sid userId challengeNum s)).
    rewrite map_size_insert.
    destruct (activeStreams s !! getStreamKey userId challengeNum) eqn:E.
    + now rewrite bool_decide_eq_true_2 by eauto.
    + now rewrite bool_decide_eq_false_2 by (intros [? ?]; discriminate).
  - rewrite (proj1 (on_stop_stream_sessions sid userId challengeNum s)).
    rewrite map_size_delete.
    destruct (activeStreams s !! getStreamKey userId challengeNum) eqn:E.
    + now rewrite bool_decide_eq_true_2 by eauto.
    + now rewrite bool_decide_eq_false_2 by (intros [? ?]; discriminate).
  - unfold on_stream_chunk.
    destruct (activeStreams s !! getStreamKey userId challengeNum); [|reflexivity].
    unfold ws_write. destruct (wstreams s !! _) as [w|]; [|reflexivity].
    destruct (ws_ended w); reflexivity.
Qed.

(** X5: A start under a key that is registered replaces the entry without
    closing anything: the input file is emptied, the session count stays,
    the earlier write stream is left as it was, and the chunks and the stop
    that follow go to the new stream only; the encoder table is not
    touched. *)
Theorem start_stream_replaces_session
    (sid userId challengeNum : jsstring) (s : State) (old : StreamInfo) (w : WriteStream) :
  activeStreams s !! getStreamKey userId challengeNum = Some old ->
  wstreams s !! si_writeStream old = Some w ->
  let key := getStreamKey userId challengeNum in
  let s' := on_start_stream sid userId challengeNum s in
  activeStreams s' !! key = Some (new_session sid userId challengeNum s)
  /\ size (activeStreams s') = size (activeStreams s)
  /\ content_of (inputFileOf userId challengeNum) s' = []
  /\ wstreams s' !! si_writeStream old = Some w
  /\ ffmpegProcesses s' = ffmpegProcesses s
  /\ procs s' = procs s
  /\ (forall sid' chunk,
        wstreams (on_stream_chunk sid' userId challengeNum chunk s') !! si_writeStream old
        = Some w)
  /\ (forall sid',
        wstreams (on_stop_stream sid' userId challengeNum s') !! si_writeStream old
        = Some w).
Proof.
  intros Hold Hw key s'.
  destruct (on_start_stream_state sid userId challengeNum s)
    as (Has & Hws & Hfiles & _ & Hfp & _ & Hprocs & _).
  fold s' in Has, Hws, Hfiles, Hfp, Hprocs.
  assert (Hlt : si_writeStream old < length (wstreams s)) by now apply lookup_lt_Some in Hw.
  assert (Hnew : activeStreams s' !! key = Some (new_session sid userId challengeNum s)).
  { rewrite Has. apply lookup_insert_eq. }
  assert (Hkeep : wstreams s' !! si_writeStream old = Some w).
  { rewrite Hws, lookup_app_l by exact Hlt. exact Hw. }
  split; [exact Hnew|]. split.
  { rewrite Has, map_size_insert. unfold key. now rewrite Hold. }
  split.
  { unfold content_of. rewrite Hfiles, lookup_insert_eq. reflexivity. }
  split; [exact Hkeep|]. split; [exact Hfp|]. split; [exact Hprocs|]. split.
  - intros sid' chunk. unfold on_stream_chunk. fold key. rewrite Hnew.
    unfold ws_write. cbn [si_writeStream new_session].
    assert (Hsink : wstreams s' !! length (wstreams s) = Some (new_sink userId challengeNum)).
    { rewrite Hws. now apply list_lookup_middle. }
    rewrite Hsink. cbn [ws_ended new_sink wstreams with_wstreams with_files].
    rewrite list_lookup_insert_ne by lia. exact Hkeep.
  - intros sid'.
    rewrite (proj2 (on_stop_stream_sessions sid' userId challengeNum s')).
    fold key. rewrite Hnew. cbn [si_writeStream new_session].
    rewrite list_lookup_alter_ne by lia. exact Hkeep.
Qed.

(** X6: A stop for a registered key ends the session's write stream, deletes
    the entries of the key in both tables, calls [kill('SIGTERM')] on the
    registered command, writes to no file and cancels no timer; after it
    every chunk for the key is dropped.  The signal is recorded when the
    command's process is there; a command that has exited is left as it
    is. *)
Theorem stop_stream_closes_session
    (sid userId challengeNum : jsstring) (s : State) (info : StreamInfo) :
  activeStreams s !! getStreamKey userId challengeNum = Some info ->
  let key := getStreamKey userId challengeNum in
  let s' := on_stop_stream sid userId challengeNum s in
  activeStreams s' = delete key (activeStreams s)
  /\ wstreams s' = alter end_stream (si_writeStream info) (wstreams s)
  /\ ffmpegProcesses s' = delete key (ffmpegProcesses s)
  /\ procs s' = match ffmpegProcesses s !! key with
                | Some pid => alter (add_signal (js "SIGTERM")) pid (procs s)
                | None => procs s
                end
  /\ files s' = files s
  /\ timers s' = timers s
  /\ crashed s' = crashed s
  /\ out s' = out s ++ [ConsoleLog (js "Stopping stream: " ++ key);
                        SocketEmit sid (js "stream-stopped") None]
  /\ (forall sid' chunk, on_stream_chunk sid' userId challengeNum chunk s' = s')
  /\ (forall pid p,
        ffmpegProcesses s !! key = Some pid -> procs s !! pid = Some p ->
        exists p',
          procs s' !! pid = Some p'
          /\ p_signals p'
             = (if p_running p then p_signals p ++ [js "SIGTERM"] else p_signals p)
          /\ p_running p' = p_running p
          /\ (p_running p = false -> p' = p)).
Proof.
  intros Hreg key s'. subst key s'.
  destruct (on_stop_stream_sessions sid userId challengeNum s) as [Has Hws].
  destruct (on_stop_stream_state sid userId challengeNum s)
    as (Hfp & Hprocs & Htimers & _ & Hcrashed & Hout).
  rewrite Hreg in Hws.
  repeat (split; [assumption|]).
  split; [apply on_stop_stream_files|]. split; [exact Htimers|].
  split; [exact Hcrashed|]. split; [exact Hout|]. split.
  - intros sid' chunk. unfold on_stream_chunk. rewrite Has, lookup_delete_eq.
    reflexivity.
  - intros pid p Hpid Hp. rewrite Hprocs, Hpid.
    destruct (kill_lookup (js "SIGTERM") pid p (procs s) Hp)
      as (p' & Hp' & Hsig & Hrun & _ & _ & Hsame).
    exists p'. auto.
Qed.

Lemma on_stream_chunk_frame (sid userId challengeNum chunk : jsstring) (s : State) :
  activeStreams (on_stream_chunk sid userId challengeNum chunk s) = activeStreams s
  /\ timers (on_stream_chunk sid userId challengeNum chunk s) = timers s
  /\ procs (on_stream_chunk sid userId challengeNum chunk s) = procs s
  /\ ffmpegProcesses (on_stream_chunk sid userId challengeNum chunk s) = ffmpegProcesses s
  /\ timelapseProcesses (on_stream_chunk sid userId challengeNum chunk s)
     = timelapseProcesses s
  /\ out (on_stream_chunk sid userId challengeNum chunk s) = out s.
Proof.
  unfold on_stream_chunk.
  destruct (activeStreams s !! getStreamKey userId challengeNum);
    [|repeat split; reflexivity].
  unfold ws_write. destruct (wstreams s !! _) as [w|]; [|repeat split; reflexivity].
  destruct (ws_ended w); repeat split; reflexivity.
Qed.

Lemma deliver_chunks_frame (userId challengeNum : jsstring)
    (msgs : list (jsstring * jsstring)) (s : State) :
  activeStreams (deliver_chunks userId challengeNum msgs s) = activeStreams s
  /\ timers (deliver_chunks userId challengeNum msgs s) = timers s
  /\ procs (deliver_chunks userId challengeNum msgs s) = procs s
  /\ ffmpegProcesses (deliver_chunks userId challengeNum msgs s) = ffmpegProcesses s
  /\ timelapseProcesses (deliver_chunks userId challengeNum msgs s) = timelapseProcesses s
  /\ out (deliver_chunks userId challengeNum msgs s) = out s.
Proof.
  revert s. induction msgs as [|m msgs IH]; intros s; [repeat split; reflexivity|].
  cbn. destruct (IH (on_stream_chunk m.1 userId challengeNum m.2 s))
    as (H1 & H2 & H3 & H4 & H5 & H6).
  destruct (on_stream_chunk_frame m.1 userId challengeNum m.2 s)
    as (G1 & G2 & G3 & G4 & G5 & G6).
  unfold deliver_chunks in *. rewrite H1, H2, H3, H4, H5, H6. auto 10.
Qed.

(** X7: The warm-up timer that [start-stream] sets is still pending after the
    chunks of the session, and after a stop as well: a stop cancels
    nothing.  When it fires, the live command of the session is started
    and registered under the key, whether the session is still registered
    or not, and a second firing does nothing. *)
Theorem warmup_timer_starts_encoder
    (sid sid' userId challengeNum : jsstring) (msgs : list (jsstring * jsstring))
    (stopped : bool) (s : State) :
  let key := getStreamKey userId challengeNum in
  let tid := length (timers s) in
  let s1 := deliver_chunks userId challengeNum msgs
              (on_start_stream sid userId challengeNum s) in
  let s2 := if stopped then on_stop_stream sid' userId challengeNum s1 else s1 in
  let s3 := fire_timer tid s2 in
  timers s2 !! tid = Some (warmup_timer userId challengeNum)
  /\ WARMUP_DELAY = 2000%Z
  /\ procs s3 = procs s2 ++ [session_encoder userId challengeNum]
  /\ ffmpegProcesses s3 = <[key := length (procs s2)]> (ffmpegProcesses s2)
  /\ activeStreams s3 !! key
     = (if stopped then None else Some (new_session sid userId challengeNum s))
  /\ fire_timer tid s3 = s3.
Proof.
  intros key tid s1 s2 s3.
  destruct (on_start_stream_state sid userId challengeNum s)
    as (Has0 & _ & _ & Htm0 & _).
  destruct (deliver_chunks_frame userId challengeNum msgs
              (on_start_stream sid userId challengeNum s)) as (Has1 & Htm1 & _).
  fold s1 in Has1, Htm1. rewrite Has0 in Has1. rewrite Htm0 in Htm1.
  assert (Htm2 : timers s2 = timers s ++ [warmup_timer userId challengeNum]).
  { subst s2. destruct stopped; [|exact Htm1].
    now rewrite (proj1 (proj2 (proj2 (on_stop_stream_state sid' userId challengeNum s1)))). }
  assert (Has2 : activeStreams s2 !! key
                 = if stopped then None else Some (new_session sid userId challengeNum s)).
  { subst s2. destruct stopped.
    - apply stopped_key_not_registered.
    - rewrite Has1. apply lookup_insert_eq. }
  assert (Hpending : timers s2 !! tid = Some (warmup_timer userId challengeNum)).
  { rewrite Htm2. now apply list_lookup_middle. }
  assert (Hs3 : s3 = with_ffmpegProcesses (insert key (length (procs s2)))
                       (with_procs (fun l => l ++ [session_encoder userId challengeNum])
                          (with_timers (insert tid (fired (warmup_timer userId challengeNum)))
                             s2))).
  { subst s3. unfold fire_timer. rewrite Hpending. reflexivity. }
  split; [exact Hpending|]. split; [reflexivity|].
  rewrite Hs3. split; [reflexivity|]. split; [reflexivity|]. split; [exact Has2|].
  unfold fire_timer. cbn [timers with_ffmpegProcesses with_procs with_timers].
  rewrite list_lookup_insert_eq by (rewrite Htm2, length_app; cbn; lia).
  reflexivity.
Qed.

(** X8: After the live encoder of a session has written its manifest, the
    watch route answers with that manifest rewritten for the request, and
    changes nothing but the output. *)
Theorem watch_serves_live_manifest
    (sid : jsstring) (req : Request) (text : jsstring) (s : State) :
  let userId := req_userId req in
  let challengeNum := req_challengeNum req in
  let s1 := fire_timer (length (timers s)) (on_start_stream sid userId challengeNum s) in
  let s2 := encoder_output (length (procs s)) text s1 in
  let s3 := route_watch req s2 in
  out s3 = out s2 ++
           [HttpSend (req_id req)
              (RespManifest (rewriteManifest LIVE_STEM (requestBaseUrl req) text))]
  /\ activeStreams s3 = activeStreams s2 /\ ffmpegProcesses s3 = ffmpegProcesses s2
  /\ timelapseProcesses s3 = timelapseProcesses s2 /\ files s3 = files s2
  /\ wstreams s3 = wstreams s2 /\ procs s3 = procs s2 /\ timers s3 = timers s2
  /\ crashed s3 = crashed s2.
Proof.
  intros userId challengeNum s1 s2 s3.
  assert (Hs1 : procs s1 = procs s ++ [session_encoder userId challengeNum]).
  { subst s1. unfold fire_timer.
    rewrite (proj1 (proj2 (proj2 (proj2 (on_start_stream_state sid userId challengeNum s))))).
    rewrite list_lookup_middle by reflexivity. reflexivity. }
  assert (Hs2 : files s2
                = <[path_join (getRecordingPath userId challengeNum) (js "playlist.m3u8")
                    := {| f_content := text; f_mtime := now s1 |}]> (files s1)).
  { subst s2. unfold encoder_output. rewrite Hs1, list_lookup_middle by reflexivity.
    reflexivity. }
  assert (Hex : existsSync (path_join (getRecordingPath userId challengeNum)
                              (js "playlist.m3u8")) s2 = true).
  { unfold existsSync. rewrite Hs2, lookup_insert_eq. now apply bool_decide_eq_true_2. }
  assert (Hct : content_of (path_join (getRecordingPath userId challengeNum)
                              (js "playlist.m3u8")) s2 = text).
  { unfold content_of. now rewrite Hs2, lookup_insert_eq. }
  subst s3. unfold route_watch. fold userId challengeNum.
  rewrite Hex, Hct. cbn [negb].
  repeat split; reflexivity.
Qed.

(** ** Timelapse job, from request to answer *)



(** X10: The timelapse route answers not found exactly when the recording is
    missing, and then it starts nothing; once the recording is there the
    route's one output is a 200, a 202 or the log line of a started
    computation, never a 404. *)
Theorem timelapse_not_found_iff_source_missing (req : Request) (s : State) :
  let userId := req_userId req in
  let challengeNum := req_challengeNum req in
  let s' := route_timelapse req s in
  exists o,
    out s' = out s ++ [o]
    /\ if existsSync (inputFileOf userId challengeNum) s
       then forall id r, o = HttpSend id r -> status_of r = 200 \/ status_of r = 202
       else o = HttpSend (req_id req) (RespNotFound userId challengeNum)
            /\ procs s' = procs s
            /\ timelapseProcesses s' = timelapseProcesses s.
Proof.
  intros userId challengeNum s'. subst s'.
  unfold route_timelapse, inputFileOf. fold userId challengeNum.
  destruct (existsSync (path_join (getRecordingPath userId challengeNum) (js "input.webm")) s)
    eqn:Hin; cbn [negb]; [|eexists; split; [reflexivity|auto]].
  destruct (existsSync (path_join (getRecordingPath userId challengeNum) (js "timelapse.m3u8")) s)
    eqn:Hpl.
  { eexists. split; [reflexivity|]. intros id r [= _ <-]. now left. }
  unfold generateTimelapse. rewrite Hin, Hpl. cbn [negb andb].
  destruct (bool_decide _).
  - unfold timelapse_callback. destruct (decide (IN_PROGRESS = IN_PROGRESS)); [|contradiction].
    eexists. split; [reflexivity|]. intros id r [= _ <-]. now right.
  - eexists. split; [reflexivity|]. intros id r H. discriminate.
Qed.

(** ** Disconnect *)

Lemma teardown_state (sid key : jsstring) (info : StreamInfo) (s : State) :
  ffmpegProcesses (teardown sid (key, info) s)
  = (if decide (si_socketId info = sid) then delete key (ffmpegProcesses s)
     else ffmpegProcesses s)
  /\ files (teardown sid (key, info) s) = files s
  /\ timers (teardown sid (key, info) s) = timers s
  /\ timelapseProcesses (teardown sid (key, info) s) = timelapseProcesses s
  /\ out (teardown sid (key, info) s) = out s
  /\ length (procs (teardown sid (key, info) s)) = length (procs s).
Proof.
  unfold teardown. destruct (decide (si_socketId info = sid)); [|repeat split; reflexivity].
  cbn. destruct (ffmpegProcesses s !! key) eqn:E; cbn; repeat split; try reflexivity.
  - apply length_alter.
  - now rewrite delete_id.
Qed.

Lemma end_stream_idempotent (w : WriteStream) : end_stream (end_stream w) = end_stream w.
Proof. reflexivity. Qed.

(** What the disconnect loop keeps, turn by turn, relative to the state
    [s0] it started from. *)
Lemma fold_teardown_relation (sid : jsstring) (s0 : State) :
  let P st :=
    (forall k i, activeStreams st !! k = Some i -> activeStreams s0 !! k = Some i)
    /\ (forall k, (forall i, activeStreams s0 !! k = Some i -> si_socketId i <> sid) ->
          activeStreams st !! k = activeStreams s0 !! k
          /\ ffmpegProcesses st !! k = ffmpegProcesses s0 !! k)
    /\ (forall id w, wstreams s0 !! id = Some w ->
          wstreams st !! id = Some w \/ wstreams st !! id = Some (end_stream w))
    /\ (forall k i, activeStreams s0 !! k = Some i -> si_socketId i = sid ->
          activeStreams st !! k = Some i
          \/ (ffmpegProcesses st !! k = None
              /\ forall w, wstreams s0 !! si_writeStream i = Some w ->
                   wstreams st !! si_writeStream i = Some (end_stream w)))
    /\ files st = files s0 /\ timers st = timers s0
    /\ timelapseProcesses st = timelapseProcesses s0
    /\ length (procs st) = length (procs s0)
    /\ length (wstreams st) = length (wstreams s0) in
  forall st key info,
    P st -> activeStreams st !! key = Some info -> P (teardown sid (key, info) st).
Proof.
  intros P st key info (Hsub & Hother & Hws & Howned & Hf & Ht & Htl & Hlp & Hlw) Hreg.
  destruct (teardown_sessions sid key info st) as [Has' Hws'].
  destruct (teardown_state sid key info st) as (Hfp' & Hf' & Ht' & Htl' & _ & Hlp').
  unfold P. rewrite Has', Hws', Hfp', Hf', Ht', Htl', Hlp'.
  destruct (decide (si_socketId info = sid)) as [Hsid|Hsid];
    [|exact (conj Hsub (conj Hother (conj Hws (conj Howned (conj Hf (conj Ht
               (conj Htl (conj Hlp Hlw))))))))].
  pose proof (Hsub _ _ Hreg) as Hreg0.
  split; [|split; [|split; [|split]]].
  - intros k i Hk. apply lookup_delete_Some in Hk as [_ Hk]. now apply Hsub.
  - intros k Hk. assert (Hne : key <> k).
    { intros <-. exact (Hk info Hreg0 Hsid). }
    rewrite !lookup_delete_ne by exact Hne. now apply Hother.
  - intros id w Hw. destruct (decide (id = si_writeStream info)) as [->|Hne].
    + rewrite list_lookup_alter_eq. destruct (Hws _ _ Hw) as [->| ->]; cbn; auto.
    + rewrite list_lookup_alter_ne by congruence. now apply Hws.
  - intros k i Hk Hsidk. destruct (decide (key = k)) as [<-|Hne].
    + right. split; [apply lookup_delete_eq|].
      assert (i = info) as -> by congruence.
      intros w Hw. rewrite list_lookup_alter_eq.
      destruct (Hws _ _ Hw) as [->| ->]; reflexivity.
    + rewrite !lookup_delete_ne by exact Hne.
      destruct (Howned k i Hk Hsidk) as [H|[Hnone Hended]]; [now left|right].
      split; [exact Hnone|]. intros w Hw. specialize (Hended w Hw).
      destruct (decide (si_writeStream i = si_writeStream info)) as [E|E].
      * rewrite <- E, list_lookup_alter_eq, Hended. reflexivity.
      * rewrite list_lookup_alter_ne by congruence. exact Hended.
  - rewrite length_alter. auto.
Qed.

(** X11: When a socket goes away, every session it owns is taken out of the
    registry, whether there is none, one or many, and the sessions of other
    sockets stay; for each session taken out the write stream is ended and
    the key has no registered encoder left; keys the socket does not own
    keep their encoder entry; no file, timer or timelapse job is touched. *)
Theorem disconnect_tears_down_owned_sessions (sid : jsstring) (s : State) :
  let s' := on_disconnect sid s in
  activeStreams s' = filter (fun e => si_socketId e.2 <> sid) (activeStreams s)
  /\ files s' = files s
  /\ timers s' = timers s
  /\ timelapseProcesses s' = timelapseProcesses s
  /\ crashed s' = crashed s
  /\ (forall key info,
        activeStreams s !! key = Some info -> si_socketId info = sid ->
        ffmpegProcesses s' !! key = None
        /\ forall w, wstreams s !! si_writeStream info = Some w ->
             wstreams s' !! si_writeStream info = Some (end_stream w))
  /\ (forall key,
        (forall info, activeStreams s !! key = Some info -> si_socketId info <> sid) ->
        ffmpegProcesses s' !! key = ffmpegProcesses s !! key).
Proof.
  clear path_join RECORDINGS_DIR base64_decode. intros s'.
  pose proof (on_disconnect_invariant _ sid s (fold_teardown_relation sid s)) as Hrel.
  cbn beta in Hrel.
  destruct Hrel as (Hsub & Hother & Hws & Howned & Hf & Ht & Htl & _).
  { intros st o H. exact H. }
  { intros st f H. exact H. }
  { repeat split; auto. }
  fold s' in Hsub, Hother, Hws, Howned, Hf, Ht, Htl.
  split; [|split; [exact Hf|split; [exact Ht|split; [exact Htl|split;
            [apply crashed_on_disconnect|split]]]]].
  - apply map_eq. intros k. rewrite map_lookup_filter.
    destruct (activeStreams s !! k) as [i|] eqn:Hk; cbn.
    + destruct (decide (si_socketId i = sid)) as [Hsid|Hsid].
      * rewrite option_guard_False by (cbn; tauto).
        now apply (disconnected_key_not_registered sid k i).
      * rewrite option_guard_True by exact Hsid.
        rewrite <- Hk. apply Hother. intros i' Hi'. congruence.
    + rewrite <- Hk. apply Hother. intros i' Hi'. congruence.
  - intros key info Hk Hsid.
    destruct (Howned key info Hk Hsid) as [Hstill|H]; [|exact H].
    unfold s' in Hstill.
    rewrite (disconnected_key_not_registered sid key info s Hk Hsid) in Hstill.
    discriminate.
  - intros key Hkey. now apply Hother.
Qed.

Lemma teardown_procs (sid key : jsstring) (info : StreamInfo) (s : State) :
  procs (teardown sid (key, info) s)
  = if decide (si_socketId info = sid) then
      match ffmpegProcesses s !! key with
      | Some pid => alter (add_signal (js "SIGTERM")) pid (procs s)
      | None => procs s
      end
    else procs s.
Proof.
  unfold teardown. destruct (decide (si_socketId info = sid)); [|reflexivity].
  cbn. destruct (ffmpegProcesses s !! key); reflexivity.
Qed.

(** A signal to one command, seen from any command of the table. *)
Lemma alter_add_signal_lookup (signal : jsstring) (ps : list Proc) (target pid : nat)
    (q : Proc) :
  ps !! pid = Some q ->
  exists q',
    alter (add_signal signal) target ps !! pid = Some q'
    /\ p_running q' = p_running q
    /\ p_on_error q' = p_on_error q
    /\ (forall x, x ∈ p_signals q -> x ∈ p_signals q')
    /\ (target = pid -> p_running q = true -> signal ∈ p_signals q').
Proof.
  intros Hq. destruct (decide (target = pid)) as [->|Hne].
  - exists (add_signal signal q). rewrite list_lookup_alter_eq, Hq.
    split; [reflexivity|]. unfold add_signal.
    destruct (p_running q) eqn:Hr; cbn; rewrite ?Hr.
    + split; [reflexivity|]. split; [reflexivity|]. split.
      * intros x Hx. apply elem_of_app. now left.
      * intros _ _. apply elem_of_app. right. now apply list_elem_of_singleton.
    + split; [reflexivity|]. split; [reflexivity|]. split; [auto|].
      intros _ H. discriminate.
  - exists q. rewrite list_lookup_alter_ne by exact Hne.
    split; [exact Hq|]. split; [reflexivity|]. split; [reflexivity|].
    split; [auto|]. intros H. contradiction.
Qed.

Lemma fold_teardown_signals (sid : jsstring) (s0 : State) (key0 : jsstring)
    (info0 : StreamInfo) (pid0 : nat) (p0 : Proc) :
  activeStreams s0 !! key0 = Some info0 -> si_socketId info0 = sid ->
  ffmpegProcesses s0 !! key0 = Some pid0 -> procs s0 !! pid0 = Some p0 ->
  p_running p0 = true ->
  let P st :=
    (forall pid p, procs s0 !! pid = Some p ->
       exists p', procs st !! pid = Some p' /\ p_running p' = p_running p
                  /\ p_on_error p' = p_on_error p)
    /\ (forall k i, activeStreams st !! k = Some i ->
          activeStreams s0 !! k = Some i
          /\ ffmpegProcesses st !! k = ffmpegProcesses s0 !! k)
    /\ (activeStreams st !! key0 = Some info0
        \/ exists p', procs st !! pid0 = Some p' /\ js "SIGTERM" ∈ p_signals p') in
  forall st key info,
    P st -> activeStreams st !! key = Some info -> P (teardown sid (key, info) st).
Proof.
  intros Hk0 Hsid0 Hfp0 Hp0 Hr0 P st key info (Hprocs & Hreg & Hdone) Hkey.
  unfold P. rewrite teardown_procs.
  destruct (teardown_sessions sid key info st) as [-> _].
  rewrite (proj1 (teardown_state sid key info st)).
  destruct (decide (si_socketId info = sid)) as [Hsid|Hsid];
    [|exact (conj Hprocs (conj Hreg Hdone))].
  destruct (Hreg key info Hkey) as [Hkey0 Hfp].
  split; [|split].
  - intros pid p Hp. destruct (Hprocs pid p Hp) as (p' & Hp' & Hr' & He').
    destruct (ffmpegProcesses st !! key) as [target|]; [|eauto].
    destruct (alter_add_signal_lookup (js "SIGTERM") _ target pid p' Hp')
      as (q & Hq & Hrq & Heq & _).
    exists q. split; [exact Hq|]. split; congruence.
  - intros k i Hk. apply lookup_delete_Some in Hk as [Hne Hk].
    rewrite lookup_delete_ne by exact Hne. now apply Hreg.
  - destruct Hdone as [Hstill|(p' & Hp' & Hsig)].
    + destruct (decide (key = key0)) as [->|Hne].
      * right. rewrite Hfp, Hfp0.
        destruct (Hprocs pid0 p0 Hp0) as (p' & Hp' & Hr' & _).
        destruct (alter_add_signal_lookup (js "SIGTERM") _ pid0 pid0 p' Hp')
          as (q & Hq & _ & _ & _ & Hsig).
        exists q. split; [exact Hq|]. apply Hsig; [reflexivity|congruence].
      * left. now rewrite lookup_delete_ne.
    + right. destruct (ffmpegProcesses st !! key) as [target|]; [|eauto].
      destruct (alter_add_signal_lookup (js "SIGTERM") _ target pid0 p' Hp')
        as (q & Hq & _ & _ & Hmono & _).
      exists q. split; [exact Hq|]. now apply Hmono.
Qed.

(** X12: When a socket goes away, the running encoder registered under the key
    of a session it owns is sent SIGTERM; the command stays in the table
    with its listeners. *)
Theorem disconnect_signals_owned_encoder
    (sid key : jsstring) (info : StreamInfo) (pid : nat) (p : Proc) (s : State) :
  activeStreams s !! key = Some info ->
  si_socketId info = sid ->
  ffmpegProcesses s !! key = Some pid ->
  procs s !! pid = Some p ->
  p_running p = true ->
  exists p',
    procs (on_disconnect sid s) !! pid = Some p'
    /\ js "SIGTERM" ∈ p_signals p'
    /\ p_running p' = true
    /\ p_on_error p' = p_on_error p.
Proof.
  intros Hk Hsid Hfp Hp Hr.
  pose proof (on_disconnect_invariant _ sid s
                (fold_teardown_signals sid s key info pid p Hk Hsid Hfp Hp Hr)) as Hrel.
  cbn beta in Hrel. destruct Hrel as (Hprocs & _ & Hdone).
  { intros st o H. exact H. }
  { intros st f H. exact H. }
  { split; [eauto|]. split; [auto|]. now left. }
  destruct Hdone as [Hstill|(p' & Hp' & Hsig)].
  { rewrite (disconnected_key_not_registered sid key info s Hk Hsid) in Hstill.
    discriminate. }
  destruct (Hprocs pid p Hp) as (q & Hq & Hrq & Heq).
  assert (q = p') as -> by congruence.
  exists p'. split; [exact Hp'|]. split; [exact Hsig|]. split; congruence.
Qed.

(** ** Two starts under one key *)

(** X13: When a key is started twice and both warm-up timers fire, the second
    encoder takes the key's entry and the first one has none: the stop
    that follows signals the second encoder only, and the first keeps
    running with no entry left to reach it. *)
Theorem second_start_orphans_first_encoder
    (sid1 sid2 sid3 userId challengeNum : jsstring) (s : State) :
  let key := getStreamKey userId challengeNum in
  let t1 := length (timers s) in
  let first := length (procs s) in
  let s1 := on_start_stream sid2 userId challengeNum
              (on_start_stream sid1 userId challengeNum s) in
  let s2 := fire_timer (S t1) (fire_timer t1 s1) in
  let s3 := on_stop_stream sid3 userId challengeNum s2 in
  procs s2 = procs s ++ [session_encoder userId challengeNum;
                         session_encoder userId challengeNum]
  /\ ffmpegProcesses s2 !! key = Some (S first)
  /\ procs s3 = procs s ++ [session_encoder userId challengeNum;
                            add_signal (js "SIGTERM") (session_encoder userId challengeNum)]
  /\ ffmpegProcesses s3 !! key = None
  /\ activeStreams s3 !! key = None.
Proof.
  intros key t1 first s1 s2 s3.
  destruct (on_start_stream_state sid1 userId challengeNum s)
    as (_ & _ & _ & Htm0 & Hfp0 & _ & Hp0 & _).
  destruct (on_start_stream_state sid2 userId challengeNum
              (on_start_stream sid1 userId challengeNum s))
    as (_ & _ & _ & Htm1 & Hfp1 & _ & Hp1 & _).
  fold s1 in Htm1, Hfp1, Hp1. rewrite Htm0 in Htm1. rewrite Hp0 in Hp1. rewrite Hfp0 in Hfp1.
  assert (Ha : fire_timer t1 s1
               = with_ffmpegProcesses (insert key (length (procs s1)))
                   (with_procs (fun l => l ++ [session_encoder userId challengeNum])
                      (with_timers (insert t1 (fired (warmup_timer userId challengeNum))) s1))).
  { assert (Hl : timers s1 !! t1 = Some (warmup_timer userId challengeNum)).
    { rewrite Htm1, <- app_assoc. now apply list_lookup_middle. }
    unfold fire_timer. rewrite Hl. reflexivity. }
  assert (Hb : s2
               = with_ffmpegProcesses (insert key (length (procs (fire_timer t1 s1))))
                   (with_procs (fun l => l ++ [session_encoder userId challengeNum])
                      (with_timers (insert (S t1) (fired (warmup_timer userId challengeNum)))
                         (fire_timer t1 s1)))).
  { assert (Hl : timers (fire_timer t1 s1) !! S t1
                 = Some (warmup_timer userId challengeNum)).
    { rewrite Ha. cbn [timers with_ffmpegProcesses with_procs with_timers].
      rewrite list_lookup_insert_ne by lia. rewrite Htm1.
      apply list_lookup_middle. rewrite length_app. cbn. unfold t1. lia. }
    subst s2. unfold fire_timer at 1. rewrite Hl. reflexivity. }
  assert (Hprocs2 : procs s2 = procs s ++ [session_encoder userId challengeNum;
                                           session_encoder userId challengeNum]).
  { rewrite Hb, Ha. cbn [procs with_ffmpegProcesses with_procs with_timers].
    rewrite Hp1, <- app_assoc. reflexivity. }
  assert (Hfp2 : ffmpegProcesses s2 !! key = Some (S first)).
  { rewrite Hb. cbn [ffmpegProcesses with_ffmpegProcesses]. rewrite lookup_insert_eq.
    rewrite Ha. cbn [procs with_ffmpegProcesses with_procs with_timers].
    rewrite Hp1, length_app. cbn [length]. f_equal. unfold first. lia. }
  split; [exact Hprocs2|]. split; [exact Hfp2|].
  destruct (on_stop_stream_state sid3 userId challengeNum s2)
    as (Hfp3 & Hp3 & _).
  fold key s3 in Hfp3, Hp3. rewrite Hfp2, Hprocs2 in Hp3.
  split.
  - rewrite Hp3. unfold first.
    replace (S (length (procs s))) with (length (procs s) + 1) by lia.
    rewrite alter_app_r. cbn. reflexivity.
  - split; [rewrite Hfp3; apply lookup_delete_eq|apply stopped_key_not_registered].
Qed.

(** ** A stopped session's encoder *)


(** ** The ingest artifact over a run *)

(** Once the host is down it stays down. *)
Lemma run_crashed (evs : list Event) (s : State) :
  crashed s = true -> run evs s = s.
Proof.
  intros H. induction evs as [|e evs IH]; [reflexivity|].
  cbn [run fold_left]. unfold handle at 2. rewrite H. exact IH.
Qed.

Lemma run_app (l1 l2 : list Event) (s : State) :
  run (l1 ++ l2) s = run l2 (run l1 s).
Proof. apply fold_left_app. Qed.

Lemma run_up (l1 l2 : list Event) (s : State) :
  crashed (run (l1 ++ l2) s) = false -> crashed (run l1 s) = false.
Proof.
  rewrite run_app. intros H. destruct (crashed (run l1 s)) eqn:E; [|reflexivity].
  rewrite run_crashed in H by exact E. congruence.
Qed.

Lemma generateTimelapse_frame (userId challengeNum : jsstring) (req : Request) (s : State) :
  activeStreams (generateTimelapse userId challengeNum req s) = activeStreams s
  /\ wstreams (generateTimelapse userId challengeNum req s) = wstreams s
  /\ files (generateTimelapse userId challengeNum req s) = files s
  /\ timers (generateTimelapse userId challengeNum req s) = timers s.
Proof.
  unfold generateTimelapse.
  destruct (negb _); [|destruct (_ && _); [|destruct (bool_decide _)]];
    try (destruct (timelapse_callback_state req (Some (js "Input file not found")) [] s)
           as (H1 & H2 & _ & H3 & H4); now rewrite H1, H2, H3, H4);
    try (match goal with
         | |- context [timelapse_callback ?r ?e ?p ?st] =>
             destruct (timelapse_callback_state r e p st) as (H1 & H2 & _ & H3 & H4);
             now rewrite H1, H2, H3, H4
         end).
  repeat split; reflexivity.
Qed.

Lemma proc_event_frame (pid : nat) (s : State) :
  (forall message,
     activeStreams (proc_error pid message s) = activeStreams s
     /\ wstreams (proc_error pid message s) = wstreams s
     /\ files (proc_error pid message s) = files s)
  /\ activeStreams (proc_end pid s) = activeStreams s
  /\ wstreams (proc_end pid s) = wstreams s
  /\ files (proc_end pid s) = files s.
Proof.
  split.
  - intros message. unfold proc_error. destruct (procs s !! pid) as [p|]; [|auto].
    destruct (p_running p); [|auto]. unfold run_error_handler.
    destruct (p_on_error p) as [[key i r o|key req]|]; [| |auto].
    + cbn. destruct (bool_decide _); auto.
    + match goal with
      | |- context [timelapse_callback ?r ?e ?p ?st] =>
          destruct (timelapse_callback_state r e p st) as (H1 & H2 & _ & H3 & _);
          rewrite H1, H2, H3
      end. auto.
  - unfold proc_end. destruct (procs s !! pid) as [p|]; [|auto].
    destruct (p_running p); [|auto]. unfold run_end_handler.
    destruct (p_on_end p) as [[key|key pl req]|]; [auto| |auto].
    match goal with
    | |- context [timelapse_callback ?r ?e ?p ?st] =>
        destruct (timelapse_callback_state r e p st) as (H1 & H2 & _ & H3 & _);
        rewrite H1, H2, H3
    end. auto.
Qed.

(** The quiet events leave the registry, the write streams and the files
    alone. *)
Lemma quiet_frame (e : Event) (s : State) :
  quiet e = true ->
  activeStreams (dispatch e s) = activeStreams s
  /\ wstreams (dispatch e s) = wstreams s
  /\ files (dispatch e s) = files s.
Proof.
  intros Hq. destruct e; try discriminate; cbn [dispatch].
  - auto.
  - unfold route_watch. destruct (negb _); auto.
  - unfold route_timelapse. destruct (negb _); [auto|].
    destruct (existsSync _ _); [auto|].
    destruct (generateTimelapse_frame (req_userId req) (req_challengeNum req) req s)
      as (H1 & H2 & H3 & _). auto.
  - auto.
  - destruct (fire_timer_frame timer s) as (H1 & H2 & H3 & _). auto.
  - apply proc_event_frame.
  - apply proc_event_frame.
  - auto.
  - auto.
  - auto.
  - unfold on_stream_chunk_invalid. destruct (activeStreams s !! _); auto.
  - unfold ws_error. destruct (wstreams s !! _); auto.
Qed.

(** *** The outputs of the commands are manifests *)

Lemma outputs_inv_alter (f : Proc -> Proc) (pid : nat) (ps : list Proc) (ts : list Timer) :
  (forall p, p_output (f p) = p_output p /\ p_on_error (f p) = p_on_error p) ->
  outputs_inv_of ps ts -> outputs_inv_of (alter f pid ps) ts.
Proof.
  intros Hf [Hp Ht]. split; [|exact Ht]. intros i q Hq.
  destruct (decide (pid = i)) as [->|Hne].
  - rewrite list_lookup_alter_eq in Hq. destruct (ps !! i) as [q0|] eqn:E; [|discriminate].
    injection Hq as <-. destruct (Hf q0) as [-> ->]. now apply (Hp i).
  - rewrite list_lookup_alter_ne in Hq by exact Hne. now apply (Hp i).
Qed.

Lemma outputs_inv_kill (signal : jsstring) (pid : nat) (ps : list Proc) (ts : list Timer) :
  outputs_inv_of ps ts -> outputs_inv_of (alter (add_signal signal) pid ps) ts.
Proof.
  apply outputs_inv_alter. intros p. unfold add_signal. destruct (p_running p); auto.
Qed.

Lemma outputs_inv_exit (pid : nat) (ps : list Proc) (ts : list Timer) :
  outputs_inv_of ps ts -> outputs_inv_of (alter set_exited pid ps) ts.
Proof. apply outputs_inv_alter. intros p. auto. Qed.

Lemma outputs_inv_spawn (p : Proc) (ps : list Proc) (ts : list Timer) :
  manifest_path (p_output p) ->
  (forall k i r o, p_on_error p = Some (OnErrorLive k i r o) -> manifest_path o) ->
  outputs_inv_of ps ts -> outputs_inv_of (ps ++ [p]) ts.
Proof.
  intros Ho He [Hp Ht]. split; [|exact Ht]. intros i q Hq.
  apply lookup_snoc_Some in Hq as [[_ Hq]|[_ <-]]; [now apply (Hp i)|auto].
Qed.

Lemma outputs_inv_timer_add (t : Timer) (ps : list Proc) (ts : list Timer) :
  manifest_path (timer_output t) ->
  outputs_inv_of ps ts -> outputs_inv_of ps (ts ++ [t]).
Proof.
  intros Ho [Hp Ht]. split; [exact Hp|]. intros i q Hq.
  apply lookup_snoc_Some in Hq as [[_ Hq]|[_ <-]]; [now apply (Ht i)|auto].
Qed.

Lemma outputs_inv_timer_fired (tid : nat) (t : Timer) (ps : list Proc) (ts : list Timer) :
  ts !! tid = Some t ->
  outputs_inv_of ps ts ->
  outputs_inv_of ps
    (<[tid := {| t_delay := t_delay t; t_action := t_action t; t_pending := false |}]> ts).
Proof.
  intros Htid [Hp Ht]. split; [exact Hp|]. intros i q Hq.
  destruct (decide (tid = i)) as [->|Hne].
  - rewrite list_lookup_insert_eq in Hq by (now apply lookup_lt_Some in Htid).
    injection Hq as <-. exact (Ht i t Htid).
  - rewrite list_lookup_insert_ne in Hq by exact Hne. now apply (Ht i).
Qed.

Lemma outputs_inv_teardown (sid key : jsstring) (info : StreamInfo) (s : State) :
  outputs_inv s -> outputs_inv (teardown sid (key, info) s).
Proof.
  intros H. unfold outputs_inv. rewrite teardown_procs.
  rewrite (proj1 (proj2 (proj2 (teardown_state sid key info s)))).
  destruct (decide (si_socketId info = sid)); [|exact H].
  destruct (ffmpegProcesses s !! key); [|exact H]. now apply outputs_inv_kill.
Qed.

Lemma outputs_inv_dispatch (e : Event) (s : State) :
  outputs_inv s -> outputs_inv (dispatch e s).
Proof.
  intros H. destruct e; cbn [dispatch].
  - exact H.
  - unfold outputs_inv.
    destruct (on_start_stream_state socketId userId challengeNum s)
      as (_ & _ & _ & Ht & _ & _ & Hp & _).
    rewrite Ht, Hp. apply outputs_inv_timer_add; [|exact H].
    eexists. left. reflexivity.
  - unfold outputs_inv.
    destruct (on_stream_chunk_frame socketId userId challengeNum chunk s)
      as (_ & Ht & Hp & _).
    now rewrite Ht, Hp.
  - unfold outputs_inv.
    destruct (on_stop_stream_state socketId userId challengeNum s)
      as (_ & Hp & Ht & _).
    rewrite Ht, Hp. destruct (ffmpegProcesses s !! _); [|exact H].
    now apply outputs_inv_kill.
  - apply on_disconnect_invariant; [|intros; assumption..|exact H].
    intros st key info Hst _. now apply outputs_inv_teardown.
  - unfold route_watch. destruct (negb _); exact H.
  - unfold route_timelapse. destruct (negb _); [exact H|].
    destruct (existsSync _ _); [exact H|].
    unfold generateTimelapse, outputs_inv.
    destruct (negb _); [|destruct (_ && _); [|destruct (bool_decide _)]].
    1-3: (rewrite (proj1 (timelapse_callback_frame _ _ _ _)),
            (proj2 (proj2 (proj2 (proj2 (timelapse_callback_state _ _ _ _)))));
          exact H).
    cbn. apply outputs_inv_spawn; [| |exact H].
    + eexists. right. reflexivity.
    + intros k i r o E. discriminate.
  - exact H.
  - unfold fire_timer. destruct (timers s !! timer) as [t|] eqn:Ht; [|exact H].
    destruct (t_pending t); [|exact H].
    pose proof (outputs_inv_timer_fired timer t _ _ Ht H) as H'.
    pose proof (proj2 H timer t Ht) as Ho. unfold timer_output in Ho.
    unfold run_timer. destruct (t_action t) as [key i r o|key i r o].
    + unfold outputs_inv. cbn. apply outputs_inv_spawn; [exact Ho| |exact H'].
      intros k' i' r' o' E. cbn in E. injection E as _ _ _ <-. exact Ho.
    + destruct (bool_decide _); [|exact H'].
      unfold outputs_inv. cbn. apply outputs_inv_spawn; [exact Ho| |exact H'].
      intros k' i' r' o' E. discriminate.
  - unfold proc_error. destruct (procs s !! pid) as [p|] eqn:Hp; [|exact H].
    destruct (p_running p); [|exact H].
    pose proof (outputs_inv_exit pid _ _ H) as H'. unfold run_error_handler.
    destruct (p_on_error p) as [[key i r o|key req]|] eqn:He; [| |exact H'].
    + cbn. destruct (bool_decide _); [|exact H'].
      unfold outputs_inv. cbn. apply outputs_inv_timer_add; [|exact H'].
      exact (proj2 (proj1 H pid p Hp) _ _ _ _ He).
    + unfold outputs_inv.
      rewrite (proj1 (timelapse_callback_frame _ _ _ _)),
        (proj2 (proj2 (proj2 (proj2 (timelapse_callback_state _ _ _ _))))).
      exact H'.
  - unfold proc_end. destruct (procs s !! pid) as [p|] eqn:Hp; [|exact H].
    destruct (p_running p); [|exact H].
    pose proof (outputs_inv_exit pid _ _ H) as H'. unfold run_end_handler.
    destruct (p_on_end p) as [[key|key pl req]|]; [exact H'| |exact H'].
    unfold outputs_inv.
    rewrite (proj1 (timelapse_callback_frame _ _ _ _)),
      (proj2 (proj2 (proj2 (proj2 (timelapse_callback_state _ _ _ _))))).
    exact H'.
  - unfold encoder_output. destruct (procs s !! pid) as [p|]; [|exact H].
    destruct (p_running p); exact H.
  - exact H.
  - exact H.
  - exact H.
  - unfold on_stream_chunk_bytes. destruct (activeStreams s !! _); [|exact H].
    unfold ws_write. destruct (wstreams s !! _) as [w|]; [|exact H].
    destruct (ws_ended w); exact H.
  - unfold on_stream_chunk_invalid. destruct (activeStreams s !! _); exact H.
  - unfold ws_error. destruct (wstreams s !! _); exact H.
Qed.

(** *** Who has a write stream on a file *)

Lemma file_of_key_shrink (key file : jsstring)
    (A A' : gmap (list N) StreamInfo) (W W' : list WriteStream) :
  (forall k info, A' !! k = Some info -> A !! k = Some info) ->
  (forall i w', W' !! i = Some w' -> exists w, W !! i = Some w /\ ws_path w = ws_path w') ->
  file_of_key_of key file A W -> file_of_key_of key file A' W'.
Proof.
  intros HA HW H k info w' Hk Hw' Hpath.
  destruct (HW _ _ Hw') as (w & Hw & Hp). apply (H k info w); [now apply HA|exact Hw|].
  now rewrite Hp.
Qed.

Lemma alter_end_stream_paths (id : nat) (W : list WriteStream) (i : nat) (w' : WriteStream) :
  alter end_stream id W !! i = Some w' ->
  exists w, W !! i = Some w /\ ws_path w = ws_path w'.
Proof.
  intros H. destruct (decide (id = i)) as [->|Hne].
  - rewrite list_lookup_alter_eq in H. destruct (W !! i) as [w|]; [|discriminate].
    injection H as <-. eauto.
  - rewrite list_lookup_alter_ne in H by exact Hne. eauto.
Qed.

(** What a write does: to the registry nothing, to the streams and the
    files only at the stream written to and at its path. *)
Lemma ws_write_effect (id : nat) (buf : list N) (s : State) :
  activeStreams (ws_write id buf s) = activeStreams s
  /\ (forall i w', wstreams (ws_write id buf s) !! i = Some w' ->
        exists w, wstreams s !! i = Some w /\ ws_path w = ws_path w')
  /\ (forall i, i <> id -> wstreams (ws_write id buf s) !! i = wstreams s !! i)
  /\ (forall w f, wstreams s !! id = Some w -> ws_path w <> f ->
        files (ws_write id buf s) !! f = files s !! f)
  /\ (wstreams s !! id = None -> ws_write id buf s = s).
Proof.
  unfold ws_write. destruct (wstreams s !! id) as [w|] eqn:Hw.
  - destruct (ws_ended w).
    + split; [reflexivity|]. split; [eauto|]. split; [auto|]. split; [auto|].
      intros H. discriminate.
    + cbn. split; [reflexivity|]. split; [|split; [|split]].
      * intros i w' H. destruct (decide (id = i)) as [->|Hne].
        -- rewrite list_lookup_insert_eq in H by (now apply lookup_lt_Some in Hw).
           injection H as <-. eauto.
        -- rewrite list_lookup_insert_ne in H by exact Hne. eauto.
      * intros i Hne. now apply list_lookup_insert_ne.
      * intros w0 f [= <-] Hne. now apply lookup_insert_ne.
      * intros H. discriminate.
  - split; [reflexivity|]. split; [eauto|]. auto.
Qed.

Lemma file_of_key_teardown (key file sid k : jsstring) (info : StreamInfo) (s : State) :
  file_of_key key file s -> file_of_key key file (teardown sid (k, info) s).
Proof.
  unfold file_of_key. destruct (teardown_sessions sid k info s) as [-> ->].
  destruct (decide (si_socketId info = sid)); [|auto].
  apply file_of_key_shrink.
  - intros k' i' H. now apply lookup_delete_Some in H as [_ H].
  - apply alter_end_stream_paths.
Qed.

Lemma same_key_same_file (u c u' c' : jsstring) :
  getStreamKey u' c' = getStreamKey u c -> inputFileOf u' c' = inputFileOf u c.
Proof. intros H. unfold inputFileOf, getRecordingPath. now rewrite H. Qed.

Lemma file_of_key_dispatch (key file : jsstring) (e : Event) (s : State) :
  sink_inv s -> file_of_key key file s ->
  opens_file_under_other_key key file e = false ->
  file_of_key key file (dispatch e s).
Proof.
  intros Hsink H Hstart.
  destruct (quiet e) eqn:Hq.
  { unfold file_of_key. destruct (quiet_frame e s Hq) as (-> & -> & _). exact H. }
  destruct e; try discriminate; cbn [dispatch]; unfold file_of_key.
  - destruct (on_start_stream_state socketId userId challengeNum s) as (-> & -> & _).
    intros k info w Hk Hw Hpath.
    destruct (decide (getStreamKey userId challengeNum = k)) as [<-|Hne].
    + rewrite lookup_insert_eq in Hk. injection Hk as <-.
      cbn [new_session si_writeStream] in Hw.
      rewrite list_lookup_middle in Hw by reflexivity. injection Hw as <-.
      cbn [new_sink ws_path] in Hpath. cbn [opens_file_under_other_key] in Hstart.
      rewrite bool_decide_eq_true_2 in Hstart by exact Hpath. cbn in Hstart.
      apply negb_false_iff, bool_decide_eq_true in Hstart. exact Hstart.
    + rewrite lookup_insert_ne in Hk by exact Hne.
      destruct (Hsink k info Hk) as [(w0 & Hw0 & _) _].
      rewrite lookup_app_l in Hw by (now apply lookup_lt_Some in Hw0).
      exact (H k info w Hk Hw Hpath).
  - unfold on_stream_chunk. destruct (activeStreams s !! _) as [info|]; [|exact H].
    destruct (ws_write_effect (si_writeStream info) (base64_decode chunk) s)
      as (-> & Hpaths & _).
    revert H. apply file_of_key_shrink; [auto|exact Hpaths].
  - destruct (on_stop_stream_sessions socketId userId challengeNum s) as [-> ->].
    revert H. apply file_of_key_shrink.
    + intros k' i' Hk'. now apply lookup_delete_Some in Hk' as [_ Hk'].
    + destruct (activeStreams s !! _); [apply alter_end_stream_paths|eauto].
  - apply (on_disconnect_invariant (file_of_key key file));
      [|intros; assumption..|exact H].
    intros st k info Hst _. now apply file_of_key_teardown.
  - unfold encoder_output. destruct (procs s !! pid) as [p|]; [|exact H].
    destruct (p_running p); exact H.
  - unfold on_stream_chunk_bytes. destruct (activeStreams s !! _) as [info|]; [|exact H].
    destruct (ws_write_effect (si_writeStream info) bytes s) as (-> & Hpaths & _).
    revert H. apply file_of_key_shrink; [auto|exact Hpaths].
Qed.

(** *** One session, event by event *)

Section IngestRun.

Variables sid userId challengeNum : jsstring.

Local Abbreviation key := (getStreamKey userId challengeNum).
Local Abbreviation input := (inputFileOf userId challengeNum).

(** The encoder's manifests are not the input file. *)
Hypothesis live_manifest_apart : forall a, path_join a (js "playlist.m3u8") <> input.
Hypothesis timelapse_manifest_apart : forall a, path_join a (js "timelapse.m3u8") <> input.

Lemma manifest_is_not_input (o : jsstring) : manifest_path o -> o <> input.
Proof. intros [a [->| ->]]; auto. Qed.

Lemma other_start (sid' u c : jsstring) :
  opens_file input (EvStartStream sid' u c) = false ->
  inputFileOf u c <> input /\ getStreamKey u c <> key.
Proof.
  cbn [opens_file]. intros H. apply bool_decide_eq_false in H. split; [exact H|].
  intros E. apply H. now apply same_key_same_file.
Qed.

Lemma content_of_same (s s' : State) :
  files s' !! input = files s !! input -> content_of input s' = content_of input s.
Proof. intros H. unfold content_of. now rewrite H. Qed.

Lemma session_open_same (s s' : State) :
  session_open sid userId challengeNum s ->
  activeStreams s' !! key = activeStreams s !! key ->
  (forall i w, wstreams s !! i = Some w -> ws_path w = input -> wstreams s' !! i = Some w) ->
  files s' !! input = files s !! input ->
  session_open sid userId challengeNum s'.
Proof.
  intros (info & w & Hi & Ho & Hw & He & Hp & Hpos) HA HW HF.
  exists info, w. rewrite HA, (content_of_same s s' HF). auto 10.
Qed.

(** A write through the session's stream appends. *)
Lemma session_write_appends (info : StreamInfo) (buf : list N) (s : State) :
  session_open sid userId challengeNum s ->
  activeStreams s !! key = Some info ->
  session_open sid userId challengeNum (ws_write (si_writeStream info) buf s)
  /\ content_of input (ws_write (si_writeStream info) buf s) = content_of input s ++ buf.
Proof.
  intros (info' & w & Hi & Ho & Hw & He & Hp & Hpos) Hinfo.
  assert (info' = info) as -> by congruence.
  unfold ws_write. rewrite Hw, He, Hp, Hpos, write_at_end. split.
  - exists info. eexists. cbn. split; [exact Hi|]. split; [exact Ho|].
    split; [apply list_lookup_insert_eq; now apply lookup_lt_Some in Hw|].
    cbn. split; [reflexivity|]. split; [reflexivity|].
    unfold content_of. cbn. rewrite lookup_insert_eq. cbn. now rewrite length_app.
  - apply content_of_insert.
Qed.

(** A write through the stream of another key's session. *)
Lemma other_write_keeps_session (k : jsstring) (info' : StreamInfo) (buf : list N)
    (s : State) :
  file_of_key key input s ->
  activeStreams s !! k = Some info' -> k <> key ->
  files (ws_write (si_writeStream info') buf s) !! input = files s !! input
  /\ activeStreams (ws_write (si_writeStream info') buf s) = activeStreams s
  /\ (forall i w, wstreams s !! i = Some w -> ws_path w = input ->
        wstreams (ws_write (si_writeStream info') buf s) !! i = Some w).
Proof.
  intros HJ Hk Hne.
  destruct (ws_write_effect (si_writeStream info') buf s) as (HA & _ & HW & HF & Hnone).
  destruct (wstreams s !! si_writeStream info') as [w'|] eqn:Hw'.
  - assert (Hpath : ws_path w' <> input).
    { intros E. apply Hne. exact (HJ k info' w' Hk Hw' E). }
    split; [exact (HF w' input eq_refl Hpath)|]. split; [exact HA|].
    intros i w Hw Hp. rewrite HW; [exact Hw|]. intros ->. congruence.
  - rewrite (Hnone eq_refl). auto.
Qed.

Lemma on_disconnect_files (sid' : jsstring) (s : State) :
  files (on_disconnect sid' s) = files s.
Proof.
  apply (on_disconnect_invariant (fun st => files st = files s));
    [|intros; assumption..|reflexivity].
  intros st k info H _. now rewrite (proj1 (proj2 (teardown_state sid' k info st))).
Qed.

Lemma on_disconnect_keeps_unregistered (sid' k : jsstring) (s : State) :
  activeStreams s !! k = None -> activeStreams (on_disconnect sid' s) !! k = None.
Proof.
  intros H.
  apply (on_disconnect_invariant (fun st => activeStreams st !! k = None));
    [|intros; assumption..|exact H].
  intros st k' info Hst _. now apply teardown_keeps_unregistered.
Qed.

(** The disconnect of another socket leaves the session as it is. *)
Lemma other_disconnect_keeps_session (sid' : jsstring) (s : State) :
  file_of_key key input s -> session_open sid userId challengeNum s -> sid' <> sid ->
  session_open sid userId challengeNum (on_disconnect sid' s).
Proof.
  intros HJ Hopen Hne.
  destruct Hopen as (info & w & Hi & Ho & Hw & He & Hp & Hpos).
  assert (Hkeep : file_of_key key input (on_disconnect sid' s)
                  /\ activeStreams (on_disconnect sid' s) !! key = Some info
                  /\ wstreams (on_disconnect sid' s) !! si_writeStream info = Some w).
  { apply (on_disconnect_invariant
             (fun st => file_of_key key input st
                        /\ activeStreams st !! key = Some info
                        /\ wstreams st !! si_writeStream info = Some w));
      [|intros; assumption..|auto].
    intros st k info' (HJ' & Hi' & Hw') Hk.
    split; [now apply file_of_key_teardown|].
    destruct (teardown_sessions sid' k info' st) as [-> ->].
    destruct (decide (si_socketId info' = sid')) as [Hown|]; [|auto].
    assert (Hk' : k <> key).
    { intros ->. rewrite Hi' in Hk. injection Hk as <-. congruence. }
    split; [now rewrite lookup_delete_ne|].
    rewrite list_lookup_alter_ne; [exact Hw'|].
    intros E. apply Hk'. apply (HJ' k info' w Hk); [now rewrite E|exact Hp]. }
  destruct Hkeep as (_ & Hi' & Hw').
  exists info, w. unfold content_of. rewrite on_disconnect_files.
  fold (content_of input s). auto 10.
Qed.

(** What an event does to the open session and its file. *)
Lemma open_step (e : Event) (s : State) :
  file_of_key key input s -> outputs_inv s ->
  session_open sid userId challengeNum s ->
  opens_file input e = false ->
  if closes_session key sid e
  then activeStreams (dispatch e s) !! key = None
       /\ content_of input (dispatch e s) = content_of input s
  else session_open sid userId challengeNum (dispatch e s)
       /\ content_of input (dispatch e s)
          = content_of input s ++ default [] (chunk_bytes key e).
Proof.
  intros HJ Hout Hopen Hstart.
  destruct (quiet e) eqn:Hq.
  { destruct (quiet_frame e s Hq) as (HA & HW & HF).
    assert (Hc : closes_session key sid e = false /\ chunk_bytes key e = None)
      by (destruct e; try discriminate; auto).
    destruct Hc as [-> ->]. cbn [default]. rewrite app_nil_r.
    split; [|apply content_of_same; now rewrite HF].
    apply (session_open_same s); [exact Hopen|now rewrite HA| |now rewrite HF].
    intros i w Hw _. now rewrite HW. }
  pose proof Hopen as (info & w & Hi & Ho & Hw & He & Hp & Hpos).
  destruct e; try discriminate; cbn [dispatch closes_session chunk_bytes].
  - (* start-stream, on another file *)
    destruct (other_start _ _ _ Hstart) as [Hfile Hkey].
    destruct (on_start_stream_state socketId userId0 challengeNum0 s)
      as (HA & HW & HF & _).
    cbn [default]. rewrite app_nil_r.
    assert (Hsame : files (on_start_stream socketId userId0 challengeNum0 s) !! input
                    = files s !! input)
      by (rewrite HF; now apply lookup_insert_ne).
    split; [|now apply content_of_same].
    apply (session_open_same s); [exact Hopen| | |exact Hsame].
    + rewrite HA. now apply lookup_insert_ne.
    + intros i w0 Hw0 _. rewrite HW, lookup_app_l; [exact Hw0|].
      now apply lookup_lt_Some in Hw0.
  - (* stream-chunk, a string *)
    unfold on_stream_chunk.
    destruct (decide (getStreamKey userId0 challengeNum0 = key)) as [->|Hne].
    + rewrite Hi. cbn [default]. now apply session_write_appends.
    + cbn [default]. rewrite app_nil_r.
      destruct (activeStreams s !! getStreamKey userId0 challengeNum0) as [info'|] eqn:Hk;
        [|auto].
      destruct (other_write_keeps_session _ info' (base64_decode chunk) s HJ Hk Hne)
        as (HF & HA & HW).
      split; [|now apply content_of_same].
      apply (session_open_same s); [exact Hopen|now rewrite HA|exact HW|exact HF].
  - (* stop-stream *)
    destruct (on_stop_stream_sessions socketId userId0 challengeNum0 s) as [HA HW].
    pose proof (on_stop_stream_files socketId userId0 challengeNum0 s) as HF.
    destruct (decide (getStreamKey userId0 challengeNum0 = key)) as [E|Hne].
    + rewrite bool_decide_eq_true_2 by exact E.
      split; [rewrite HA, E; apply lookup_delete_eq|].
      apply content_of_same. now rewrite HF.
    + rewrite bool_decide_eq_false_2 by exact Hne. cbn [default]. rewrite app_nil_r.
      split; [|apply content_of_same; now rewrite HF].
      apply (session_open_same s); [exact Hopen| | |now rewrite HF].
      * rewrite HA. now apply lookup_delete_ne.
      * intros i w0 Hw0 Hp0. rewrite HW.
        destruct (activeStreams s !! getStreamKey userId0 challengeNum0) as [info'|] eqn:Hk;
          [|exact Hw0].
        rewrite list_lookup_alter_ne; [exact Hw0|].
        intros E. apply Hne. apply (HJ _ info' w0 Hk); [now rewrite E|exact Hp0].
  - (* disconnect *)
    destruct (decide (socketId = sid)) as [->|Hne].
    + rewrite bool_decide_eq_true_2 by reflexivity.
      split; [now apply (disconnected_key_not_registered sid key info)|].
      apply content_of_same. now rewrite on_disconnect_files.
    + rewrite bool_decide_eq_false_2 by exact Hne. cbn [default]. rewrite app_nil_r.
      split; [now apply other_disconnect_keeps_session|].
      apply content_of_same. now rewrite on_disconnect_files.
  - (* the encoder writes its manifest *)
    cbn [default]. rewrite app_nil_r.
    assert (Hsame : files (encoder_output pid text s) !! input = files s !! input
                    /\ activeStreams (encoder_output pid text s) = activeStreams s
                    /\ wstreams (encoder_output pid text s) = wstreams s).
    { unfold encoder_output. destruct (procs s !! pid) as [p|] eqn:Hpid; [|auto].
      destruct (p_running p); [|auto]. cbn. split; [|auto].
      apply lookup_insert_ne. apply manifest_is_not_input.
      exact (proj1 (proj1 Hout pid p Hpid)). }
    destruct Hsame as (HF & HA & HW).
    split; [|now apply content_of_same].
    apply (session_open_same s); [exact Hopen|now rewrite HA| |exact HF].
    intros i w0 Hw0 _. now rewrite HW.
  - (* stream-chunk, bytes *)
    unfold on_stream_chunk_bytes.
    destruct (decide (getStreamKey userId0 challengeNum0 = key)) as [->|Hne].
    + rewrite Hi. cbn [default]. now apply session_write_appends.
    + cbn [default]. rewrite app_nil_r.
      destruct (activeStreams s !! getStreamKey userId0 challengeNum0) as [info'|] eqn:Hk;
        [|auto].
      destruct (other_write_keeps_session _ info' bytes s HJ Hk Hne) as (HF & HA & HW).
      split; [|now apply content_of_same].
      apply (session_open_same s); [exact Hopen|now rewrite HA|exact HW|exact HF].
Qed.

(** What an event does to the file once the session is out of the
    registry. *)
Lemma closed_step (e : Event) (s : State) :
  file_of_key key input s -> outputs_inv s ->
  activeStreams s !! key = None ->
  opens_file input e = false ->
  activeStreams (dispatch e s) !! key = None
  /\ content_of input (dispatch e s) = content_of input s.
Proof.
  intros HJ Hout Hnone Hstart.
  destruct (quiet e) eqn:Hq.
  { destruct (quiet_frame e s Hq) as (HA & HW & HF).
    split; [now rewrite HA|apply content_of_same; now rewrite HF]. }
  assert (Hwrite : forall k buf,
            (match activeStreams s !! k with
             | Some info' => activeStreams (ws_write (si_writeStream info') buf s) !! key = None
                             /\ content_of input (ws_write (si_writeStream info') buf s)
                                = content_of input s
             | None => True
             end)).
  { intros k buf. destruct (activeStreams s !! k) as [info'|] eqn:Hk; [|exact I].
    assert (Hne : k <> key) by (intros ->; congruence).
    destruct (other_write_keeps_session k info' buf s HJ Hk Hne) as (HF & HA & _).
    split; [now rewrite HA|now apply content_of_same]. }
  destruct e; try discriminate; cbn [dispatch].
  - destruct (other_start _ _ _ Hstart) as [Hfile Hkey].
    destruct (on_start_stream_state socketId userId0 challengeNum0 s)
      as (HA & _ & HF & _).
    split; [rewrite HA; now rewrite lookup_insert_ne|].
    apply content_of_same. rewrite HF. now apply lookup_insert_ne.
  - unfold on_stream_chunk.
    specialize (Hwrite (getStreamKey userId0 challengeNum0) (base64_decode chunk)).
    destruct (activeStreams s !! getStreamKey userId0 challengeNum0); auto.
  - destruct (on_stop_stream_sessions socketId userId0 challengeNum0 s) as [HA _].
    split; [rewrite HA; apply lookup_delete_None; now right|].
    apply content_of_same. now rewrite on_stop_stream_files.
  - split; [now apply on_disconnect_keeps_unregistered|].
    apply content_of_same. now rewrite on_disconnect_files.
  - unfold encoder_output. destruct (procs s !! pid) as [p|] eqn:Hpid; [|auto].
    destruct (p_running p); [|auto]. cbn. split; [exact Hnone|].
    apply content_of_same. cbn. apply lookup_insert_ne. apply manifest_is_not_input.
    exact (proj1 (proj1 Hout pid p Hpid)).
  - unfold on_stream_chunk_bytes.
    specialize (Hwrite (getStreamKey userId0 challengeNum0) bytes).
    destruct (activeStreams s !! getStreamKey userId0 challengeNum0); auto.
Qed.

(** *** The session over the rest of the run *)

Lemma ingest_inv_dispatch (e : Event) (s : State) :
  ingest_inv userId challengeNum s -> opens_file_under_other_key key input e = false ->
  ingest_inv userId challengeNum (dispatch e s).
Proof.
  intros (Hs & Hf & Ho) He. split; [now apply sink_inv_dispatch|].
  split; [now apply file_of_key_dispatch|now apply outputs_inv_dispatch].
Qed.

Lemma opens_file_other_key (e : Event) :
  opens_file input e = false -> opens_file_under_other_key key input e = false.
Proof.
  destruct e; cbn [opens_file opens_file_under_other_key]; try reflexivity.
  intros ->. reflexivity.
Qed.

Lemma first_event_up (e : Event) (evs : list Event) (s : State) :
  crashed (run (e :: evs) s) = false -> crashed s = false /\ handle e s = dispatch e s.
Proof.
  intros H. assert (Hup : crashed s = false) by exact (run_up [] (e :: evs) s H).
  split; [exact Hup|]. unfold handle. now rewrite Hup.
Qed.

(** Once the key is out of the registry the file is left alone. *)
Lemma closed_run (post : list Event) (s : State) :
  ingest_inv userId challengeNum s -> activeStreams s !! key = None ->
  forallb (fun e => negb (opens_file input e)) post = true ->
  crashed (run post s) = false ->
  content_of input (run post s) = content_of input s.
Proof.
  revert s. induction post as [|e post IH]; intros s Hinv Hnone Hpost Hup;
    [reflexivity|].
  cbn [forallb] in Hpost. apply andb_true_iff in Hpost as [He Hpost].
  apply negb_true_iff in He.
  destruct (first_event_up e post s Hup) as [_ Hstep].
  cbn [run fold_left] in Hup |- *. fold (run post (handle e s)) in Hup |- *.
  rewrite Hstep in Hup |- *.
  destruct Hinv as (Hs & Hf & Ho).
  destruct (closed_step e s Hf Ho Hnone He) as [Hnone' Hsame].
  rewrite IH; [exact Hsame| |exact Hnone'|exact Hpost|exact Hup].
  apply ingest_inv_dispatch; [now split|now apply opens_file_other_key].
Qed.

(** While the session is open the file grows by the chunks for the key, and
    by nothing else. *)
Lemma open_run (post : list Event) (s : State) :
  ingest_inv userId challengeNum s -> session_open sid userId challengeNum s ->
  forallb (fun e => negb (opens_file input e)) post = true ->
  crashed (run post s) = false ->
  content_of input (run post s)
  = content_of input s ++ concat (session_chunks key sid post).
Proof.
  revert s. induction post as [|e post IH]; intros s Hinv Hopen Hpost Hup.
  { cbn. now rewrite app_nil_r. }
  cbn [forallb] in Hpost. apply andb_true_iff in Hpost as [He Hpost].
  apply negb_true_iff in He.
  destruct (first_event_up e post s Hup) as [_ Hstep].
  cbn [run fold_left] in Hup |- *. fold (run post (handle e s)) in Hup |- *.
  rewrite Hstep in Hup |- *.
  assert (Hinv' : ingest_inv userId challengeNum (dispatch e s))
    by (apply ingest_inv_dispatch; [exact Hinv|now apply opens_file_other_key]).
  destruct Hinv as (Hs & Hf & Ho).
  pose proof (open_step e s Hf Ho Hopen He) as Hone.
  cbn [session_chunks]. destruct (closes_session key sid e).
  - destruct Hone as [Hnone Hsame]. cbn [concat]. rewrite app_nil_r.
    rewrite closed_run; [exact Hsame|exact Hinv'|exact Hnone|exact Hpost|exact Hup].
  - destruct Hone as [Hopen' Hgrow].
    rewrite (IH _ Hinv' Hopen' Hpost Hup), Hgrow.
    destruct (chunk_bytes key e) as [b|]; cbn [default concat].
    + now rewrite <- app_assoc.
    + now rewrite app_nil_r.
Qed.

(** [start-stream] opens the session, on an empty file. *)
Lemma start_stream_opens_session (s : State) :
  session_open sid userId challengeNum (on_start_stream sid userId challengeNum s)
  /\ content_of input (on_start_stream sid userId challengeNum s) = [].
Proof.
  unfold session_open, on_start_stream, inputFileOf, content_of. cbn.
  rewrite !lookup_insert_eq. cbn. split; [|reflexivity].
  eexists _, _. split; [reflexivity|]. cbn. split; [reflexivity|].
  split; [apply list_lookup_middle; reflexivity|]. cbn. auto.
Qed.

End IngestRun.

Lemma forallb_take {A : Type} (f : A -> bool) (n : nat) (l : list A) :
  forallb f l = true -> forallb f (take n l) = true.
Proof.
  revert n. induction l as [|x l IH]; intros [|n] H; try reflexivity.
  cbn in H |- *. apply andb_true_iff in H as [Hx Hl]. rewrite Hx. now apply IH.
Qed.

(** The chunks of a shorter run are the first chunks of the longer one. *)
Lemma session_chunks_take (key owner : jsstring) (n : nat) (evs : list Event) :
  session_chunks key owner (take n evs) `prefix_of` session_chunks key owner evs.
Proof.
  revert n. induction evs as [|e evs IH]; intros [|n]; cbn [take session_chunks];
    try apply prefix_nil.
  destruct (closes_session key owner e); [reflexivity|].
  destruct (chunk_bytes key e); [apply prefix_cons|]; apply IH.
Qed.

Lemma length_concat_list_sum (l : list (list N)) :
  length (concat l) = list_sum (List.map (@length N) l).
Proof. induction l as [|b l IH]; cbn; [reflexivity|]. now rewrite length_app, IH. Qed.

Lemma ingest_inv_init (userId challengeNum : jsstring) (disk : gmap (list N) File)
    (t0 : Z) :
  ingest_inv userId challengeNum (init_state disk t0).
Proof.
  split; [exact sink_inv_empty|]. split.
  - intros k info w H. cbn in H. rewrite lookup_empty in H. discriminate.
  - split; intros i x H; cbn in H; discriminate.
Qed.

Lemma ingest_inv_run (userId challengeNum : jsstring) (evs : list Event) (s : State) :
  ingest_inv userId challengeNum s ->
  forallb (fun e => negb (opens_file_under_other_key (getStreamKey userId challengeNum)
                            (inputFileOf userId challengeNum) e)) evs = true ->
  ingest_inv userId challengeNum (run evs s).
Proof.
  revert s. induction evs as [|e evs IH]; intros s Hinv Hevs; [exact Hinv|].
  cbn [forallb] in Hevs. apply andb_true_iff in Hevs as [He Hevs].
  apply negb_true_iff in He.
  cbn [run fold_left]. apply IH; [|exact Hevs].
  unfold handle. destruct (crashed s); [exact Hinv|].
  now apply ingest_inv_dispatch.
Qed.

(** C4: in any run of the server in which the host stays up, from the
    [start-stream] that opens a session on: the input file holds the
    decoded chunks that arrive for the key, one after the other in the
    order of arrival, up to the first [stop-stream] for the key or the
    disconnect of the opening socket, and nothing else; its length is the
    sum of their lengths; and what the file held after any shorter run is
    still there, at the front.  Between and after the chunks any other
    event may come (other sessions, timers, encoder output and exits, HTTP
    requests), but no later [start-stream] opens the same input file; no
    session of another key was opened on the file before; and the
    encoder's manifests are not the input file. *)
Theorem ingest_artifact_is_concatenation
    (disk : gmap (list N) File) (t0 : Z) (pre post : list Event)
    (sid userId challengeNum : jsstring) :
  let key := getStreamKey userId challengeNum in
  let input := inputFileOf userId challengeNum in
  let artifact evs :=
    content_of input
      (run (pre ++ EvStartStream sid userId challengeNum :: evs) (init_state disk t0)) in
  (forall a, path_join a (js "playlist.m3u8") <> input) ->
  (forall a, path_join a (js "timelapse.m3u8") <> input) ->
  forallb (fun e => negb (opens_file_under_other_key key input e)) pre = true ->
  forallb (fun e => negb (opens_file input e)) post = true ->
  crashed (run (pre ++ EvStartStream sid userId challengeNum :: post)
             (init_state disk t0)) = false ->
  artifact post = concat (session_chunks key sid post)
  /\ length (artifact post) = list_sum (List.map (@length N) (session_chunks key sid post))
  /\ forall n, artifact (take n post) `prefix_of` artifact post.
Proof.
  intros key input artifact Hpl Htl Hpre Hpost Hup.
  assert (Hall : forall evs,
            forallb (fun e => negb (opens_file input e)) evs = true ->
            crashed (run (pre ++ EvStartStream sid userId challengeNum :: evs)
                       (init_state disk t0)) = false ->
            artifact evs = concat (session_chunks key sid evs)).
  { subst key input artifact. cbn beta.
    intros evs Hevs Hupe. rewrite run_app in Hupe |- *.
    pose proof (ingest_inv_run userId challengeNum pre _
                  (ingest_inv_init userId challengeNum disk t0) Hpre) as Hinv.
    set (s0 := run pre (init_state disk t0)) in *.
    destruct (first_event_up _ evs s0 Hupe) as [_ Hstep].
    cbn [run fold_left] in Hupe |- *.
    fold (run evs (handle (EvStartStream sid userId challengeNum) s0)) in Hupe |- *.
    rewrite Hstep in Hupe |- *. cbn [dispatch] in Hupe |- *.
    destruct (start_stream_opens_session sid userId challengeNum s0) as [Hopen Hempty].
    assert (Hinv' : ingest_inv userId challengeNum
                      (on_start_stream sid userId challengeNum s0)).
    { apply (ingest_inv_dispatch userId challengeNum
               (EvStartStream sid userId challengeNum) s0 Hinv).
      cbn [opens_file_under_other_key].
      rewrite (bool_decide_eq_true_2 (getStreamKey userId challengeNum
                                      = getStreamKey userId challengeNum)) by reflexivity.
      apply andb_false_r. }
    rewrite (open_run sid userId challengeNum Hpl Htl evs _ Hinv' Hopen Hevs Hupe).
    now rewrite Hempty. }
  split; [now apply Hall|]. split.
  - rewrite (Hall post Hpost Hup). apply length_concat_list_sum.
  - intros n. rewrite (Hall post Hpost Hup).
    rewrite (Hall (take n post)).
    + destruct (session_chunks_take key sid n post) as [rest ->].
      rewrite concat_app. now apply prefix_app_r.
    + now apply forallb_take.
    + apply (run_up _ (drop n post)).
      rewrite <- app_assoc. cbn [app]. now rewrite take_drop.
Qed.

End Server.

(** ** Session key *)

Lemma app_cons_first_occurrence (x : N) (a b r r' : list N) :
  existsb (N.eqb x) a = false -> existsb (N.eqb x) b = false ->
  a ++ x :: r = b ++ x :: r' -> a = b /\ r = r'.
Proof.
  revert b. induction a as [|y a IH]; intros [|z b] Ha Hb E; cbn in *.
  - injection E as ->. auto.
  - injection E as <- _. rewrite N.eqb_refl in Hb. discriminate.
  - injection E as -> _. rewrite N.eqb_refl in Ha. discriminate.
  - injection E as -> E.
    apply orb_false_iff in Ha as [_ Ha]. apply orb_false_iff in Hb as [_ Hb].
    destruct (IH b Ha Hb E) as [-> ->]. auto.
Qed.

Lemma existsb_rev (f : N -> bool) (l : list N) :
  existsb f (rev l) = existsb f l.
Proof.
  induction l as [|x l IH]; [reflexivity|].
  cbn. rewrite existsb_app, IH. cbn. rewrite orb_false_r. apply orb_comm.
Qed.

Lemma app_cons_last_occurrence (x : N) (a b r r' : list N) :
  existsb (N.eqb x) r = false -> existsb (N.eqb x) r' = false ->
  a ++ x :: r = b ++ x :: r' -> a = b /\ r = r'.
Proof.
  intros Hr Hr' E. apply (f_equal (@rev N)) in E.
  rewrite !rev_app_distr in E. cbn in E. rewrite <- !app_assoc in E. cbn in E.
  apply app_cons_first_occurrence in E as [E1 E2]; [|now rewrite existsb_rev..].
  split.
  - apply (f_equal (@rev N)) in E2. now rewrite !rev_involutive in E2.
  - apply (f_equal (@rev N)) in E1. now rewrite !rev_involutive in E1.
Qed.

(** C9, as the code has it: the key is a function of the pair, and on pairs
    whose user identifiers contain no underscore, or whose challenge
    identifiers contain none, equal keys come from equal pairs only. *)
Theorem getStreamKey_injective_without_underscore
    (userId1 challengeNum1 userId2 challengeNum2 : jsstring) :
  has_underscore userId1 = false /\ has_underscore userId2 = false
  \/ has_underscore challengeNum1 = false /\ has_underscore challengeNum2 = false ->
  getStreamKey userId1 challengeNum1 = getStreamKey userId2 challengeNum2
  <-> userId1 = userId2 /\ challengeNum1 = challengeNum2.
Proof.
  intros H. split; [|now intros [-> ->]].
  unfold getStreamKey. intros E. destruct H as [[H1 H2]|[H1 H2]].
  - now apply app_cons_first_occurrence in E.
  - now apply app_cons_last_occurrence in E.
Qed.

Lemma getStreamKey_injective_without_underscore_witness :
  (has_underscore (js "u1") = false /\ has_underscore (js "u2") = false
   \/ has_underscore (js "5") = false /\ has_underscore (js "5") = false)
  /\ (getStreamKey (js "u1") (js "5") = getStreamKey (js "u2") (js "5")
      <-> js "u1" = js "u2" /\ js "5" = js "5").
Proof.
  assert (H : has_underscore (js "u1") = false /\ has_underscore (js "u2") = false
              \/ has_underscore (js "5") = false /\ has_underscore (js "5") = false).
  { left. split; reflexivity. }
  split; [exact H|].
  exact (getStreamKey_injective_without_underscore (js "u1") (js "5") (js "u2") (js "5") H).
Defined.

(** C9 does not hold as stated: two different pairs with one key. *)
Lemma getStreamKey_collision :
  getStreamKey (js "a_b") (js "c") = getStreamKey (js "a") (js "b_c")
  /\ (js "a_b", js "c") <> (js "a", js "b_c").
Proof.
  split; [reflexivity|]. intros H. vm_compute in H. discriminate.
Qed.

(** ** Speed-up of the accelerated rendition *)

(** C1 on the code: the command of [generateTimelapse] multiplies the video
    timestamps by 0.01667, which is not 1/60, and its five tempo stages
    multiply to 30, not to 60; audio and video are not accelerated by one
    factor. *)
Theorem timelapse_speedup_factors
    (path_join : jsstring -> jsstring -> jsstring)
    (streamKey inputFile recordingPath timelapsePlaylist : jsstring) (req : Request) :
  let cmd := timelapseCommand path_join streamKey inputFile recordingPath
               timelapsePlaylist req in
  exists pts tempo : Q,
    command_pts_factor cmd = Some pts
    /\ command_tempo_product cmd = Some tempo
    /\ (pts == 1667 # 100000)%Q
    /\ (tempo == 30 # 1)%Q
    /\ ~ (tempo == TARGET_SPEEDUP)%Q
    /\ ~ (pts == / TARGET_SPEEDUP)%Q
    /\ ~ (tempo * pts == 1)%Q.
Proof.
  cbn zeta. eexists _, _.
  split; [vm_compute; reflexivity|]. split; [vm_compute; reflexivity|].
  repeat split; vm_compute; congruence.
Qed.

(** ** Manifest rewriter *)

Section Rewriter.

Local Open Scope N_scope.

Lemma line_rest_at_line_end (rest : jsstring) :
  line_rest rest -> at_line_end rest = true.
Proof. intros [->|[r ->]]; reflexivity. Qed.

Lemma strip_prefix_line (p l rest : jsstring) :
  no_line_terminator p = true -> line_rest rest ->
  strip_prefix p (l ++ rest) = (fun r => r ++ rest) <$> strip_prefix p l.
Proof.
  intros Hp Hrest. revert l. induction p as [|a p IH]; intros l; [reflexivity|].
  cbn in Hp. apply andb_true_iff in Hp as [Ha Hp].
  destruct l as [|b l]; cbn.
  - destruct Hrest as [->|[r ->]]; [reflexivity|].
    destruct (N.eqb_spec a CH_NL) as [->|_]; [discriminate|reflexivity].
  - destruct (a =? b); [now apply IH|reflexivity].
Qed.

Lemma span_digits_line (l rest : jsstring) :
  line_rest rest ->
  span_digits (l ++ rest) = (let '(n, r) := span_digits l in (n, r ++ rest)).
Proof.
  intros Hrest. induction l as [|c l IH]; cbn.
  - destruct Hrest as [->|[r ->]]; reflexivity.
  - destruct (isDigit c); [|reflexivity].
    rewrite IH. now destruct (span_digits l).
Qed.

Lemma span_digits_split (l : jsstring) :
  exists d, l = d ++ snd (span_digits l)
            /\ length d = fst (span_digits l)
            /\ forallb isDigit d = true.
Proof.
  induction l as [|c l (d & Hl & Hn & Hd)]; [exists []; auto|]. cbn.
  destruct (isDigit c) eqn:Hc; [|exists []; auto].
  destruct (span_digits l) as [n r]. cbn in *.
  exists (c :: d). cbn. rewrite Hc, Hd, Hn. split; [congruence|auto].
Qed.

Lemma strip_prefix_Some (p l r : jsstring) :
  strip_prefix p l = Some r <-> l = p ++ r.
Proof.
  revert l. induction p as [|a p IH]; intros l; cbn.
  - split; [now intros [= ->]|now intros ->].
  - destruct l as [|b l]; [split; discriminate|].
    destruct (N.eqb_spec a b) as [->|Hne].
    + rewrite IH. split; [now intros ->|now intros [= ->]].
    + split; [discriminate|]. intros [= -> _]. contradiction.
Qed.

Lemma no_line_terminator_app (a b : jsstring) :
  no_line_terminator (a ++ b) = no_line_terminator a && no_line_terminator b.
Proof. apply forallb_app. Qed.

(** The first pattern at the start of a line. *)
Lemma match_bare_line (stem l rest : jsstring) :
  no_line_terminator stem = true -> no_line_terminator l = true -> line_rest rest ->
  match_bare stem (l ++ rest)
  = if is_bare_segment stem l then Some (length l) else None.
Proof.
  intros Hstem Hl Hrest. unfold match_bare, is_bare_segment.
  rewrite strip_prefix_line by assumption.
  destruct (strip_prefix stem l) as [r|] eqn:Hr; [|reflexivity]. cbn.
  rewrite span_digits_line by assumption.
  destruct (span_digits_split r) as (d & Hsplit & Hn & _).
  destruct (span_digits r) as [n r'] eqn:Hd. cbn in Hsplit, Hn.
  destruct n as [|n]; [reflexivity|].
  rewrite strip_prefix_line by (reflexivity || assumption).
  apply strip_prefix_Some in Hr.
  destruct (strip_prefix (js ".ts") r') as [r''|] eqn:Ht; cbn.
  - apply strip_prefix_Some in Ht.
    destruct r'' as [|c r'']; cbn.
    + rewrite app_nil_r in Ht.
      rewrite (line_rest_at_line_end _ Hrest).
      rewrite bool_decide_eq_true_2 by exact Ht.
      f_equal. rewrite Hr, Hsplit, Ht, !length_app, Hn.
      change (length (js ".ts")) with 3%nat. lia.
    + assert (Hc : isLineTerminator c = false).
      { rewrite Hr, Hsplit, Ht in Hl. rewrite !no_line_terminator_app in Hl.
        cbn in Hl. rewrite !andb_true_iff in Hl.
        destruct Hl as (_ & _ & _ & Hl & _). now apply negb_true_iff in Hl. }
      rewrite Hc. rewrite bool_decide_eq_false_2; [reflexivity|].
      intros E. rewrite E in Ht. apply (f_equal (@length N)) in Ht.
      rewrite length_app in Ht. cbn in Ht. lia.
  - rewrite bool_decide_eq_false_2; [reflexivity|].
    intros ->. discriminate.
Qed.

(** The second pattern at the start of a line. *)
Lemma match_prefixed_line (stem l rest : jsstring) :
  no_line_terminator stem = true -> no_line_terminator l = true -> line_rest rest ->
  match_prefixed stem (l ++ rest)
  = if is_prefixed_segment stem l then Some (length l) else None.
Proof.
  intros Hstem Hl Hrest. induction l as [|c l IH]; cbn.
  - destruct Hrest as [->|[r ->]]; reflexivity.
  - cbn in Hl. apply andb_true_iff in Hl as [Hc Hl]. specialize (IH Hl).
    unfold isPrefixChar.
    assert (Hnl : (c =? CH_NL) = false).
    { apply negb_true_iff in Hc. unfold isLineTerminator in Hc.
      now rewrite !orb_false_iff in Hc. }
    rewrite Hnl. cbn [negb]. rewrite andb_true_r.
    destruct (c =? CH_SLASH); cbn; [reflexivity|].
    rewrite IH, match_bare_line by assumption.
    destruct (is_prefixed_segment stem l); cbn; [reflexivity|].
    destruct (is_bare_segment stem l); reflexivity.
Qed.

(** No match starts at a line feed. *)
Lemma exec_at_line_feed (pat : SegmentPattern) (prev : option N) (rest : jsstring) :
  no_line_terminator (pattern_stem pat) = true ->
  match exec_at pat prev (CH_NL :: rest) with
  | Some (S _) => False
  | _ => True
  end.
Proof.
  intros Hstem. unfold exec_at. destruct (at_line_start prev); [|exact I].
  destruct pat as [stem|stem]; cbn in Hstem.
  - unfold match_bare. destruct stem as [|a stem]; cbn; [exact I|].
    cbn in Hstem. apply andb_true_iff in Hstem as [Ha _].
    destruct (N.eqb_spec a CH_NL) as [->|_]; [discriminate|exact I].
  - exact I.
Qed.

Lemma line_matches_nil (pat : SegmentPattern) : line_matches pat [] = false.
Proof. destruct pat as [[|a stem]|stem]; reflexivity. Qed.

Lemma exec_at_line (pat : SegmentPattern) (prev : option N) (l rest : jsstring) :
  no_line_terminator (pattern_stem pat) = true ->
  no_line_terminator l = true -> line_rest rest ->
  at_line_start prev = true ->
  exec_at pat prev (l ++ rest)
  = if line_matches pat l then Some (length l) else None.
Proof.
  intros Hstem Hl Hrest Hprev. unfold exec_at. rewrite Hprev.
  destruct pat as [stem|stem]; cbn in *.
  - now apply match_bare_line.
  - now apply match_prefixed_line.
Qed.

(** The replacement text [baseUrl + '$1'] for a base URL without a
    dollar sign: the base URL and the match. *)
Lemma getSubstitution_base (baseUrl matched before after : jsstring) :
  no_dollar baseUrl = true ->
  getSubstitution matched before after (baseUrl ++ js "$1") = baseUrl ++ matched.
Proof.
  intros Hb. induction baseUrl as [|c b IH]; cbn.
  - change (js "$1") with [36; 49]. cbn. now rewrite app_nil_r.
  - cbn in Hb. apply andb_true_iff in Hb as [Hc Hb].
    apply negb_true_iff in Hc. rewrite Hc. now rewrite IH.
Qed.

Section OnePass.

Variable pat : SegmentPattern.
Variable baseUrl : jsstring.
Hypothesis stem_plain : no_line_terminator (pattern_stem pat) = true.
Hypothesis base_plain : no_dollar baseUrl = true.

Local Abbreviation tmpl := (baseUrl ++ js "$1").

(** Inside a match nothing is tried. *)
Lemma replace_scan_skip (l before_rev rest : jsstring) :
  replace_scan pat tmpl before_rev (length l) (l ++ rest)
  = replace_scan pat tmpl (rev l ++ before_rev) O rest.
Proof.
  revert before_rev. induction l as [|c l IH]; intros b; cbn.
  - now destruct rest.
  - rewrite IH. now rewrite <- app_assoc.
Qed.

(** Inside a line, away from its start, nothing matches. *)
Lemma replace_scan_mid_line (l before_rev rest : jsstring) :
  at_line_start (head before_rev) = false ->
  no_line_terminator l = true ->
  replace_scan pat tmpl before_rev O (l ++ rest)
  = l ++ replace_scan pat tmpl (rev l ++ before_rev) O rest.
Proof.
  revert before_rev. induction l as [|c l IH]; intros b Hb Hl; [reflexivity|].
  cbn in Hl. apply andb_true_iff in Hl as [Hc Hl].
  cbn [app replace_scan]. unfold exec_at at 1. rewrite Hb.
  rewrite IH; [|apply negb_true_iff in Hc; exact Hc|exact Hl].
  cbn. now rewrite <- app_assoc.
Qed.

(** A whole line, from its start. *)
Lemma replace_scan_line (l before_rev rest : jsstring) :
  at_line_start (head before_rev) = true ->
  no_line_terminator l = true -> line_rest rest ->
  replace_scan pat tmpl before_rev O (l ++ rest)
  = line_image pat baseUrl l ++ replace_scan pat tmpl (rev l ++ before_rev) O rest.
Proof.
  intros Hb Hl Hrest. unfold line_image.
  destruct l as [|c l].
  - rewrite line_matches_nil. reflexivity.
  - pose proof (exec_at_line pat (head before_rev) (c :: l) rest stem_plain Hl Hrest Hb)
      as Hexec.
    cbn [app replace_scan] in *. rewrite Hexec.
    cbn in Hl. apply andb_true_iff in Hl as [Hc Hl].
    destruct (line_matches pat (c :: l)).
    + cbn [length]. rewrite getSubstitution_base by exact base_plain.
      rewrite replace_scan_skip.
      change (c :: l ++ rest) with ((c :: l) ++ rest).
      rewrite take_app_length'  by reflexivity.
      cbn. now rewrite <- !app_assoc.
    + rewrite replace_scan_mid_line; [|apply negb_true_iff in Hc; exact Hc|exact Hl].
      cbn. now rewrite <- !app_assoc.
Qed.

(** All the lines of a text. *)
Lemma replace_scan_lines (ls : list jsstring) (before_rev : jsstring) :
  at_line_start (head before_rev) = true ->
  forallb no_line_terminator ls = true ->
  replace_scan pat tmpl before_rev O (join_lines ls)
  = join_lines (List.map (line_image pat baseUrl) ls).
Proof.
  revert before_rev. induction ls as [|l ls IH]; intros b Hb Hls; [reflexivity|].
  cbn in Hls. apply andb_true_iff in Hls as [Hl Hls].
  destruct ls as [|l2 ls].
  - cbn [join_lines List.map]. rewrite <- (app_nil_r l) at 1.
    rewrite replace_scan_line; [|exact Hb|exact Hl|now left].
    cbn. now rewrite app_nil_r.
  - change (join_lines (l :: l2 :: ls)) with (l ++ CH_NL :: join_lines (l2 :: ls)).
    rewrite replace_scan_line; [|exact Hb|exact Hl|right; eauto].
    change (join_lines (List.map (line_image pat baseUrl) (l :: l2 :: ls)))
      with (line_image pat baseUrl l ++ CH_NL
              :: join_lines (List.map (line_image pat baseUrl) (l2 :: ls))).
    f_equal.
    pose proof (exec_at_line_feed pat (head (rev l ++ b)) (join_lines (l2 :: ls)) stem_plain)
      as Hlf.
    cbn [replace_scan].
    destruct (exec_at pat (head (rev l ++ b)) (CH_NL :: join_lines (l2 :: ls)))
      as [[|m]|]; try contradiction; (f_equal; apply IH; [reflexivity|exact Hls]).
Qed.

Lemma replace_global_lines (ls : list jsstring) :
  forallb no_line_terminator ls = true ->
  replace_global pat tmpl (join_lines ls)
  = join_lines (List.map (line_image pat baseUrl) ls).
Proof. intros H. now apply replace_scan_lines. Qed.

End OnePass.

(** *** Lines of a text *)

Lemma split_on_not_nil (sep : N) (s : jsstring) : split_on sep s <> [].
Proof.
  destruct s as [|c s]; cbn; [discriminate|].
  destruct (c =? sep); [discriminate|]. now destruct (split_on sep s).
Qed.

Lemma join_lines_cons (l : jsstring) (ls : list jsstring) :
  ls <> [] -> join_lines (l :: ls) = l ++ CH_NL :: join_lines ls.
Proof. destruct ls; [contradiction|reflexivity]. Qed.

Lemma join_split_lines (text : jsstring) :
  join_lines (split_on CH_NL text) = text.
Proof.
  induction text as [|c text IH]; [reflexivity|]. cbn [split_on].
  destruct (N.eqb_spec c CH_NL) as [->|Hne].
  - rewrite join_lines_cons by apply split_on_not_nil. now rewrite IH.
  - pose proof (split_on_not_nil CH_NL text) as Hnn.
    destruct (split_on CH_NL text) as [|l ls]; [contradiction|].
    destruct ls as [|l2 ls]; cbn in *; now rewrite <- IH.
Qed.

Lemma split_lines_plain (text : jsstring) :
  lf_only text = true ->
  forallb no_line_terminator (split_on CH_NL text) = true.
Proof.
  induction text as [|c text IH]; [reflexivity|]. cbn [lf_only forallb split_on].
  intros H. apply andb_true_iff in H as [Hc H]. specialize (IH H).
  destruct (N.eqb_spec c CH_NL) as [->|Hne]; [exact IH|].
  pose proof (split_on_not_nil CH_NL text) as Hnn.
  destruct (split_on CH_NL text) as [|l ls]; [contradiction|].
  cbn [forallb] in *. apply andb_true_iff in IH as [Hl Hls]. rewrite Hls, andb_true_r.
  unfold no_line_terminator. cbn [forallb]. fold (no_line_terminator l). rewrite Hl, andb_true_r.
  apply orb_true_iff in Hc as [Hc|Hc]; [exact Hc|discriminate].
Qed.

(** *** Segment lines *)

Lemma no_slash_cons (c : N) (s : jsstring) :
  no_slash (c :: s) = negb (c =? CH_SLASH) && no_slash s.
Proof. reflexivity. Qed.

Lemma forallb_isDigit_no_slash (d : jsstring) :
  forallb isDigit d = true -> no_slash d = true.
Proof.
  induction d as [|c d IH]; [reflexivity|]. cbn [forallb]. rewrite no_slash_cons.
  intros H. apply andb_true_iff in H as [Hc H]. rewrite (IH H), andb_true_r.
  unfold isDigit in Hc. apply andb_true_iff in Hc as [Hlo _].
  apply N.leb_le in Hlo. apply negb_true_iff. apply N.eqb_neq.
  unfold CH_SLASH. lia.
Qed.

Lemma span_digits_digits (d r : jsstring) :
  forallb isDigit d = true ->
  match r with [] => True | c :: _ => isDigit c = false end ->
  span_digits (d ++ r) = (length d, r).
Proof.
  intros Hd Hr. induction d as [|c d IH]; cbn.
  - destruct r as [|c r]; [reflexivity|]. cbn. now rewrite Hr.
  - cbn in Hd. apply andb_true_iff in Hd as [Hc Hd]. rewrite Hc, (IH Hd). reflexivity.
Qed.

(** A bare segment line, in words: the stem, some digits, [.ts]. *)
Lemma is_bare_segment_true (stem l : jsstring) :
  is_bare_segment stem l = true <->
  exists d, d <> [] /\ forallb isDigit d = true /\ l = stem ++ d ++ js ".ts".
Proof.
  unfold is_bare_segment. split.
  - destruct (strip_prefix stem l) as [r|] eqn:Hr; [|discriminate].
    apply strip_prefix_Some in Hr.
    destruct (span_digits_split r) as (d & Hsplit & Hn & Hd).
    destruct (span_digits r) as [n r']. cbn in Hsplit, Hn.
    destruct n as [|n]; [discriminate|].
    intros H. apply bool_decide_eq_true in H. subst r'.
    exists d. split; [now destruct d|]. split; [exact Hd|congruence].
  - intros (d & Hne & Hd & ->).
    rewrite (proj2 (strip_prefix_Some stem (stem ++ d ++ js ".ts") (d ++ js ".ts")) eq_refl).
    rewrite span_digits_digits; [|exact Hd|reflexivity].
    destruct d; [contradiction|]. cbn. now apply bool_decide_eq_true.
Qed.

Lemma no_slash_app (a b : jsstring) :
  no_slash (a ++ b) = no_slash a && no_slash b.
Proof. apply forallb_app. Qed.

Lemma is_bare_segment_no_slash (stem l : jsstring) :
  no_slash stem = true -> is_bare_segment stem l = true -> no_slash l = true.
Proof.
  intros Hs H. apply is_bare_segment_true in H as (d & _ & Hd & ->).
  rewrite !no_slash_app, Hs, (forallb_isDigit_no_slash d Hd). reflexivity.
Qed.

Lemma is_prefixed_segment_no_slash (stem l : jsstring) :
  no_slash stem = true -> is_prefixed_segment stem l = true -> no_slash l = true.
Proof.
  intros Hs. induction l as [|c l IH]; [reflexivity|]. cbn.
  intros H. apply andb_true_iff in H as [Hc H]. rewrite Hc. cbn.
  apply orb_true_iff in H as [H|H]; [now apply IH|].
  now apply (is_bare_segment_no_slash stem).
Qed.

(** A segment line is matched by one of the two patterns. *)
Lemma is_segment_line_patterns (stem l : jsstring) :
  no_slash stem = true ->
  is_segment_line stem l = is_bare_segment stem l || is_prefixed_segment stem l.
Proof.
  intros Hs. unfold is_segment_line. induction l as [|c l IH].
  - cbn. now rewrite orb_false_r.
  - cbn [no_slash forallb has_segment_suffix is_prefixed_segment].
    fold (no_slash l).
    destruct (is_bare_segment stem (c :: l)) eqn:Hb.
    + apply (is_bare_segment_no_slash stem) in Hb; [|exact Hs].
      cbn in Hb. fold (no_slash l) in Hb. now rewrite Hb.
    + cbn [orb]. rewrite <- andb_assoc, IH. now rewrite orb_comm.
Qed.

(** A segment line, in words. *)
Lemma is_segment_line_true (stem l : jsstring) :
  is_segment_line stem l = true <->
  no_slash l = true
  /\ exists p d, d <> [] /\ forallb isDigit d = true /\ l = p ++ stem ++ d ++ js ".ts".
Proof.
  unfold is_segment_line. rewrite andb_true_iff.
  apply and_iff_compat_l.
  induction l as [|c l IH]; cbn [has_segment_suffix]; rewrite orb_true_iff.
  - rewrite is_bare_segment_true. split.
    + intros [(d & H1 & H2 & H3)|H]; [|discriminate]. exists [], d. auto.
    + intros (p & d & H1 & H2 & H3). left. exists d.
      destruct p; [auto|discriminate].
  - rewrite is_bare_segment_true, IH. split.
    + intros [(d & H1 & H2 & H3)|(p & d & H1 & H2 & H3)].
      * exists [], d. auto.
      * exists (c :: p), d. cbn. split; [auto|]. split; [auto|congruence].
    + intros (p & d & H1 & H2 & H3). destruct p as [|c' p].
      * left. exists d. auto.
      * right. injection H3 as -> H3. exists p, d. auto.
Qed.

(** *** The two replacements together *)

Lemma no_line_terminator_line_image (pat : SegmentPattern) (baseUrl l : jsstring) :
  no_line_terminator baseUrl = true -> no_line_terminator l = true ->
  no_line_terminator (line_image pat baseUrl l) = true.
Proof.
  intros Hb Hl. unfold line_image. destruct (line_matches pat l); [|exact Hl].
  now rewrite no_line_terminator_app, Hb, Hl.
Qed.

Lemma has_slash_no_slash (s : jsstring) : has_slash s = negb (no_slash s).
Proof.
  induction s as [|c s IH]; [reflexivity|]. cbn. fold (has_slash s) (no_slash s).
  rewrite IH. now destruct (c =? CH_SLASH), (no_slash s).
Qed.

(** The second replacement leaves alone what the first one produced. *)
Lemma both_line_images (stem baseUrl l : jsstring) :
  no_slash stem = true -> has_slash baseUrl = true ->
  line_image (PatPrefixed stem) baseUrl (line_image (PatBare stem) baseUrl l)
  = rewrite_line stem baseUrl l.
Proof.
  intros Hs Hb. unfold rewrite_line, line_image. cbn [line_matches].
  rewrite (is_segment_line_patterns stem l Hs).
  destruct (is_bare_segment stem l) eqn:Hbare; cbn [orb].
  - destruct (is_prefixed_segment stem (baseUrl ++ l)) eqn:Hp; [|reflexivity].
    apply (is_prefixed_segment_no_slash stem) in Hp; [|exact Hs].
    rewrite no_slash_app in Hp. apply andb_true_iff in Hp as [Hp _].
    rewrite has_slash_no_slash, Hp in Hb. discriminate.
  - reflexivity.
Qed.


Lemma url_plain_app (a b : jsstring) :
  url_plain (a ++ b) = url_plain a && url_plain b.
Proof.
  unfold url_plain, no_dollar, no_line_terminator. rewrite !forallb_app.
  repeat match goal with |- context [forallb ?f ?l] => generalize (forallb f l); intro end.
  repeat match goal with b : bool |- _ => destruct b end; reflexivity.
Qed.

Lemma baseUrlOf_plain (protocol host userId challengeNum : jsstring) :
  url_plain protocol = true -> url_plain host = true ->
  url_plain userId = true -> url_plain challengeNum = true ->
  url_plain (baseUrlOf protocol host userId challengeNum) = true.
Proof.
  intros Hp Hh Hu Hc. unfold baseUrlOf.
  rewrite !url_plain_app, Hp, Hh, Hu, Hc. reflexivity.
Qed.

Lemma baseUrlOf_has_slash (protocol host userId challengeNum : jsstring) :
  has_slash (baseUrlOf protocol host userId challengeNum) = true.
Proof.
  unfold baseUrlOf, has_slash. rewrite !existsb_app.
  change (existsb (fun c => c =? CH_SLASH) (js "://")) with true.
  cbn [orb]. now rewrite orb_true_r.
Qed.

(** C5, as the code has it: on a manifest whose line breaks are line
    feeds, with a base URL free of dollar signs and line terminators, the
    two replacements together work line by line: a line that has no
    slash and ends in the stem, digits and [.ts] gets the base URL in
    front, whatever precedes the stem on it, and every other line is the
    same in the output.  The result is a function of the text and the
    base URL. *)
Theorem rewriteManifest_line_by_line
    (stem protocol host userId challengeNum text : jsstring) :
  no_line_terminator stem = true ->
  no_slash stem = true ->
  url_plain protocol = true ->
  url_plain host = true ->
  url_plain userId = true ->
  url_plain challengeNum = true ->
  lf_only text = true ->
  rewriteManifest stem (baseUrlOf protocol host userId challengeNum) text
  = rewrite_lines stem (baseUrlOf protocol host userId challengeNum) text.
Proof.
  intros Hstem Hslash Hp Hh Hu Hc Htext.
  pose proof (baseUrlOf_plain _ _ _ _ Hp Hh Hu Hc) as Hbase.
  apply andb_true_iff in Hbase as [Hdollar Hlt].
  pose proof (baseUrlOf_has_slash protocol host userId challengeNum) as Hhas.
  set (baseUrl := baseUrlOf protocol host userId challengeNum) in *.
  unfold rewriteManifest, rewrite_lines. cbn zeta.
  pose proof (split_lines_plain text Htext) as Hlines.
  rewrite <- (join_split_lines text) at 1.
  rewrite (replace_global_lines (PatBare stem) baseUrl Hstem Hdollar _ Hlines).
  rewrite (replace_global_lines (PatPrefixed stem) baseUrl Hstem Hdollar).
  - rewrite List.map_map. f_equal. apply List.map_ext.
    intros l. now apply both_line_images.
  - clear - Hlines Hlt. induction (split_on CH_NL text) as [|l ls IH]; [reflexivity|].
    cbn [forallb List.map] in *. apply andb_true_iff in Hlines as [Hl Hls].
    rewrite (IH Hls), andb_true_r. now apply no_line_terminator_line_image.
Qed.

End Rewriter.

Lemma rewriteManifest_line_by_line_witness :
  no_line_terminator LIVE_STEM = true
  /\ no_slash LIVE_STEM = true
  /\ url_plain (js "https") = true
  /\ url_plain (js "h.example") = true
  /\ url_plain (js "u1") = true
  /\ url_plain (js "5") = true
  /\ lf_only (js "#EXTM3U
#EXTINF:2.000000,
segment_000.ts
") = true
  /\ rewriteManifest LIVE_STEM (baseUrlOf (js "https") (js "h.example") (js "u1") (js "5"))
       (js "#EXTM3U
#EXTINF:2.000000,
segment_000.ts
")
     = rewrite_lines LIVE_STEM (baseUrlOf (js "https") (js "h.example") (js "u1") (js "5"))
         (js "#EXTM3U
#EXTINF:2.000000,
segment_000.ts
").
Proof.
  repeat (split; [reflexivity|]).
  apply rewriteManifest_line_by_line; reflexivity.
Defined.

(** The rewritten manifest of this sample, spelled out. *)
Example rewriteManifest_sample :
  rewriteManifest LIVE_STEM (baseUrlOf (js "https") (js "h.example") (js "u1") (js "5"))
    (js "#EXTM3U
#EXTINF:2.000000,
segment_000.ts
")
  = js "#EXTM3U
#EXTINF:2.000000,
https://h.example/recordings/u1_5/segment_000.ts
".
Proof. vm_compute. reflexivity. Qed.

(** C5 does not hold as stated: a directive line that ends like a segment
    name is rewritten, and a segment name behind a directory prefix is
    not. *)
Lemma rewriteManifest_directive_and_directory_lines :
  rewriteManifest LIVE_STEM (js "http://h/recordings/u1_5/") (js "#EXT-X-NOTE:segment_0.ts")
    = js "http://h/recordings/u1_5/#EXT-X-NOTE:segment_0.ts"
  /\ rewriteManifest LIVE_STEM (js "http://h/recordings/u1_5/") (js "u1_5/segment_0.ts")
    = js "u1_5/segment_0.ts".
Proof. split; vm_compute; reflexivity. Qed.

(** A dollar sign in the base URL is read as part of a replacement
    pattern. *)
Example rewriteManifest_dollar :
  rewriteManifest LIVE_STEM (baseUrlOf (js "http") (js "h") (js "$$") (js "5"))
    (js "segment_0.ts")
  = js "http://h/recordings/$_5/segment_0.ts".
Proof. vm_compute. reflexivity. Qed.

(** With a carriage return as line break the second pattern spans lines. *)
Example rewriteManifest_carriage_return :
  rewriteManifest LIVE_STEM (js "http://h/r/k/")
    [35; 88; 13; 120; 115; 101; 103; 109; 101; 110; 116; 95; 48; 46; 116; 115]%N
  = js "http://h/r/k/" ++
    [35; 88; 13; 120; 115; 101; 103; 109; 101; 110; 116; 95; 48; 46; 116; 115]%N.
Proof. vm_compute. reflexivity. Qed.

(** ** The model on the sample data *)


Lemma stop_stream_without_session_witness :
  let s := run plain_join SAMPLE_DIR base64_bytes sample_open_close (init_state ∅ 0) in
  activeStreams s !! getStreamKey SAMPLE_USER SAMPLE_CHALLENGE = None
  /\ activeStreams (on_stop_stream SAMPLE_SOCKET SAMPLE_USER SAMPLE_CHALLENGE s)
     = activeStreams s
  /\ files (on_stop_stream SAMPLE_SOCKET SAMPLE_USER SAMPLE_CHALLENGE s) = files s.
Proof.
  cbn zeta.
  assert (H : activeStreams
                (run plain_join SAMPLE_DIR base64_bytes sample_open_close (init_state ∅ 0))
              !! getStreamKey SAMPLE_USER SAMPLE_CHALLENGE = None)
    by (vm_compute; reflexivity).
  split; [exact H|].
  destruct (stop_stream_without_session SAMPLE_SOCKET SAMPLE_USER SAMPLE_CHALLENGE _ H)
    as (Ha & Hf & _).
  split; [exact Ha|exact Hf].
Defined.

(** C8 does not hold as stated: a stop for a key without a session is seen
    and acts: the client gets [stream-stopped], and the encoder that the
    warm-up timer started after the session was gone is signalled and
    unregistered. *)
Lemma stop_stream_without_session_has_effects :
  let s := run plain_join SAMPLE_DIR base64_bytes (sample_open_close ++ [EvTimer 0])
             (init_state ∅ 0) in
  let s' := on_stop_stream SAMPLE_SOCKET SAMPLE_USER SAMPLE_CHALLENGE s in
  activeStreams s !! getStreamKey SAMPLE_USER SAMPLE_CHALLENGE = None
  /\ s' <> s
  /\ out s' = out s ++ [ConsoleLog (js "Stopping stream: u1_5");
                        SocketEmit SAMPLE_SOCKET (js "stream-stopped") None]
  /\ ffmpegProcesses s !! SAMPLE_KEY = Some 0
  /\ ffmpegProcesses s' !! SAMPLE_KEY = None
  /\ p_signals <$> procs s !! 0 = Some []
  /\ p_signals <$> procs s' !! 0 = Some [js "SIGTERM"].
Proof.
  cbn zeta. split; [vm_compute; reflexivity|]. split.
  - intros E. apply (f_equal (fun st => length (out st))) in E. vm_compute in E. discriminate.
  - repeat split; vm_compute; reflexivity.
Qed.

(** A command that has exited is sent nothing: the session is stopped
    before the warm-up timer starts its encoder, the encoder fails, and the
    second stop finds the exited command under the key. *)
Example stop_stream_exited_encoder_gets_no_signal :
  let s := run plain_join SAMPLE_DIR base64_bytes
             (sample_open_close ++ [EvTimer 0; EvProcError 0 (js "ffmpeg exited with code 1")])
             (init_state ∅ 0) in
  let s' := on_stop_stream SAMPLE_SOCKET SAMPLE_USER SAMPLE_CHALLENGE s in
  activeStreams s !! SAMPLE_KEY = None
  /\ ffmpegProcesses s !! SAMPLE_KEY = Some 0
  /\ p_running <$> procs s !! 0 = Some false
  /\ procs s' = procs s
  /\ p_signals <$> procs s' !! 0 = Some []
  /\ ffmpegProcesses s' !! SAMPLE_KEY = None.
Proof. cbn zeta. repeat split; vm_compute; reflexivity. Qed.

(** The scenario of the specification, with small chunks. *)
Example ingest_three_chunks :
  let s := run plain_join SAMPLE_DIR base64_bytes
             [ EvStartStream SAMPLE_SOCKET SAMPLE_USER SAMPLE_CHALLENGE;
               EvStreamChunk SAMPLE_SOCKET SAMPLE_USER SAMPLE_CHALLENGE (js "TWFu");
               EvStreamChunk SAMPLE_SOCKET SAMPLE_USER SAMPLE_CHALLENGE (js "TWE=");
               EvStreamChunk SAMPLE_SOCKET SAMPLE_USER SAMPLE_CHALLENGE (js "TQ==");
               EvStopStream SAMPLE_SOCKET SAMPLE_USER SAMPLE_CHALLENGE ]
             (init_state ∅ 0) in
  content_of SAMPLE_INPUT s = js "ManMaM".
Proof. vm_compute. reflexivity. Qed.


(** In that state the answer is the in-progress one. *)
Example second_request_in_progress :
  let s := run plain_join SAMPLE_DIR base64_bytes [EvGetTimelapse (sample_request 1)]
             (init_state sample_recording 0) in
  out (route_timelapse plain_join SAMPLE_DIR (sample_request 2) s)
  = out s ++ [HttpSend 2 (RespGenerating SAMPLE_USER SAMPLE_CHALLENGE)].
Proof. vm_compute. reflexivity. Qed.




(** C2 on the code: with a recording newer than the cached manifest, the
    route answers 200 with the cached manifest and starts nothing, although
    [generateTimelapse], called on the same state, would start the
    encoder; the same happens after a capture was recorded anew over an
    earlier run. *)
Theorem stale_timelapse_cache_is_served :
  let s := init_state sample_stale_cache 5000 in
  let s' := route_timelapse plain_join SAMPLE_DIR (sample_request 1) s in
  let t := run plain_join SAMPLE_DIR base64_bytes sample_rerecord
             (init_state sample_earlier_run 0) in
  let t' := handle plain_join SAMPLE_DIR base64_bytes (EvGetTimelapse (sample_request 1)) t in
  (existsSync SAMPLE_INPUT s = true
   /\ existsSync SAMPLE_TIMELAPSE s = true
   /\ (mtime_of SAMPLE_TIMELAPSE s < mtime_of SAMPLE_INPUT s)%Z
   /\ out s' = [HttpSend 1 (RespManifest sample_manifest_rewritten)]
   /\ procs s' = []
   /\ timelapseProcesses s' = ∅
   /\ length (procs (generateTimelapse plain_join SAMPLE_DIR SAMPLE_USER SAMPLE_CHALLENGE
                       (sample_request 1) s)) = 1)
  /\ (mtime_of SAMPLE_TIMELAPSE t = 1000%Z
      /\ mtime_of SAMPLE_INPUT t = 3000%Z
      /\ content_of SAMPLE_INPUT t = js "Man"
      /\ last (out t') = Some (HttpSend 1 (RespManifest sample_manifest_rewritten))
      /\ procs t' = []
      /\ timelapseProcesses t' = ∅).
Proof. cbn zeta. repeat split; vm_compute; reflexivity. Qed.

(** C7 on the code: the restarted live encoder has no [error] listener;
    when it reports an error the host goes down. *)
Theorem restarted_encoder_error_crashes_host :
  let s := run plain_join SAMPLE_DIR base64_bytes sample_restarted (init_state ∅ 0) in
  crashed s = false
  /\ p_running <$> procs s !! 1 = Some true
  /\ p_on_error <$> procs s !! 1 = Some None
  /\ ffmpegProcesses s !! SAMPLE_KEY = Some 1
  /\ crashed (handle plain_join SAMPLE_DIR base64_bytes
                (EvProcError 1 (js "ffmpeg exited with code 1")) s) = true
  /\ crashed (run plain_join SAMPLE_DIR base64_bytes
                [ EvStopStream SAMPLE_SOCKET SAMPLE_USER SAMPLE_CHALLENGE;
                  EvProcError 1 (js "ffmpeg was killed with signal SIGTERM") ] s) = true.
Proof. cbn zeta. repeat split; vm_compute; reflexivity. Qed.

(** ** Scheme resolution *)

Lemma trimStart_split (s : jsstring) :
  exists p, s = p ++ trimStart s /\ forallb isTrimmed p = true.
Proof.
  induction s as [|c s (p & Hs & Hp)]; [exists []; auto|]. cbn.
  destruct (isTrimmed c) eqn:Hc; [|exists []; auto].
  exists (c :: p). cbn. rewrite Hc, Hp. split; [congruence|reflexivity].
Qed.

Lemma trimStart_head (s : jsstring) (c : N) :
  head (trimStart s) = Some c -> isTrimmed c = false.
Proof.
  induction s as [|a s IH]; cbn; [discriminate|].
  destruct (isTrimmed a) eqn:Ha; [exact IH|]. cbn. now intros [= <-].
Qed.

(** What [trim] gives is what is left of the text between a run of white
    space at the front and one at the back, and it neither starts nor ends
    with white space. *)
Lemma trim_split (s : jsstring) :
  exists a b,
    s = a ++ trim s ++ b
    /\ forallb isTrimmed a = true /\ forallb isTrimmed b = true
    /\ (forall c, head (trim s) = Some c -> isTrimmed c = false)
    /\ (forall c, last (trim s) = Some c -> isTrimmed c = false).
Proof.
  unfold trim.
  destruct (trimStart_split s) as (a & Hs & Ha).
  destruct (trimStart_split (rev (trimStart s))) as (q & Hr & Hq).
  set (t := trimStart s) in *. set (u := trimStart (rev t)) in *.
  assert (Ht : t = rev u ++ rev q).
  { rewrite <- (rev_involutive t), Hr, rev_app_distr. reflexivity. }
  exists a, (rev q). split; [now rewrite <- Ht|]. split; [exact Ha|]. split.
  { rewrite forallb_forall in *. intros x Hx. apply Hq. now apply in_rev. }
  split.
  - intros c Hc. apply (trimStart_head s c). fold t. rewrite Ht.
    destruct (rev u); [discriminate|exact Hc].
  - intros c Hc. apply (trimStart_head (rev t) c). fold u.
    apply last_Some in Hc as [l' Hc]. apply (f_equal (@rev N)) in Hc.
    rewrite rev_involutive, rev_app_distr in Hc. cbn in Hc. now rewrite Hc.
Qed.

Lemma split_on_first (sep : N) (s : jsstring) :
  exists rest,
    s = hd [] (split_on sep s) ++ rest
    /\ existsb (N.eqb sep) (hd [] (split_on sep s)) = false
    /\ (rest = [] \/ head rest = Some sep).
Proof.
  induction s as [|c s (rest & Hs & Hno & Hrest)]; [exists []; auto|].
  cbn [split_on]. destruct (N.eqb_spec c sep) as [->|Hne].
  - exists (sep :: s). cbn. auto.
  - exists rest. pose proof (split_on_not_nil sep s) as Hnn.
    destruct (split_on sep s) as [|l ls]; [contradiction|]. cbn in *.
    split; [congruence|]. split; [|exact Hrest].
    rewrite Hno, orb_false_r. apply N.eqb_neq. congruence.
Qed.

(** X15: With a forwarded-protocol header that is not empty, the scheme is the
    header's text before its first comma without the white space around
    it: the header is white space, the scheme, white space, and then
    nothing or a comma and more; the scheme holds no comma and neither
    starts nor ends with white space; the connection's own state is not
    looked at. *)
Theorem getProtocol_forwarded (req : Request) (h : jsstring) :
  req_forwardedProto req = Some h ->
  (0 < length h)%nat ->
  exists a b rest,
    h = a ++ getProtocol req ++ b ++ rest
    /\ forallb isTrimmed a = true
    /\ forallb isTrimmed b = true
    /\ (rest = [] \/ head rest = Some CH_COMMA)
    /\ existsb (N.eqb CH_COMMA) (getProtocol req) = false
    /\ (forall c, head (getProtocol req) = Some c -> isTrimmed c = false)
    /\ (forall c, last (getProtocol req) = Some c -> isTrimmed c = false).
Proof.
  intros Hh Hlen. unfold getProtocol. rewrite Hh.
  destruct h as [|c0 h0]; [cbn in Hlen; lia|].
  set (h := c0 :: h0) in *.
  destruct (split_on_first CH_COMMA h) as (rest & Hs & Hno & Hrest).
  destruct (trim_split (hd [] (split_on CH_COMMA h))) as (a & b & Ht & Ha & Hb & Hhd & Hlast).
  exists a, b, rest.
  split; [rewrite Hs at 1; rewrite Ht at 1; now rewrite <- !app_assoc|].
  split; [exact Ha|]. split; [exact Hb|]. split; [exact Hrest|].
  split; [|split; assumption].
  rewrite Ht in Hno. rewrite !existsb_app in Hno.
  apply orb_false_iff in Hno as [_ Hno]. now apply orb_false_iff in Hno as [Hno _].
Qed.

Lemma getProtocol_forwarded_witness :
  let req := {| req_id := 0; req_userId := SAMPLE_USER; req_challengeNum := SAMPLE_CHALLENGE;
                req_host := js "h.example"; req_forwardedProto := Some (js " https , http");
                req_secure := false; req_protocol := js "http" |} in
  req_forwardedProto req = Some (js " https , http")
  /\ (0 < length (js " https , http"))%nat
  /\ getProtocol req = js "https"
  /\ exists a b rest,
       js " https , http" = a ++ getProtocol req ++ b ++ rest
       /\ forallb isTrimmed a = true
       /\ forallb isTrimmed b = true
       /\ (rest = [] \/ head rest = Some CH_COMMA)
       /\ existsb (N.eqb CH_COMMA) (getProtocol req) = false
       /\ (forall c, head (getProtocol req) = Some c -> isTrimmed c = false)
       /\ (forall c, last (getProtocol req) = Some c -> isTrimmed c = false).
Proof.
  cbn zeta. split; [reflexivity|]. split; [vm_compute; lia|]. split; [reflexivity|].
  apply getProtocol_forwarded; [reflexivity|vm_compute; lia].
Defined.

(** ** The rewriter applied again *)

(** The two replacements, line by line, for any base URL that has a slash
    and neither a dollar sign nor a line terminator. *)
Lemma rewriteManifest_lines (stem baseUrl text : jsstring) :
  no_line_terminator stem = true -> no_slash stem = true ->
  no_dollar baseUrl = true -> no_line_terminator baseUrl = true ->
  has_slash baseUrl = true -> lf_only text = true ->
  rewriteManifest stem baseUrl text = rewrite_lines stem baseUrl text.
Proof.
  intros Hstem Hslash Hdollar Hlt Hhas Htext.
  unfold rewriteManifest, rewrite_lines. cbn zeta.
  pose proof (split_lines_plain text Htext) as Hlines.
  rewrite <- (join_split_lines text) at 1.
  rewrite (replace_global_lines (PatBare stem) baseUrl Hstem Hdollar _ Hlines).
  rewrite (replace_global_lines (PatPrefixed stem) baseUrl Hstem Hdollar).
  - rewrite List.map_map. f_equal. apply List.map_ext.
    intros l. now apply both_line_images.
  - clear - Hlines Hlt. induction (split_on CH_NL text) as [|l ls IH]; [reflexivity|].
    cbn [forallb List.map] in *. apply andb_true_iff in Hlines as [Hl Hls].
    rewrite (IH Hls), andb_true_r. now apply no_line_terminator_line_image.
Qed.

Lemma no_line_terminator_no_lf (l : jsstring) :
  no_line_terminator l = true -> existsb (N.eqb CH_NL) l = false.
Proof.
  induction l as [|c l IH]; [reflexivity|].
  unfold no_line_terminator. cbn [forallb existsb]. fold (no_line_terminator l).
  intros H. apply andb_true_iff in H as [Hc H]. rewrite (IH H), orb_false_r.
  apply negb_true_iff in Hc. unfold isLineTerminator in Hc.
  rewrite !orb_false_iff in Hc. destruct Hc as [[[Hc _] _] _].
  rewrite N.eqb_sym. exact Hc.
Qed.

Lemma split_on_no_sep (sep : N) (l : jsstring) :
  existsb (N.eqb sep) l = false -> split_on sep l = [l].
Proof.
  induction l as [|c l IH]; [reflexivity|]. cbn [existsb split_on].
  intros H. apply orb_false_iff in H as [Hc H]. rewrite N.eqb_sym in Hc.
  now rewrite Hc, (IH H).
Qed.

Lemma split_on_app_sep (sep : N) (l rest : jsstring) :
  existsb (N.eqb sep) l = false ->
  split_on sep (l ++ sep :: rest) = l :: split_on sep rest.
Proof.
  induction l as [|c l IH]; cbn [existsb split_on app].
  - intros _. now rewrite N.eqb_refl.
  - intros H. apply orb_false_iff in H as [Hc H]. rewrite N.eqb_sym in Hc.
    now rewrite Hc, (IH H).
Qed.

(** Splitting what was joined gives the lines back. *)
Lemma split_join_lines (ls : list jsstring) :
  ls <> [] -> forallb no_line_terminator ls = true ->
  split_on CH_NL (join_lines ls) = ls.
Proof.
  induction ls as [|l ls IH]; [contradiction|]. intros _ H.
  cbn [forallb] in H. apply andb_true_iff in H as [Hl Hls].
  apply no_line_terminator_no_lf in Hl.
  destruct ls as [|l2 ls].
  - cbn [join_lines]. now apply split_on_no_sep.
  - change (join_lines (l :: l2 :: ls)) with (l ++ CH_NL :: join_lines (l2 :: ls)).
    rewrite split_on_app_sep by exact Hl. f_equal. now apply IH.
Qed.

Lemma lf_only_join_lines (ls : list jsstring) :
  forallb no_line_terminator ls = true -> lf_only (join_lines ls) = true.
Proof.
  assert (Hplain : forall l, no_line_terminator l = true -> lf_only l = true).
  { unfold no_line_terminator, lf_only.
    induction l as [|c l IH]; [reflexivity|]. cbn [forallb].
    intros H. apply andb_true_iff in H as [Hc H]. now rewrite Hc, (IH H). }
  induction ls as [|l ls IH]; [reflexivity|]. intros H.
  cbn [forallb] in H. apply andb_true_iff in H as [Hl Hls].
  destruct ls as [|l2 ls]; [now apply Hplain|].
  change (join_lines (l :: l2 :: ls)) with (l ++ CH_NL :: join_lines (l2 :: ls)).
  specialize (IH Hls). apply Hplain in Hl. unfold lf_only in *.
  rewrite forallb_app. cbn [forallb]. rewrite Hl, IH. reflexivity.
Qed.

Lemma rewrite_line_plain (stem baseUrl l : jsstring) :
  no_line_terminator baseUrl = true -> no_line_terminator l = true ->
  no_line_terminator (rewrite_line stem baseUrl l) = true.
Proof.
  intros Hb Hl. unfold rewrite_line. destruct (is_segment_line stem l); [|exact Hl].
  now rewrite no_line_terminator_app, Hb, Hl.
Qed.

(** A line that was rewritten has a slash and is not rewritten again. *)
Lemma rewrite_line_again (stem baseUrl l : jsstring) :
  has_slash baseUrl = true ->
  rewrite_line stem baseUrl (rewrite_line stem baseUrl l) = rewrite_line stem baseUrl l.
Proof.
  intros Hb. unfold rewrite_line at 2 3.
  destruct (is_segment_line stem l) eqn:Hl.
  - unfold rewrite_line, is_segment_line. rewrite no_slash_app.
    rewrite has_slash_no_slash in Hb. apply negb_true_iff in Hb. now rewrite Hb.
  - unfold rewrite_line. now rewrite Hl.
Qed.

Lemma rewrite_lines_again (stem baseUrl text : jsstring) :
  no_line_terminator baseUrl = true -> has_slash baseUrl = true -> lf_only text = true ->
  lf_only (rewrite_lines stem baseUrl text) = true
  /\ rewrite_lines stem baseUrl (rewrite_lines stem baseUrl text)
     = rewrite_lines stem baseUrl text.
Proof.
  intros Hlt Hhas Htext. unfold rewrite_lines.
  pose proof (split_lines_plain text Htext) as Hlines.
  assert (Himg : forallb no_line_terminator
                   (List.map (rewrite_line stem baseUrl) (split_on CH_NL text)) = true).
  { clear - Hlines Hlt. induction (split_on CH_NL text) as [|l ls IH]; [reflexivity|].
    cbn [forallb List.map] in *. apply andb_true_iff in Hlines as [Hl Hls].
    rewrite (IH Hls), andb_true_r. now apply rewrite_line_plain. }
  split; [now apply lf_only_join_lines|].
  rewrite split_join_lines; [|intros E; apply map_eq_nil in E;
                               now apply (split_on_not_nil CH_NL text)|exact Himg].
  rewrite List.map_map. f_equal. apply List.map_ext. intros l.
  now apply rewrite_line_again.
Qed.

(** X16: For a scheme, host, user and challenge identifier that hold neither
    a dollar sign nor a line terminator, rewriting a manifest (line feeds
    its only line breaks) that was already rewritten for the same base URL
    changes nothing: the segment lines became absolute URLs, which the
    patterns leave alone.  With a dollar sign in the base URL this fails
    ([rewriteManifest_twice_dollar]). *)
Theorem rewriteManifest_idempotent
    (stem protocol host userId challengeNum text : jsstring) :
  no_line_terminator stem = true ->
  no_slash stem = true ->
  url_plain protocol = true ->
  url_plain host = true ->
  url_plain userId = true ->
  url_plain challengeNum = true ->
  lf_only text = true ->
  let baseUrl := baseUrlOf protocol host userId challengeNum in
  rewriteManifest stem baseUrl (rewriteManifest stem baseUrl text)
  = rewriteManifest stem baseUrl text.
Proof.
  intros Hstem Hslash Hp Hh Hu Hc Htext baseUrl.
  pose proof (baseUrlOf_plain _ _ _ _ Hp Hh Hu Hc) as Hbase. fold baseUrl in Hbase.
  apply andb_true_iff in Hbase as [Hdollar Hlt].
  pose proof (baseUrlOf_has_slash protocol host userId challengeNum) as Hhas.
  fold baseUrl in Hhas.
  destruct (rewrite_lines_again stem baseUrl text Hlt Hhas Htext) as [Hlf Hagain].
  rewrite (rewriteManifest_lines stem baseUrl text) by assumption.
  rewrite (rewriteManifest_lines stem baseUrl _) by assumption.
  exact Hagain.
Qed.

(** With a user identifier that is read as a replacement pattern, a second
    rewrite changes the manifest. *)
Example rewriteManifest_twice_dollar :
  let baseUrl := baseUrlOf (js "https") (js "h.example") (js "$'") (js "5") in
  let text := js "#EXTM3U
segment_000.ts
segment_001.ts
" in
  lf_only text = true
  /\ lf_only (rewriteManifest LIVE_STEM baseUrl text) = true
  /\ rewriteManifest LIVE_STEM baseUrl (rewriteManifest LIVE_STEM baseUrl text)
     <> rewriteManifest LIVE_STEM baseUrl text.
Proof.
  cbn zeta. split; [reflexivity|]. split; [vm_compute; reflexivity|].
  vm_compute. intros E. discriminate.
Qed.

(** A line the pattern does not match is passed over, whatever the
    replacement is. *)
Lemma replace_scan_line_no_match (pat : SegmentPattern)
    (baseUrl l before_rev rest : jsstring) :
  no_line_terminator (pattern_stem pat) = true ->
  at_line_start (head before_rev) = true ->
  no_line_terminator l = true -> line_rest rest ->
  line_matches pat l = false ->
  replace_scan pat (baseUrl ++ js "$1") before_rev O (l ++ rest)
  = l ++ replace_scan pat (baseUrl ++ js "$1") (rev l ++ before_rev) O rest.
Proof.
  intros Hstem Hb Hl Hrest Hno. destruct l as [|c l]; [reflexivity|].
  pose proof (exec_at_line pat (head before_rev) (c :: l) rest Hstem Hl Hrest Hb) as Hexec.
  rewrite Hno in Hexec.
  cbn [app replace_scan] in *. rewrite Hexec.
  unfold no_line_terminator in Hl. cbn [forallb] in Hl. fold (no_line_terminator l) in Hl.
  apply andb_true_iff in Hl as [Hc Hl].
  rewrite (replace_scan_mid_line pat baseUrl l (c :: before_rev) rest);
    [|apply negb_true_iff in Hc; exact Hc|exact Hl].
  cbn. now rewrite <- !app_assoc.
Qed.

Lemma replace_scan_lines_no_match (pat : SegmentPattern) (baseUrl : jsstring)
    (ls : list jsstring) (before_rev : jsstring) :
  no_line_terminator (pattern_stem pat) = true ->
  at_line_start (head before_rev) = true ->
  forallb no_line_terminator ls = true ->
  forallb (fun l => negb (line_matches pat l)) ls = true ->
  replace_scan pat (baseUrl ++ js "$1") before_rev O (join_lines ls) = join_lines ls.
Proof.
  intros Hstem. revert before_rev.
  induction ls as [|l ls IH]; intros b Hb Hls Hno; [reflexivity|].
  cbn [forallb] in Hls, Hno.
  apply andb_true_iff in Hls as [Hl Hls]. apply andb_true_iff in Hno as [Hn Hno].
  apply negb_true_iff in Hn.
  destruct ls as [|l2 ls].
  - cbn [join_lines]. rewrite <- (app_nil_r l) at 1.
    rewrite replace_scan_line_no_match; [|exact Hstem|exact Hb|exact Hl|now left|exact Hn].
    cbn. now rewrite app_nil_r.
  - change (join_lines (l :: l2 :: ls)) with (l ++ CH_NL :: join_lines (l2 :: ls)).
    rewrite replace_scan_line_no_match;
      [|exact Hstem|exact Hb|exact Hl|right; eauto|exact Hn].
    f_equal.
    pose proof (exec_at_line_feed pat (head (rev l ++ b)) (join_lines (l2 :: ls)) Hstem)
      as Hlf.
    cbn [replace_scan].
    destruct (exec_at pat (head (rev l ++ b)) (CH_NL :: join_lines (l2 :: ls)))
      as [[|m]|]; try contradiction; (f_equal; apply IH; [reflexivity|exact Hls|exact Hno]).
Qed.

(** X17: A manifest with line feeds as its only line breaks, none of whose
    lines is a segment line, comes out as it went in, whatever the base
    URL is: nothing matches, so the replacement text is never used. *)
Theorem rewriteManifest_without_segment_line (stem baseUrl text : jsstring) :
  no_line_terminator stem = true ->
  no_slash stem = true ->
  lf_only text = true ->
  forallb (fun l => negb (is_segment_line stem l)) (split_on CH_NL text) = true ->
  rewriteManifest stem baseUrl text = text.
Proof.
  intros Hstem Hslash Htext Hnone.
  pose proof (split_lines_plain text Htext) as Hlines.
  assert (Hboth : forall pat, pat = PatBare stem \/ pat = PatPrefixed stem ->
            forallb (fun l => negb (line_matches pat l)) (split_on CH_NL text) = true).
  { intros pat Hpat. clear - Hnone Hslash Hpat.
    induction (split_on CH_NL text) as [|l ls IH]; [reflexivity|].
    cbn [forallb] in *. apply andb_true_iff in Hnone as [Hl Hls].
    rewrite (IH Hls), andb_true_r.
    rewrite (is_segment_line_patterns stem l Hslash) in Hl.
    apply negb_true_iff, orb_false_iff in Hl as [Hbare Hpre].
    apply negb_true_iff. destruct Hpat as [->| ->]; assumption. }
  assert (Hpass : forall pat, pat = PatBare stem \/ pat = PatPrefixed stem ->
            replace_global pat (baseUrl ++ js "$1") text = text).
  { intros pat Hpat. unfold replace_global.
    rewrite <- (join_split_lines text) at 1 2.
    apply replace_scan_lines_no_match; [|reflexivity|exact Hlines|now apply Hboth].
    destruct Hpat as [->| ->]; exact Hstem. }
  unfold rewriteManifest. cbn zeta.
  rewrite (Hpass (PatBare stem)) by now left.
  apply Hpass. now right.
Qed.

(** ** The test client *)

Section TestClient.

Variable toBase64 : list N -> jsstring.

Lemma chunkSize_pos : 0 < TestStream.chunkSize.
Proof. unfold TestStream.chunkSize. lia. Qed.

Lemma ticks_unscheduled (video : list N) (n : nat) (c : TestStream.Client) :
  TestStream.scheduled c = false ->
  Nat.iter n (TestStream.tick toBase64 video) c = c.
Proof.
  intros H. induction n as [|n IH]; [reflexivity|].
  rewrite Nat.iter_succ, IH. unfold TestStream.tick. now rewrite H.
Qed.

(** The calls of [sendChunks] from an offset on: the slices that are sent
    are the rest of the buffer, cut every [chunkSize] bytes. *)
Lemma sendChunks_loop (video : list N) (fuel : nat) :
  forall c : TestStream.Client,
    TestStream.exited c = false ->
    length video <= TestStream.offset c + fuel * TestStream.chunkSize ->
    let c' := Nat.iter fuel (TestStream.tick toBase64 video)
                (TestStream.sendChunks toBase64 video c) in
    exists chunks : list (list N),
      TestStream.emitted c'
      = TestStream.emitted c
          ++ List.map (fun b => TestStream.MsgStreamChunk TestStream.userId
                                  TestStream.challengeNum (toBase64 b)) chunks
          ++ [TestStream.MsgStopStream TestStream.userId TestStream.challengeNum]
      /\ concat chunks = drop (TestStream.offset c) video
      /\ (forall i b, chunks !! i = Some b ->
            b = take TestStream.chunkSize
                  (drop (TestStream.offset c + i * TestStream.chunkSize) video)
            /\ 0 < length b)
      /\ TestStream.scheduled c' = false
      /\ TestStream.exited c' = false.
Proof.
  pose proof chunkSize_pos as Hpos.
  assert (Hstop : forall n c,
            TestStream.exited c = false ->
            length video <= TestStream.offset c ->
            let c' := Nat.iter n (TestStream.tick toBase64 video)
                        (TestStream.sendChunks toBase64 video c) in
            TestStream.emitted c'
            = TestStream.emitted c
                ++ [TestStream.MsgStopStream TestStream.userId TestStream.challengeNum]
            /\ TestStream.scheduled c' = false /\ TestStream.exited c' = false).
  { intros n c Hex Hlen c'. subst c'.
    assert (Hs : TestStream.sendChunks toBase64 video c
                 = {| TestStream.offset := TestStream.offset c;
                      TestStream.emitted :=
                        TestStream.emitted c
                          ++ [TestStream.MsgStopStream TestStream.userId
                                TestStream.challengeNum];
                      TestStream.scheduled := false;
                      TestStream.exited := TestStream.exited c |}).
    { unfold TestStream.sendChunks.
      now rewrite (proj2 (Nat.leb_le _ _) Hlen). }
    rewrite Hs, ticks_unscheduled by reflexivity. cbn. auto. }
  induction fuel as [|fuel IH]; intros c Hex Hlen c'.
  - destruct (Hstop 0 c Hex) as (He & Hs & Hx); [lia|].
    exists []. subst c'. rewrite He. cbn [List.map app concat].
    split; [reflexivity|]. split; [now rewrite drop_ge by lia|].
    split; [intros i b Hi; discriminate|]. auto.
  - destruct (decide (length video <= TestStream.offset c)) as [Hle|Hgt].
    + destruct (Hstop (S fuel) c Hex Hle) as (He & Hs & Hx).
      exists []. subst c'. rewrite He. cbn [List.map app concat].
      split; [reflexivity|]. split; [now rewrite drop_ge by lia|].
      split; [intros i b Hi; discriminate|]. auto.
    + set (b0 := take TestStream.chunkSize (drop (TestStream.offset c) video)).
      set (c1 := {| TestStream.offset := TestStream.offset c + TestStream.chunkSize;
                    TestStream.emitted :=
                      TestStream.emitted c
                        ++ [TestStream.MsgStreamChunk TestStream.userId
                              TestStream.challengeNum (toBase64 b0)];
                    TestStream.scheduled := true;
                    TestStream.exited := TestStream.exited c |}).
      assert (Hs : TestStream.sendChunks toBase64 video c = c1).
      { unfold TestStream.sendChunks, TestStream.slice.
        rewrite (proj2 (Nat.leb_gt _ _)) by lia.
        replace (TestStream.offset c + TestStream.chunkSize - TestStream.offset c)
          with TestStream.chunkSize by lia.
        reflexivity. }
      assert (Hnext : c' = Nat.iter fuel (TestStream.tick toBase64 video)
                             (TestStream.sendChunks toBase64 video c1)).
      { subst c'. rewrite Hs, Nat.iter_succ, <- Nat.iter_swap.
        assert (Ht : TestStream.tick toBase64 video c1
                     = TestStream.sendChunks toBase64 video c1).
        { unfold TestStream.tick. cbn [TestStream.scheduled TestStream.exited c1].
          now rewrite Hex. }
        now rewrite Ht. }
      destruct (IH c1) as (chunks & He & Hcat & Hidx & Hsched & Hexit).
      { exact Hex. }
      { cbn [TestStream.offset c1]. lia. }
      rewrite <- Hnext in He, Hsched, Hexit.
      exists (b0 :: chunks). split; [|split; [|split; [|auto]]].
      * rewrite He. cbn [TestStream.emitted c1 List.map]. now rewrite <- app_assoc.
      * cbn [concat]. rewrite Hcat. cbn [TestStream.offset c1]. unfold b0.
        rewrite <- drop_drop. apply take_drop.
      * intros [|i] b Hi.
        -- injection Hi as <-. rewrite Nat.add_0_r. split; [reflexivity|].
           unfold b0. rewrite length_take, length_drop. lia.
        -- cbn in Hi. destruct (Hidx i b Hi) as [Hb Hn]. split; [|exact Hn].
           rewrite Hb. cbn [TestStream.offset c1]. do 2 f_equal. lia.
Qed.

Lemma concat_length_bound (n : nat) (chunks : list (list N)) :
  (forall i b, chunks !! i = Some b -> length b <= n) ->
  length (concat chunks) <= length chunks * n.
Proof.
  induction chunks as [|b chunks IH]; intros H; [cbn; lia|].
  cbn [concat length]. rewrite length_app.
  pose proof (H 0 b eq_refl). specialize (IH (fun i => H (S i))). lia.
Qed.

(** What the client has sent when the upload is over. *)
Lemma upload_messages (video : list N) (fuel : nat) :
  length video <= fuel * TestStream.chunkSize ->
  let c := TestStream.upload toBase64 fuel video in
  exists chunks : list (list N),
    TestStream.emitted c
    = TestStream.MsgStartStream TestStream.userId TestStream.challengeNum
        :: List.map (fun b => TestStream.MsgStreamChunk TestStream.userId
                                TestStream.challengeNum (toBase64 b)) chunks
        ++ [TestStream.MsgStopStream TestStream.userId TestStream.challengeNum]
    /\ concat chunks = video
    /\ (forall i b, chunks !! i = Some b ->
          b = take TestStream.chunkSize (drop (i * TestStream.chunkSize) video)
          /\ 0 < length b)
    /\ TestStream.scheduled c = false
    /\ TestStream.exited c = false.
Proof.
  intros Hlen c.
  destruct (sendChunks_loop video fuel
              {| TestStream.offset := 0;
                 TestStream.emitted :=
                   [TestStream.MsgStartStream TestStream.userId TestStream.challengeNum];
                 TestStream.scheduled := false; TestStream.exited := false |})
    as (chunks & He & Hcat & Hidx & Hs & Hx); [reflexivity|cbn; lia|].
  exists chunks. split; [exact He|]. split; [exact Hcat|]. split; [|auto].
  intros i b Hi. destruct (Hidx i b Hi) as [Hb Hn]. cbn in Hb. auto.
Qed.

(** X18: The test client sends the whole video once: after [start-stream], one
    [stream-chunk] per slice of [chunkSize] bytes, in order, each with the
    slice in base64 and none empty, then a single [stop-stream], after
    which no call is scheduled; the slices put together are the video. *)
Theorem test_client_sends_video_in_slices (video : list N) (fuel : nat) :
  length video <= fuel * TestStream.chunkSize ->
  let c := TestStream.upload toBase64 fuel video in
  exists chunks : list (list N),
    TestStream.emitted c
    = TestStream.MsgStartStream TestStream.userId TestStream.challengeNum
        :: List.map (fun b => TestStream.MsgStreamChunk TestStream.userId
                                TestStream.challengeNum (toBase64 b)) chunks
        ++ [TestStream.MsgStopStream TestStream.userId TestStream.challengeNum]
    /\ concat chunks = video
    /\ (forall i b, chunks !! i = Some b ->
          b = take TestStream.chunkSize (drop (i * TestStream.chunkSize) video)
          /\ 0 < length b <= TestStream.chunkSize
          /\ i * TestStream.chunkSize < length video)
    /\ length video <= length chunks * TestStream.chunkSize
    /\ TestStream.scheduled c = false
    /\ TestStream.exited c = false.
Proof.
  intros Hlen c.
  destruct (upload_messages video fuel Hlen) as (chunks & He & Hcat & Hidx & Hs & Hx).
  exists chunks.
  assert (Hall : forall i b, chunks !! i = Some b ->
            b = take TestStream.chunkSize (drop (i * TestStream.chunkSize) video)
            /\ 0 < length b <= TestStream.chunkSize
            /\ i * TestStream.chunkSize < length video).
  { intros i b Hi. destruct (Hidx i b Hi) as [Hb Hn].
    split; [exact Hb|]. rewrite Hb in Hn |- *. rewrite length_take, length_drop in *. lia. }
  split; [exact He|]. split; [exact Hcat|]. split; [exact Hall|].
  split; [|auto].
  rewrite <- Hcat at 1. apply concat_length_bound.
  intros i b Hi. destruct (Hall i b Hi) as (_ & H & _). lia.
Qed.






End TestClient.

(** ** Base64, there and back *)








(** ** The test client against the server *)

Section TestUpload.

Variable path_join : jsstring -> jsstring -> jsstring.
Variable RECORDINGS_DIR : jsstring.
Variable base64_decode : jsstring -> list N.
Variable toBase64 : list N -> jsstring.



End TestUpload.

(** ** The added properties on the sample data *)

Lemma timelapse_job_never_signalled_witness :
  let s := run plain_join SAMPLE_DIR base64_bytes
             [EvGetTimelapse (sample_request 1);
              EvStopStream SAMPLE_SOCKET SAMPLE_USER SAMPLE_CHALLENGE;
              EvDisconnect SAMPLE_SOCKET]
             (init_state sample_recording 0) in
  let p := timelapseCommand plain_join SAMPLE_KEY SAMPLE_INPUT (js "/app/recordings/u1_5")
             SAMPLE_TIMELAPSE (sample_request 1) in
  procs s !! 0%nat = Some p
  /\ timelapse_key p = Some SAMPLE_KEY
  /\ p_signals p = []
  /\ forall k, ffmpegProcesses s !! k <> Some 0%nat.
Proof.
  cbn zeta. split; [vm_compute; reflexivity|]. split; [reflexivity|].
  apply (timelapse_job_never_signalled plain_join SAMPLE_DIR base64_bytes sample_recording 0
           [EvGetTimelapse (sample_request 1);
            EvStopStream SAMPLE_SOCKET SAMPLE_USER SAMPLE_CHALLENGE;
            EvDisconnect SAMPLE_SOCKET] 0%nat _ SAMPLE_KEY);
    [vm_compute; reflexivity|reflexivity].
Defined.


Lemma start_stream_replaces_session_witness :
  let s := run plain_join SAMPLE_DIR base64_bytes
             [EvStartStream SAMPLE_SOCKET SAMPLE_USER SAMPLE_CHALLENGE] (init_state ∅ 0) in
  let old := new_session plain_join SAMPLE_DIR SAMPLE_SOCKET SAMPLE_USER SAMPLE_CHALLENGE
               (init_state ∅ 0) in
  let w := new_sink plain_join SAMPLE_DIR SAMPLE_USER SAMPLE_CHALLENGE in
  let s' := on_start_stream plain_join SAMPLE_DIR (js "sock-2") SAMPLE_USER SAMPLE_CHALLENGE s in
  activeStreams s !! getStreamKey SAMPLE_USER SAMPLE_CHALLENGE = Some old
  /\ wstreams s !! si_writeStream old = Some w
  /\ size (activeStreams s') = size (activeStreams s)
  /\ wstreams s' !! si_writeStream old = Some w
  /\ forall sid',
       wstreams (on_stop_stream sid' SAMPLE_USER SAMPLE_CHALLENGE s') !! si_writeStream old
       = Some w.
Proof.
  cbn zeta.
  assert (H1 : activeStreams
                 (run plain_join SAMPLE_DIR base64_bytes
                    [EvStartStream SAMPLE_SOCKET SAMPLE_USER SAMPLE_CHALLENGE] (init_state ∅ 0))
               !! getStreamKey SAMPLE_USER SAMPLE_CHALLENGE
               = Some (new_session plain_join SAMPLE_DIR SAMPLE_SOCKET SAMPLE_USER
                         SAMPLE_CHALLENGE (init_state ∅ 0)))
    by (vm_compute; reflexivity).
  assert (H2 : wstreams
                 (run plain_join SAMPLE_DIR base64_bytes
                    [EvStartStream SAMPLE_SOCKET SAMPLE_USER SAMPLE_CHALLENGE] (init_state ∅ 0))
               !! si_writeStream
                    (new_session plain_join SAMPLE_DIR SAMPLE_SOCKET SAMPLE_USER
                       SAMPLE_CHALLENGE (init_state ∅ 0))
               = Some (new_sink plain_join SAMPLE_DIR SAMPLE_USER SAMPLE_CHALLENGE))
    by (vm_compute; reflexivity).
  destruct (start_stream_replaces_session plain_join SAMPLE_DIR base64_bytes (js "sock-2")
              SAMPLE_USER SAMPLE_CHALLENGE _ _ _ H1 H2)
    as (_ & Hsize & _ & Hw & _ & _ & _ & Hstop).
  split; [exact H1|]. split; [exact H2|]. split; [exact Hsize|]. split; [exact Hw|exact Hstop].
Defined.

Lemma stop_stream_closes_session_witness :
  let s := run plain_join SAMPLE_DIR base64_bytes sample_live (init_state ∅ 0) in
  let info := new_session plain_join SAMPLE_DIR SAMPLE_SOCKET SAMPLE_USER SAMPLE_CHALLENGE
                (init_state ∅ 0) in
  let p := session_encoder plain_join SAMPLE_DIR SAMPLE_USER SAMPLE_CHALLENGE in
  let s' := on_stop_stream SAMPLE_SOCKET SAMPLE_USER SAMPLE_CHALLENGE s in
  activeStreams s !! getStreamKey SAMPLE_USER SAMPLE_CHALLENGE = Some info
  /\ activeStreams s' = delete (getStreamKey SAMPLE_USER SAMPLE_CHALLENGE) (activeStreams s)
  /\ wstreams s' = alter end_stream (si_writeStream info) (wstreams s)
  /\ (forall sid' chunk,
        on_stream_chunk base64_bytes sid' SAMPLE_USER SAMPLE_CHALLENGE chunk s' = s')
  /\ exists p',
       procs s' !! 0%nat = Some p'
       /\ p_signals p' = (if p_running p then p_signals p ++ [js "SIGTERM"] else p_signals p).
Proof.
  cbn zeta.
  assert (H1 : activeStreams
                 (run plain_join SAMPLE_DIR base64_bytes sample_live (init_state ∅ 0))
               !! getStreamKey SAMPLE_USER SAMPLE_CHALLENGE
               = Some (new_session plain_join SAMPLE_DIR SAMPLE_SOCKET SAMPLE_USER
                         SAMPLE_CHALLENGE (init_state ∅ 0)))
    by (vm_compute; reflexivity).
  destruct (stop_stream_closes_session base64_bytes SAMPLE_SOCKET SAMPLE_USER SAMPLE_CHALLENGE
              _ _ H1) as (Ha & Hw & _ & _ & _ & _ & _ & _ & Hdrop & Hkill).
  split; [exact H1|]. split; [exact Ha|]. split; [exact Hw|]. split; [exact Hdrop|].
  destruct (Hkill 0%nat (session_encoder plain_join SAMPLE_DIR SAMPLE_USER SAMPLE_CHALLENGE))
    as (p' & Hp' & Hsig & _); [vm_compute; reflexivity..|].
  exists p'. split; [exact Hp'|exact Hsig].
Defined.


Lemma disconnect_signals_owned_encoder_witness :
  let s := run plain_join SAMPLE_DIR base64_bytes sample_live (init_state ∅ 0) in
  let info := new_session plain_join SAMPLE_DIR SAMPLE_SOCKET SAMPLE_USER SAMPLE_CHALLENGE
                (init_state ∅ 0) in
  let p := session_encoder plain_join SAMPLE_DIR SAMPLE_USER SAMPLE_CHALLENGE in
  activeStreams s !! SAMPLE_KEY = Some info
  /\ si_socketId info = SAMPLE_SOCKET
  /\ ffmpegProcesses s !! SAMPLE_KEY = Some 0%nat
  /\ procs s !! 0%nat = Some p
  /\ p_running p = true
  /\ exists p',
       procs (on_disconnect SAMPLE_SOCKET s) !! 0%nat = Some p'
       /\ js "SIGTERM" ∈ p_signals p'
       /\ p_running p' = true
       /\ p_on_error p' = p_on_error p.
Proof.
  cbn zeta.
  assert (H1 : activeStreams
                 (run plain_join SAMPLE_DIR base64_bytes sample_live (init_state ∅ 0))
               !! SAMPLE_KEY
               = Some (new_session plain_join SAMPLE_DIR SAMPLE_SOCKET SAMPLE_USER
                         SAMPLE_CHALLENGE (init_state ∅ 0)))
    by (vm_compute; reflexivity).
  assert (H3 : ffmpegProcesses
                 (run plain_join SAMPLE_DIR base64_bytes sample_live (init_state ∅ 0))
               !! SAMPLE_KEY = Some 0%nat)
    by (vm_compute; reflexivity).
  assert (H4 : procs (run plain_join SAMPLE_DIR base64_bytes sample_live (init_state ∅ 0))
               !! 0%nat
               = Some (session_encoder plain_join SAMPLE_DIR SAMPLE_USER SAMPLE_CHALLENGE))
    by (vm_compute; reflexivity).
  split; [exact H1|]. split; [reflexivity|]. split; [exact H3|]. split; [exact H4|].
  split; [reflexivity|].
  exact (disconnect_signals_owned_encoder SAMPLE_SOCKET SAMPLE_KEY _ 0%nat _ _
           H1 eq_refl H3 H4 eq_refl).
Defined.

Lemma rewriteManifest_idempotent_witness :
  no_line_terminator LIVE_STEM = true
  /\ no_slash LIVE_STEM = true
  /\ url_plain (js "https") = true
  /\ url_plain (js "h.example") = true
  /\ url_plain (js "u1") = true
  /\ url_plain (js "5") = true
  /\ lf_only (js "#EXTM3U
#EXTINF:2.000000,
segment_000.ts
") = true
  /\ rewriteManifest LIVE_STEM (baseUrlOf (js "https") (js "h.example") (js "u1") (js "5"))
       (rewriteManifest LIVE_STEM
          (baseUrlOf (js "https") (js "h.example") (js "u1") (js "5"))
          (js "#EXTM3U
#EXTINF:2.000000,
segment_000.ts
"))
     = js "#EXTM3U
#EXTINF:2.000000,
https://h.example/recordings/u1_5/segment_000.ts
".
Proof.
  repeat (split; [reflexivity|]).
  rewrite rewriteManifest_idempotent by reflexivity. vm_compute. reflexivity.
Defined.

Lemma rewriteManifest_without_segment_line_witness :
  no_line_terminator LIVE_STEM = true
  /\ no_slash LIVE_STEM = true
  /\ lf_only (js "#EXTM3U
#EXT-X-TARGETDURATION:2
") = true
  /\ forallb (fun l => negb (is_segment_line LIVE_STEM l))
       (split_on CH_NL (js "#EXTM3U
#EXT-X-TARGETDURATION:2
")) = true
  /\ rewriteManifest LIVE_STEM (js "https://h.example/recordings/$'_5/")
       (js "#EXTM3U
#EXT-X-TARGETDURATION:2
")
     = js "#EXTM3U
#EXT-X-TARGETDURATION:2
".
Proof.
  repeat (split; [reflexivity|]).
  apply rewriteManifest_without_segment_line; reflexivity.
Defined.

Lemma test_client_sends_video_in_slices_witness :
  let video := [26; 69; 223; 163]%N in
  let c := TestStream.upload base64_text 1 video in
  (length video <= 1 * TestStream.chunkSize)%nat
  /\ exists chunks : list (list N),
       TestStream.emitted c
       = TestStream.MsgStartStream TestStream.userId TestStream.challengeNum
           :: List.map (fun b => TestStream.MsgStreamChunk TestStream.userId
                                   TestStream.challengeNum (base64_text b)) chunks
           ++ [TestStream.MsgStopStream TestStream.userId TestStream.challengeNum]
       /\ concat chunks = video
       /\ (forall i b, chunks !! i = Some b ->
             b = take TestStream.chunkSize (drop (i * TestStream.chunkSize) video)
             /\ (0 < length b <= TestStream.chunkSize)%nat
             /\ (i * TestStream.chunkSize < length video)%nat)
       /\ (length video <= length chunks * TestStream.chunkSize)%nat
       /\ TestStream.scheduled c = false
       /\ TestStream.exited c = false.
Proof.
  cbn zeta.
  assert (H : (length [26; 69; 223; 163]%N <= 1 * TestStream.chunkSize)%nat)
    by (unfold TestStream.chunkSize; cbn [length]; lia).
  split; [exact H|].
  exact (test_client_sends_video_in_slices base64_text [26; 69; 223; 163]%N 1 H).
Defined.


(** ** Locating the encoder binary *)

Lemma find_first {A : Type} (f : A -> bool) (l : list A) :
  match List.find f l with
  | Some x =>
      exists before after,
        l = before ++ x :: after /\ f x = true
        /\ forallb (fun y => negb (f y)) before = true
  | None => forallb (fun y => negb (f y)) l = true
  end.
Proof.
  induction l as [|a l IH]; [reflexivity|].
  cbn [List.find]. destruct (f a) eqn:Ha.
  - exists [], l. auto.
  - destruct (List.find f l) as [x|].
    + destruct IH as (before & after & -> & Hx & Hb).
      exists (a :: before), after. cbn. rewrite Ha. auto.
    + cbn. now rewrite Ha.
Qed.

Lemma first_is_unique {A : Type} (f : A -> bool) (b1 a1 b2 a2 : list A) (x y : A) :
  b1 ++ x :: a1 = b2 ++ y :: a2 ->
  f x = true -> forallb (fun z => negb (f z)) b1 = true ->
  f y = true -> forallb (fun z => negb (f z)) b2 = true ->
  x = y.
Proof.
  revert b2. induction b1 as [|c b1 IH]; intros [|d b2] E Hx H1 Hy H2; cbn in *.
  - congruence.
  - injection E as -> _. rewrite Hx in H2. discriminate.
  - injection E as -> _. rewrite Hy in H1. discriminate.
  - injection E as -> E. apply andb_true_iff in H1 as [_ H1].
    apply andb_true_iff in H2 as [_ H2]. eauto.
Qed.

(** X20: The encoder path the server configures is the first of the three usual
    places that is on the disk; only when none of them is, it is what
    [which] printed, trimmed, provided the command succeeded and printed
    more than blanks.  Otherwise no path is configured. *)
Theorem ffmpeg_path_prefers_common_locations
    (onDisk : jsstring -> bool) (which : option jsstring) (p : jsstring) :
  configuredPath onDisk which = Some p <->
  (exists before after,
     commonPaths = before ++ p :: after /\ onDisk p = true
     /\ forallb (fun q => negb (onDisk q)) before = true)
  \/ (forallb (fun q => negb (onDisk q)) commonPaths = true
      /\ exists w, which = Some w /\ p = trim w /\ p <> []).
Proof.
  unfold configuredPath, ffmpegPath.
  pose proof (find_first onDisk commonPaths) as Hfind.
  destruct (List.find onDisk commonPaths) as [x|] eqn:Hx.
  - destruct Hfind as (before & after & Hl & Hon & Hb).
    assert (Hne : x <> []).
    { intros ->. assert (Hin : In [] commonPaths) by (rewrite Hl; apply in_elt).
      vm_compute in Hin. intuition discriminate. }
    rewrite bool_decide_eq_false_2 by exact Hne. split.
    + intros [= <-]. left. eauto.
    + intros [(b' & a' & Hl' & Hon' & Hb')|[Hnone _]].
      * f_equal. rewrite Hl in Hl'. exact (first_is_unique _ _ _ _ _ _ _ Hl' Hon Hb Hon' Hb').
      * rewrite Hl, forallb_app in Hnone. cbn in Hnone. rewrite Hon in Hnone.
        cbn in Hnone. rewrite andb_false_r in Hnone. discriminate.
  - split.
    + destruct which as [w|]; cbn; [|discriminate].
      destruct (decide (trim w = [])) as [E|E].
      * rewrite bool_decide_eq_true_2 by exact E. discriminate.
      * rewrite bool_decide_eq_false_2 by exact E. intros [= <-]. right. eauto.
    + intros [(b' & a' & Hl' & Hon' & _)|(_ & w & -> & -> & Hne)].
      * rewrite Hl', forallb_app in Hfind. cbn in Hfind. rewrite Hon' in Hfind.
        cbn in Hfind. rewrite andb_false_r in Hfind. discriminate.
      * cbn. now rewrite bool_decide_eq_false_2 by exact Hne.
Qed.


(** ** The ingest artifact, on the sample run *)

(** With the plain join a manifest path and an input path end in different
    characters. *)
Lemma plain_join_last (a b : jsstring) :
  b <> [] -> last (plain_join a b) = last b.
Proof.
  intros Hb. unfold plain_join.
  rewrite last_app. cbn [last]. destruct b as [|x b]; [congruence|].
  change (last (CH_SLASH :: x :: b)) with (last (x :: b)).
  destruct (last (x :: b)) eqn:E; [reflexivity|].
  apply last_None in E. discriminate.
Qed.

Lemma plain_join_names_apart (a b name name' : jsstring) :
  name <> [] -> name' <> [] -> last name <> last name' ->
  plain_join a name <> plain_join b name'.
Proof.
  intros Hn Hn' Hl E. apply (f_equal last) in E.
  rewrite !plain_join_last in E by assumption. contradiction.
Qed.

Lemma ingest_artifact_is_concatenation_witness :
  let s := run plain_join SAMPLE_DIR base64_bytes
             (sample_other_session
                ++ EvStartStream SAMPLE_SOCKET SAMPLE_USER SAMPLE_CHALLENGE
                :: sample_busy_session)
             (init_state ∅ 0) in
  crashed s = false
  /\ content_of SAMPLE_INPUT s = [77; 97; 110; 1; 2; 77; 97]%N.
Proof.
  cbn zeta.
  assert (Hup : crashed (run plain_join SAMPLE_DIR base64_bytes
                           (sample_other_session
                              ++ EvStartStream SAMPLE_SOCKET SAMPLE_USER SAMPLE_CHALLENGE
                              :: sample_busy_session)
                           (init_state ∅ 0)) = false)
    by (vm_compute; reflexivity).
  split; [exact Hup|].
  destruct (ingest_artifact_is_concatenation plain_join SAMPLE_DIR base64_bytes ∅ 0
              sample_other_session sample_busy_session
              SAMPLE_SOCKET SAMPLE_USER SAMPLE_CHALLENGE) as (H & _).
  - intros a. apply plain_join_names_apart; vm_compute; congruence.
  - intros a. apply plain_join_names_apart; vm_compute; congruence.
  - vm_compute. reflexivity.
  - vm_compute. reflexivity.
  - exact Hup.
  - transitivity (concat (session_chunks base64_bytes
                            (getStreamKey SAMPLE_USER SAMPLE_CHALLENGE) SAMPLE_SOCKET
                            sample_busy_session)); [exact H|].
    vm_compute. reflexivity.
Defined.

(** C4 does not hold for every run: when a second [start-stream] comes
    for the key of a session that is receiving chunks, the input file is
    opened anew and emptied; the chunks that socket 1 sends before its
    stop are [Man] and [Ma], and the file ends up with [Ma] alone: what
    was written is gone. *)
Lemma second_start_truncates_artifact :
  let artifact n :=
    content_of SAMPLE_INPUT
      (run plain_join SAMPLE_DIR base64_bytes (take n sample_second_start)
         (init_state ∅ 0)) in
  crashed (run plain_join SAMPLE_DIR base64_bytes sample_second_start (init_state ∅ 0))
  = false
  /\ artifact 2 = [77; 97; 110]%N
  /\ artifact 3 = []
  /\ artifact 5 = [77; 97]%N
  /\ artifact 5 <> base64_bytes (js "TWFu") ++ base64_bytes (js "TWE=")
  /\ ~ artifact 2 `prefix_of` artifact 5.
Proof.
  cbn zeta. split; [vm_compute; reflexivity|]. split; [vm_compute; reflexivity|].
  split; [vm_compute; reflexivity|]. split; [vm_compute; reflexivity|]. split.
  - vm_compute. discriminate.
  - intros [k Hk]. vm_compute in Hk. discriminate.
Qed.
